(** * Fleet resource allocator: allocation matching, identity keys,
      historical append and pace aggregation.

    A shallow embedding of the core functions of the Apps Script sources
    (Utils.js, Config.js, the allocation service, the sheet service,
    DeliveryPaceService.js, FormService.js, EmailService.js and the script
    of the web form) together with the properties stated about them.

    Modelling conventions.
    - A spreadsheet cell read with [getValues] is a string, a number, a
      boolean or a Date; numbers are integers ([Z]); an empty cell is the
      empty string, as the platform returns it. Two Dates read from a sheet
      are distinct objects.
    - A sheet stores what was written to it and returns it unchanged; a
      write past its last row makes it grow.
    - Strings are byte strings; [trim] removes ASCII white space.
    - JS objects used as dictionaries are finite maps over strings; keys
      inherited from [Object.prototype] are not modelled.
    - Routes, vehicles and allocations are records whose textual fields are
      strings, as in the data model; the operational flag is a cell, because
      the code compares it with [===]. Pace cells hold a number or are
      empty.
    - The clock is an argument ([now]); one pipeline run reads one date.
    - [Logger.log] is modelled by the list of lines it receives where a
      property speaks about the log, and left out elsewhere.
    - Functions that can throw return a [result].
    - The values of a sheet read with [getDataRange] are the list of its
      rows; [appendRow] adds a row at its end.
    - The text of a Date object ([toString]) is the platform's; functions
      that need it take it as the argument [dateText].
    - Where a function calls [getDeliveryPaceData] only to write its counts
      into pace cells, the source is the argument [getPace], with counts
      that are numbers or [null]. *)

From Stdlib Require Import ZArith String Ascii List DecimalString.
From stdpp Require Import gmap strings list fin_maps sorting.

Local Open Scope string_scope.
Local Open Scope list_scope.

(* ===================================================================== *)
(** ** JavaScript values held by cells *)
(* ===================================================================== *)

(** A calendar date in the script's time zone. *)
Record Date := mkDate { dyear : nat; dmonth : nat; dday : nat }.

Inductive cell :=
  | CStr (s : string)
  | CNum (z : Z)
  | CBool (b : bool)
  | CDate (d : Date).

#[global] Instance Date_eq_dec : EqDecision Date.
Proof. solve_decision. Defined.

#[global] Instance cell_eq_dec : EqDecision cell.
Proof. solve_decision. Defined.

(** The empty cell. *)
Definition blank : cell := CStr "".

(** JS truthiness: [if (v)]. A Date is an object, hence truthy. *)
Definition truthy (v : cell) : bool :=
  match v with
  | CStr s => negb (String.eqb s "")
  | CNum z => negb (Z.eqb z 0)
  | CBool b => b
  | CDate _ => true
  end.

(** [a === b], which is also the SameValueZero comparison of [Set]: strings,
    numbers and booleans compare by value; two Dates read from a sheet are
    distinct objects and never compare equal. *)
Definition strictEq (a b : cell) : bool :=
  match a, b with
  | CStr s, CStr t => String.eqb s t
  | CNum x, CNum y => Z.eqb x y
  | CBool x, CBool y => Bool.eqb x y
  | _, _ => false
  end.

Definition natToString (n : nat) : string :=
  NilZero.string_of_uint (Nat.to_uint n).

Definition numToString (z : Z) : string :=
  NilZero.string_of_int (Z.to_int z).

(** Zero-padding to at least [w] digits, as the "MM", "dd" and "yyyy"
    pattern letters do. *)
Fixpoint zeros (k : nat) : string :=
  match k with
  | O => ""
  | S k' => "0" +:+ zeros k'
  end.

Definition padNum (w n : nat) : string :=
  let s := natToString n in
  zeros (w - String.length s) +:+ s.

(** Utils.js [formatDate]: [Utilities.formatDate(date, tz, "MM/dd/yyyy")]. *)
Definition formatDate (date : Date) : string :=
  padNum 2 (dmonth date) +:+ "/" +:+ padNum 2 (dday date) +:+ "/" +:+
  padNum 4 (dyear date).

(** Utils.js [getTodayString]: [formatDate(new Date())]; the clock is the
    argument [now]. *)
Definition getTodayString (now : Date) : string := formatDate now.

(** ASCII white space removed by [String.prototype.trim]. *)
Definition isSpace (c : ascii) : bool :=
  match nat_of_ascii c with
  | 9 | 10 | 11 | 12 | 13 | 32 => true
  | _ => false
  end.

(** [s.trim() === ""]. *)
Fixpoint allSpace (s : string) : bool :=
  match s with
  | EmptyString => true
  | String c s' => isSpace c && allSpace s'
  end.

(** [s.indexOf(needle) !== -1]. *)
Definition containsStr (needle s : string) : bool :=
  match String.index 0 needle s with
  | Some _ => true
  | None => false
  end.

(* ===================================================================== *)
(** ** Config.js *)
(* ===================================================================== *)

Definition VAN_TYPE_MAPPING : gmap string string :=
  {[ "Standard Parcel - Extra Large Van - US" := "Extra Large";
     "Standard Parcel - Large Van" := "Large";
     "Standard Parcel Step Van - US" := "Step Van" ]}.

Definition DELIVERY_TIME_LABELS : list string :=
  ["1:40 PM"; "3:40 PM"; "5:40 PM"; "7:40 PM"; "9:40 PM"].

(* ===================================================================== *)
(** ** Utils.js: the type mapper and [groupBy] *)
(* ===================================================================== *)

(** [getVanType] over an explicit mapping table: the mapped value when it is
    truthy, else "Large" when the (non-empty) service type contains
    "Nursery Route Level", else [null]. *)
Definition getVanTypeIn (mapping : gmap string string) (serviceType : string)
  : option string :=
  match mapping !! serviceType with
  | Some t =>
      if truthy (CStr t) then Some t
      else if truthy (CStr serviceType) && containsStr "Nursery Route Level" serviceType
           then Some "Large" else None
  | None =>
      if truthy (CStr serviceType) && containsStr "Nursery Route Level" serviceType
      then Some "Large" else None
  end.

Definition getVanType (serviceType : string) : option string :=
  getVanTypeIn VAN_TYPE_MAPPING serviceType.

(** One iteration of [groupBy]'s [forEach]: create the bucket when
    [out[key]] is missing, then push the object on it. *)
Definition groupByStep {A} (field : A → string)
    (out : gmap string (list A)) (obj : A) : gmap string (list A) :=
  let key := field obj in
  let out1 := match out !! key with
              | None => <[key := []]> out
              | Some _ => out
              end in
  alter (λ bucket, bucket ++ [obj]) key out1.

Definition groupBy {A} (arr : list A) (field : A → string)
  : gmap string (list A) :=
  fold_left (groupByStep field) arr ∅.

(* ===================================================================== *)
(** ** Allocation service: routes, vehicles, allocations *)
(* ===================================================================== *)

(** A row of the Day of Ops "Solution" sheet. *)
Record Route := mkRoute {
  rt_RouteCode : string;
  rt_ServiceType : string;
  rt_DSP : string;
  rt_Wave : string;
  rt_StagingLocation : string
}.

(** A row of the "Vehicle Status" sheet: "Van ID", "Type", "Opnal?\nY/N". *)
Record Vehicle := mkVehicle {
  veh_VanID : string;
  veh_Type : string;
  veh_Opnal : cell
}.

(** One element of [allocationResults]. *)
Record Allocation := mkAllocation {
  al_RouteCode : string;
  al_ServiceType : string;
  al_DSP : string;
  al_Wave : string;
  al_StagingLocation : string;
  al_VanID : string;
  al_DeviceName : string;
  al_VanType : string;
  al_Operational : cell;
  al_AssociateName : string
}.

#[global] Instance Route_eq_dec : EqDecision Route.
Proof. solve_decision. Defined.
#[global] Instance Vehicle_eq_dec : EqDecision Vehicle.
Proof. solve_decision. Defined.
#[global] Instance Allocation_eq_dec : EqDecision Allocation.
Proof. solve_decision. Defined.

(** The object literal built for a matched route. *)
Definition makeResult (route : Route) (assignedVehicle : Vehicle) : Allocation :=
  {| al_RouteCode := rt_RouteCode route;
     al_ServiceType := rt_ServiceType route;
     al_DSP := rt_DSP route;
     al_Wave := rt_Wave route;
     al_StagingLocation := rt_StagingLocation route;
     al_VanID := veh_VanID assignedVehicle;
     al_DeviceName := veh_VanID assignedVehicle;
     al_VanType := veh_Type assignedVehicle;
     al_Operational := veh_Opnal assignedVehicle;
     al_AssociateName := "" |}.

(** The variables the [forEach] callback of [allocateVehiclesToRoutes]
    closes over, plus the Logger. *)
Record AllocState := mkAllocState {
  fleetGroups : gmap string (list Vehicle);
  allocationResults : list Allocation;
  assignedVanIds : list string;
  logLines : list string
}.

Definition logNoType (route : Route) : string :=
  "No matching van type for Service Type: " +:+ rt_ServiceType route +:+
  " (Route: " +:+ rt_RouteCode route +:+ "). Skipping.".

Definition logNoVehicle (requiredVanType : string) (route : Route) : string :=
  "No available vehicle of type '" +:+ requiredVanType +:+
  "' for route: " +:+ rt_RouteCode route.

Definition logAssigned (v : Vehicle) (route : Route) : string :=
  "Assigned Van '" +:+ veh_VanID v +:+ "' (type: " +:+ veh_Type v +:+
  ") to route '" +:+ rt_RouteCode route +:+ "'".

(** The body of [dayOfOpsObj.forEach(function(route) { ... })]. *)
Definition allocateRoute (st : AllocState) (route : Route) : AllocState :=
  let serviceType := rt_ServiceType route in
  match getVanType serviceType with
  | None =>
      mkAllocState (fleetGroups st) (allocationResults st) (assignedVanIds st)
                   (logLines st ++ [logNoType route])
  | Some requiredVanType =>
      if negb (truthy (CStr requiredVanType)) then
        mkAllocState (fleetGroups st) (allocationResults st) (assignedVanIds st)
                     (logLines st ++ [logNoType route])
      else
        match fleetGroups st !! requiredVanType with
        | None | Some [] =>
            mkAllocState (fleetGroups st) (allocationResults st)
                         (assignedVanIds st)
                         (logLines st ++ [logNoVehicle requiredVanType route])
        | Some (assignedVehicle :: rest) =>
            mkAllocState (<[requiredVanType := rest]> (fleetGroups st))
                         (allocationResults st ++ [makeResult route assignedVehicle])
                         (assignedVanIds st ++ [veh_VanID assignedVehicle])
                         (logLines st ++ [logAssigned assignedVehicle route])
        end
  end.

(** [f["Opnal?\nY/N"] === "Y"]. *)
Definition isOperational (f : Vehicle) : Prop := veh_Opnal f = CStr "Y".

#[global] Instance isOperational_dec f : Decision (isOperational f).
Proof. unfold isOperational. apply _. Defined.

Definition operationalFleet (fleetObj : list Vehicle) : list Vehicle :=
  filter isOperational fleetObj.

Definition allocInit (fleetObj : list Vehicle) : AllocState :=
  let operational := operationalFleet fleetObj in
  mkAllocState (groupBy operational veh_Type) [] []
    [ "Filtering fleet for operational vehicles (Opnal? Y/N == 'Y')...";
      "Operational fleet count: " +:+ natToString (length operational) ].

(** [allocateVehiclesToRoutes]: the final state; the function's return value
    is the pair of its [allocationResults] and [assignedVanIds]. *)
Definition allocateVehiclesToRoutes (dayOfOpsObj : list Route)
    (fleetObj : list Vehicle) : AllocState :=
  fold_left allocateRoute dayOfOpsObj (allocInit fleetObj).


(* ===================================================================== *)
(** ** The matcher as the specification words it (sections 4.1 to 4.3) *)
(* ===================================================================== *)

Module MatcherSpec.

(** 4.1: exact lookup in the configured table first, then the
    "Nursery Route Level" substring rule, else unresolved. *)
Definition resolveCategory (serviceType : string) : option string :=
  match VAN_TYPE_MAPPING !! serviceType with
  | Some category => Some category
  | None =>
      if containsStr "Nursery Route Level" serviceType then Some "Large"
      else None
  end.

(** 4.2: the queue of a category holds the operational vehicles of that
    category in roster order. *)
Definition partition (vehicles : list Vehicle) (category : string)
  : list Vehicle :=
  filter (λ v, veh_Type v = category)
         (filter (λ v, veh_Opnal v = CStr "Y") vehicles).

Definition setQueue (queues : string → list Vehicle) (category : string)
    (q : list Vehicle) : string → list Vehicle :=
  λ c, if decide (c = category) then q else queues c.

(** 4.3: routes in input order; an unresolved category or an empty queue
    leaves the route unmatched; otherwise the head of the queue is popped
    and an allocation is created. Returns the allocations and the unmatched
    routes. *)
Fixpoint matchRoutes (routes : list Route) (queues : string → list Vehicle)
  : list Allocation * list Route :=
  match routes with
  | [] => ([], [])
  | route :: rest =>
      match resolveCategory (rt_ServiceType route) with
      | None =>
          let '(allocs, unmatched) := matchRoutes rest queues in
          (allocs, route :: unmatched)
      | Some category =>
          match queues category with
          | [] =>
              let '(allocs, unmatched) := matchRoutes rest queues in
              (allocs, route :: unmatched)
          | vehicle :: q =>
              let '(allocs, unmatched) :=
                matchRoutes rest (setQueue queues category q) in
              (makeResult route vehicle :: allocs, unmatched)
          end
      end
  end.




End MatcherSpec.

(** All vehicles still queued, over all categories (in no particular
    order of categories). *)
Definition queued (groups : gmap string (list Vehicle)) : list Vehicle :=
  map_to_list groups ≫= snd.

(* ===================================================================== *)
(** ** Results of functions that may throw *)
(* ===================================================================== *)

Inductive result (A : Type) : Type :=
  | Ok (a : A)
  | Throw (msg : string).
Arguments Ok {A} a.
Arguments Throw {A} msg.

(** [arr.indexOf(x)], by strict equality; [None] is [-1]. *)
Definition indexOf (arr : list cell) (x : cell) : option nat :=
  fst <$> list_find (λ c, strictEq c x = true) arr.

(** [set.has(x)] / [arr.includes(x)] for a collection given as a list. *)
Definition hasCell (xs : list cell) (x : cell) : bool :=
  existsb (λ y, strictEq y x) xs.

(** The loop test of [extractUnassignedRows]: the row is wide enough, its
    flag is exactly "Y" and its van id is not in [assignedSet]. A column
    index beyond the row reads [undefined], which is neither "Y" nor a
    member of the set of assigned ids. *)
Definition unassignedRow (colCount vanIdCol opCol : nat)
    (assignedVanIds : list string) (row : list cell) : bool :=
  (colCount <=? length row)%nat &&
  match row !! opCol with
  | Some opValue => strictEq opValue (CStr "Y")
  | None => false
  end &&
  negb match row !! vanIdCol with
       | Some thisVanId => hasCell (CStr <$> assignedVanIds) thisVanId
       | None => false
       end.

(** [extractUnassignedRows(vehicleStatusData, assignedVanIds)]. *)
Definition extractUnassignedRows (vehicleStatusData : list (list cell))
    (assignedVanIds : list string) : result (list (list cell)) :=
  match vehicleStatusData with
  | [] => Throw "TypeError: Cannot read properties of undefined (reading 'indexOf')"
  | headerRow :: rows =>
      let colCount := 15 in
      match indexOf headerRow (CStr "Van ID"),
            indexOf headerRow (CStr ("Opnal?" +:+ String "010"%char "Y/N")) with
      | Some vanIdCol, Some opCol =>
          Ok (take colCount headerRow ::
              (take colCount <$>
                 List.filter (unassignedRow colCount vanIdCol opCol assignedVanIds)
                             rows))
      | _, _ =>
          Throw ("Could not find 'Van ID' or 'Opnal?" +:+ String "010"%char
                 "Y/N' in Vehicle Status header.")
      end
  end.




(* ===================================================================== *)
(** ** The Results sheet *)
(* ===================================================================== *)

(** A row of the "MM-dd-yy - Results" sheet, columns 0 to 10 in the order
    of its header. Text columns hold text; the operational flag and the
    unique identifier are cells (the identifier may be missing). *)
Record ResultsRow := mkResultsRow {
  res_RouteCode : string;          (* r[0] *)
  res_ServiceType : string;        (* r[1] *)
  res_DSP : string;                (* r[2] *)
  res_Wave : string;               (* r[3] *)
  res_StagingLocation : string;    (* r[4] *)
  res_VanID : string;              (* r[5] *)
  res_DeviceName : string;         (* r[6] *)
  res_VanType : string;            (* r[7] *)
  res_Operational : cell;          (* r[8] *)
  res_AssociateName : string;      (* r[9] *)
  res_UniqueIdentifier : cell      (* r[10] *)
}.

Definition resultsHeader : ResultsRow :=
  mkResultsRow "Route Code" "Service Type" "DSP" "Wave" "Staging Location"
               "Van ID" "Device Name" "Van Type" (CStr "Operational")
               "Associate Name" (CStr "Unique Identifier").

(** The identity key: date, route code, associate name and van id joined by
    a literal pipe. *)
Definition deriveKey (date routeCode associateName vanId : string) : string :=
  date +:+ "|" +:+ routeCode +:+ "|" +:+ associateName +:+ "|" +:+ vanId.

(** [createResultsSheet]: the header and one row per allocation, with the
    identifier built from today's date and the allocation's fields. *)
Definition createResultsSheet (now : Date) (allocationResults : list Allocation)
  : list ResultsRow :=
  let today := formatDate now in
  resultsHeader ::
  map (λ r,
         let uniqueIdentifier :=
           today +:+ "|" +:+ al_RouteCode r +:+ "|" +:+ al_AssociateName r +:+
           "|" +:+ al_VanID r in
         mkResultsRow (al_RouteCode r) (al_ServiceType r) (al_DSP r) (al_Wave r)
                      (al_StagingLocation r) (al_VanID r) (al_DeviceName r)
                      (al_VanType r) (al_Operational r) (al_AssociateName r)
                      (CStr uniqueIdentifier))
      allocationResults.

(** A row of the Daily Routes sheet: "Route code", "Driver name". *)
Record DailyRoute := mkDailyRoute {
  dr_RouteCode : string;
  dr_DriverName : string
}.

(** [x || "N/A"] on strings. *)
Definition orNA (x : string) : string :=
  if truthy (CStr x) then x else "N/A".

(** The [routeToDriver] object: later rows overwrite earlier ones. *)
Definition routeToDriver (dailyRoutesObj : list DailyRoute) : gmap string string :=
  fold_left (λ m r, <[dr_RouteCode r := orNA (dr_DriverName r)]> m)
            dailyRoutesObj ∅.

(** The loop body of [updateResultsWithDailyRoutes] for one data row. *)
Definition updateResultsRow (now : Date) (drivers : gmap string string)
    (row : ResultsRow) : ResultsRow :=
  let routeCode := res_RouteCode row in
  let associateName :=
    match drivers !! routeCode with
    | Some name => orNA name
    | None => "N/A"
    end in
  let uniqueIdentifier :=
    getTodayString now +:+ "|" +:+ res_RouteCode row +:+ "|" +:+
    associateName +:+ "|" +:+ res_VanID row in
  mkResultsRow (res_RouteCode row) (res_ServiceType row) (res_DSP row)
               (res_Wave row) (res_StagingLocation row) (res_VanID row)
               (res_DeviceName row) (res_VanType row) (res_Operational row)
               associateName (CStr uniqueIdentifier).

(** [updateResultsWithDailyRoutes] on the content of an existing Results
    sheet: nothing to do below two rows, otherwise every data row gets its
    associate name and a rebuilt identifier. *)
Definition updateResultsWithDailyRoutes (now : Date) (sheet : list ResultsRow)
    (dailyRoutesObj : list DailyRoute) : list ResultsRow :=
  match sheet with
  | header :: (_ :: _) as data =>
      header :: map (updateResultsRow now (routeToDriver dailyRoutesObj)) data
  | _ => sheet
  end.

(* ===================================================================== *)
(** ** The Daily Details sheet (the historical log) *)
(* ===================================================================== *)

(** Five values, one per checkpoint label of [DELIVERY_TIME_SLOTS]. *)
Record Slots (A : Type) := mkSlots {
  s140 : A;   (* "1:40 PM", column L *)
  s340 : A;   (* "3:40 PM", column M *)
  s540 : A;   (* "5:40 PM", column N *)
  s740 : A;   (* "7:40 PM", column O *)
  s940 : A    (* "9:40 PM", column P *)
}.
Arguments mkSlots {A}.
Arguments s140 {A}.
Arguments s340 {A}.
Arguments s540 {A}.
Arguments s740 {A}.
Arguments s940 {A}.

Definition slotsAll {A} (a : A) : Slots A := mkSlots a a a a a.

Definition slotsToList {A} (s : Slots A) : list A :=
  [s140 s; s340 s; s540 s; s740 s; s940 s].

(** The five checkpoints, to index a [Slots]. *)
Inductive Checkpoint := C140 | C340 | C540 | C740 | C940.

Definition slotAt {A} (c : Checkpoint) (s : Slots A) : A :=
  match c with
  | C140 => s140 s | C340 => s340 s | C540 => s540 s
  | C740 => s740 s | C940 => s940 s
  end.

Definition slotsOf {A} (f : Checkpoint → A) : Slots A :=
  mkSlots (f C140) (f C340) (f C540) (f C740) (f C940).

(** A row of Daily Details: columns A to E, the pace columns L to P (a
    delivery count or an empty cell) and the identifier in column V. The
    other columns are never read or written by the functions below. *)
Record DetailRow := mkDetailRow {
  dd_Date : cell;                 (* A, index 0 *)
  dd_Route : cell;                (* B, index 1 *)
  dd_Name : cell;                 (* C, index 2 *)
  dd_AssetID : cell;              (* D, index 3 *)
  dd_VanID : cell;                (* E, index 4 *)
  dd_Pace : Slots (option Z);     (* L..P, indices 11..15 *)
  dd_UniqueID : cell              (* V, index 21 *)
}.

Definition blankRow : DetailRow :=
  mkDetailRow blank blank blank blank blank (slotsAll None) blank.

(** The sheet is the list of its rows, row 1 first; rows past the end are
    empty. *)
Abbreviation Sheet := (list DetailRow).

Definition rowAt (sheet : Sheet) (row : nat) : DetailRow :=
  nth (row - 1) sheet blankRow.

(** [v && v.toString().trim() !== ""]. The text of a number, of [true] and
    of a Date is never blank. *)
Definition populated (v : cell) : bool :=
  truthy v &&
  match v with
  | CStr s => negb (allSpace s)
  | CNum z => negb (allSpace (numToString z))
  | CBool _ => true
  | CDate _ => true
  end.

Definition populatedAE (r : DetailRow) : bool :=
  existsb populated [dd_Date r; dd_Route r; dd_Name r; dd_AssetID r; dd_VanID r].

(** The loop of [getLastPopulatedRowInColumns]: [i] is the index of the
    next row and [lastPopulatedRow] the value so far. *)
Fixpoint lastPopulatedFrom (i : nat) (data : list DetailRow)
    (lastPopulatedRow : nat) : nat :=
  match data with
  | [] => lastPopulatedRow
  | row :: rest =>
      lastPopulatedFrom (S i) rest
        (if populatedAE row then (i + 1)%nat else lastPopulatedRow)
  end.

Definition getLastPopulatedRowInColumns (sheet : Sheet) : nat :=
  lastPopulatedFrom 0 sheet 0.

(** [sheet.getRange(2, 1, lastRow - 1, 22).getValues()]. *)
Definition dataRows (sheet : Sheet) (lastRow : nat) : list DetailRow :=
  take (lastRow - 1) (drop 1 sheet).

(** The date of a row as text: a Date is formatted, anything else is
    converted with [toString]. *)
Definition cellDateString (v : cell) : string :=
  match v with
  | CDate d => formatDate d
  | CStr s => s
  | CNum z => numToString z
  | CBool b => if b then "true" else "false"
  end.

(** [set.add(x)] on a [Set] kept in insertion order. *)
Definition setAdd (s : list cell) (x : cell) : list cell :=
  if hasCell s x then s else s ++ [x].

(** [getExistingUniqueIdentifiers(sheet, dateStr)]. *)
Definition getExistingUniqueIdentifiers (sheet : Sheet) (dateStr : string)
  : list cell :=
  let lastRow := getLastPopulatedRowInColumns sheet in
  if (1 <? lastRow)%nat then
    fold_left
      (λ uniqueIdentifiers row,
         if String.eqb (cellDateString (dd_Date row)) dateStr
         then setAdd uniqueIdentifiers (dd_UniqueID row)
         else uniqueIdentifiers)
      (dataRows sheet lastRow) []
  else [].

(** Writing a block of [vals] from (0-based) row index [at]: the sheet grows
    by empty rows when the block reaches past its end. *)
Definition padTo (n : nat) (sheet : Sheet) : Sheet :=
  sheet ++ replicate (n - length sheet) blankRow.

Definition writeRows {A} (f : A → DetailRow → DetailRow) (at_ : nat)
    (vals : list A) (sheet : Sheet) : Sheet :=
  let s := padTo (at_ + length vals) sheet in
  take at_ s ++
  zip_with f vals (take (length vals) (drop at_ s)) ++
  drop (at_ + length vals) s.

(** [newRow = [today, r[0], r[9], "", r[5]]]. *)
Record NewRow := mkNewRow {
  nr_Date : cell; nr_Route : cell; nr_Name : cell; nr_Asset : cell; nr_Van : cell
}.

Definition newRowOf (today : string) (r : ResultsRow) : NewRow :=
  mkNewRow (CStr today) (CStr (res_RouteCode r)) (CStr (res_AssociateName r))
           (CStr "") (CStr (res_VanID r)).

Definition setAE (v : NewRow) (row : DetailRow) : DetailRow :=
  mkDetailRow (nr_Date v) (nr_Route v) (nr_Name v) (nr_Asset v) (nr_Van v)
              (dd_Pace row) (dd_UniqueID row).

Definition setV (id : cell) (row : DetailRow) : DetailRow :=
  mkDetailRow (dd_Date row) (dd_Route row) (dd_Name row) (dd_AssetID row)
              (dd_VanID row) (dd_Pace row) id.

(** The [Set] of truthy identifiers collected from the data rows. *)
Definition collectIdentifiers (dataRows : list ResultsRow) : list cell :=
  fold_left
    (λ ids r, if truthy (res_UniqueIdentifier r)
              then setAdd ids (res_UniqueIdentifier r) else ids)
    dataRows [].

(** What [updateDailyDetails] did, as its log tells. *)
Inductive AppendOutcome :=
  | NoRows                              (* "No rows in the Results sheet to process." *)
  | Rejected (duplicates : list cell)   (* one "Duplicate found" line per key; no write *)
  | Appended (startRow numNewRows : nat) (identifiersWritten : bool).

(** [updateDailyDetails], given the two sheets it opens: the outcome and the
    Daily Details sheet afterwards. The functions it calls after the writes
    touch alignment and validation rules only. *)
Definition updateDailyDetails (now : Date) (dailyDetailsSheet : Sheet)
    (resultsData : list ResultsRow) : AppendOutcome * Sheet :=
  match resultsData with
  | [] | [_] => (NoRows, dailyDetailsSheet)
  | _ :: data =>
      let today := getTodayString now in
      let newRows := map (newRowOf today) data in
      let newUniqueIdentifiers := collectIdentifiers data in
      let existingUniqueIdentifiers :=
        getExistingUniqueIdentifiers dailyDetailsSheet today in
      let duplicates :=
        List.filter (hasCell existingUniqueIdentifiers) newUniqueIdentifiers in
      match duplicates with
      | _ :: _ => (Rejected duplicates, dailyDetailsSheet)
      | [] =>
          let lastPopulatedRow := getLastPopulatedRowInColumns dailyDetailsSheet in
          let startRow := (lastPopulatedRow + 1)%nat in
          let numNewRows := length newRows in
          let written := writeRows setAE (startRow - 1) newRows dailyDetailsSheet in
          if (length newUniqueIdentifiers =? numNewRows)%nat then
            (Appended startRow numNewRows true,
             writeRows setV (startRow - 1) newUniqueIdentifiers written)
          else
            (Appended startRow numNewRows false, written)
      end
  end.

(** The log's length: its last populated row. *)
Definition logLength (sheet : Sheet) : nat := getLastPopulatedRowInColumns sheet.

(** Re-deriving the key from the fields stored on a record: the date as
    the code reads it back ([formatDate] for a Date cell) and the three
    text fields. *)
Definition recordKey (row : DetailRow) : option string :=
  match dd_Route row, dd_Name row, dd_VanID row with
  | CStr routeCode, CStr associateName, CStr vanId =>
      Some (deriveKey (cellDateString (dd_Date row)) routeCode associateName vanId)
  | _, _, _ => None
  end.

(** One pipeline run of [mainAllocation] from the allocations on: Results
    sheet, associate names and identifiers, historical append. *)
Definition appendRun (now : Date) (allocations : list Allocation)
    (dailyRoutesObj : list DailyRoute) (dailyDetailsSheet : Sheet)
  : AppendOutcome * Sheet :=
  updateDailyDetails now dailyDetailsSheet
    (updateResultsWithDailyRoutes now (createResultsSheet now allocations)
                                  dailyRoutesObj).

(* ===================================================================== *)
(** ** DeliveryPaceService.js: pace sources *)
(* ===================================================================== *)

Definition slotsMap {A B} (f : A → B) (s : Slots A) : Slots B :=
  mkSlots (f (s140 s)) (f (s340 s)) (f (s540 s)) (f (s740 s)) (f (s940 s)).

Definition slotsZip {A B C} (f : A → B → C) (a : Slots A) (b : Slots B) : Slots C :=
  mkSlots (f (s140 a) (s140 b)) (f (s340 a) (s340 b)) (f (s540 a) (s540 b))
          (f (s740 a) (s740 b)) (f (s940 a) (s940 b)).

(** A pace object: the value under each label; [None] is [null]. *)
Definition PaceData := Slots (option cell).

Definition emptyPace : PaceData := slotsAll None.

(** [paceData.hasOwnProperty(timeKey)] followed by
    [paceData[timeKey] = deliveryCount]: unknown keys change nothing. *)
Definition setSlot (timeKey : string) (v : option cell) (p : PaceData) : PaceData :=
  if String.eqb timeKey "1:40 PM" then mkSlots v (s340 p) (s540 p) (s740 p) (s940 p)
  else if String.eqb timeKey "3:40 PM" then mkSlots (s140 p) v (s540 p) (s740 p) (s940 p)
  else if String.eqb timeKey "5:40 PM" then mkSlots (s140 p) (s340 p) v (s740 p) (s940 p)
  else if String.eqb timeKey "7:40 PM" then mkSlots (s140 p) (s340 p) (s540 p) v (s940 p)
  else if String.eqb timeKey "9:40 PM" then mkSlots (s140 p) (s340 p) (s540 p) (s740 p) v
  else p.

(** [s.replace(needle, "")]: the first occurrence is removed. *)
Definition removeFirst (needle s : string) : string :=
  match String.index 0 needle s with
  | Some i =>
      String.substring 0 i s +:+
      String.substring (i + String.length needle)
                       (String.length s - (i + String.length needle)) s
  | None => s
  end.

(** A row of the "Delivery Pace Data" sheet: columns 1 (Date), 2 (Van ID),
    5 (Reporting Time) and 6 (Total Deliveries). *)
Record FormRow := mkFormRow {
  fr_Date : cell;
  fr_VanID : cell;
  fr_ReportingTime : cell;
  fr_Deliveries : cell
}.

(** [rowDate === date] after a Date has been formatted; a number or a
    boolean is never identical to the date string. *)
Definition rowDateIs (rowDate : cell) (date : string) : bool :=
  match rowDate with
  | CDate d => String.eqb (formatDate d) date
  | CStr s => String.eqb s date
  | _ => false
  end.

(** The loop body of [getDeliveryPaceDataFromForms]. A reporting time that
    is not text is converted with [String(...)]; the text of a number, of a
    boolean or of a Date is none of the five labels, so such a row changes
    nothing. *)
Definition formStep (vanId : cell) (date : string) (paceData : PaceData)
    (row : FormRow) : PaceData :=
  if strictEq (fr_VanID row) vanId && rowDateIs (fr_Date row) date then
    match fr_ReportingTime row with
    | CStr reportingTime =>
        if negb (truthy (CStr reportingTime)) || allSpace reportingTime
        then paceData
        else setSlot (removeFirst " (End of Day)" reportingTime)
                     (Some (fr_Deliveries row)) paceData
    | _ => paceData
    end
  else paceData.

(** The pace object after the loop over the data rows (row 0 is the
    header). *)
Definition collectFormPace (data : list FormRow) (vanId : cell) (date : string)
  : PaceData :=
  fold_left (formStep vanId date) (drop 1 data) emptyPace.

(** [paceData[key] !== null] for some key. *)
Definition hasData (p : PaceData) : bool :=
  existsb (λ v, match v with Some _ => true | None => false end) (slotsToList p).

(** [getDeliveryPaceDataFromForms]: [None] is the returned [null]; the
    sheet argument is [None] when "Delivery Pace Data" does not exist. *)
Definition getDeliveryPaceDataFromForms (dataSheet : option (list FormRow))
    (vanId : cell) (date : string) : option PaceData :=
  match dataSheet with
  | None => None
  | Some data =>
      let paceData := collectFormPace data vanId date in
      if hasData paceData then Some paceData else None
  end.

(** The results of the five [Math.floor(Math.random() * k)] calls of
    [getDeliveryPaceDataFromSource]. *)
Record Draws := mkDraws {
  draw20 : nat; draw30 : nat; draw50 : nat; draw60 : nat; draw70 : nat
}.

(** [getDeliveryPaceDataFromSource]: simulated progressive data. *)
Definition getDeliveryPaceDataFromSource (rnd : Draws) (vanId : cell)
    (date : string) : PaceData :=
  let baseStops := (Z.of_nat (draw20 rnd) + 10)%Z in
  mkSlots (Some (CNum baseStops))
          (Some (CNum (baseStops + Z.of_nat (draw30 rnd) + 20)%Z))
          (Some (CNum (baseStops + Z.of_nat (draw50 rnd) + 40)%Z))
          (Some (CNum (baseStops + Z.of_nat (draw60 rnd) + 60)%Z))
          (Some (CNum (baseStops + Z.of_nat (draw70 rnd) + 80)%Z)).

(** [getDeliveryPaceData] over an arbitrary fallback source: the form data
    when there is any (a returned object always has its five keys), else
    the fallback's answer. *)
Definition getDeliveryPaceDataWith (fallback : cell → string → PaceData)
    (dataSheet : option (list FormRow)) (vanId : cell) (date : string)
  : PaceData :=
  match getDeliveryPaceDataFromForms dataSheet vanId date with
  | Some formData =>
      if (0 <? length (slotsToList formData))%nat then formData
      else fallback vanId date
  | None => fallback vanId date
  end.

Definition getDeliveryPaceData (rnd : Draws) (dataSheet : option (list FormRow))
    (vanId : cell) (date : string) : PaceData :=
  getDeliveryPaceDataWith (getDeliveryPaceDataFromSource rnd) dataSheet vanId date.

(* ===================================================================== *)
(** ** DeliveryPaceService.js: the daily summary *)
(* ===================================================================== *)

Record VanDetail := mkVanDetail {
  vd_vanId : cell;
  vd_driver : cell;
  vd_route : cell;
  vd_pace : Slots (option Z)
}.

Record Summary := mkSummary {
  sm_date : string;
  sm_totalVans : nat;
  sm_vansWithData : nat;
  sm_averagePace : Slots Z;
  sm_vanDetails : list VanDetail
}.

(** The test [value && !isNaN(value)] on a pace cell: a number passes when
    it is not zero, an empty cell does not. *)
Definition countedValue (value : option Z) : option Z :=
  match value with
  | Some z => if truthy (CNum z) then Some z else None
  | None => None
  end.

Definition isSomeb {A} (o : option A) : bool :=
  match o with Some _ => true | None => false end.

(** The running state of the loop of [generateDeliveryPaceSummary]:
    [summary] holds the sums in [averagePace]. *)
Record SummaryAcc := mkSummaryAcc {
  acc_summary : Summary;
  acc_counts : Slots nat
}.

Definition summaryStep (date : string) (acc : SummaryAcc) (row : DetailRow)
  : SummaryAcc :=
  if rowDateIs (dd_Date row) date then
    let summary := acc_summary acc in
    let pace := slotsMap countedValue (dd_Pace row) in
    let vanData := mkVanDetail (dd_VanID row) (dd_Name row) (dd_Route row) pace in
    let sums := slotsZip (λ sum v, (sum + default 0 v)%Z) (sm_averagePace summary) pace in
    let counts := slotsZip (λ n v, if isSomeb v then S n else n) (acc_counts acc) pace in
    let anyData := existsb isSomeb (slotsToList pace) in
    mkSummaryAcc
      (mkSummary (sm_date summary) (S (sm_totalVans summary))
                 (if anyData then S (sm_vansWithData summary)
                  else sm_vansWithData summary)
                 sums
                 (if anyData then sm_vanDetails summary ++ [vanData]
                  else sm_vanDetails summary))
      counts
  else acc.

(** [Math.round(sum / count)] on integers: halves round up. *)
Definition roundDiv (sum : Z) (count : nat) : Z :=
  ((2 * sum + Z.of_nat count) / (2 * Z.of_nat count))%Z.

Definition finishAverage (sum : Z) (count : nat) : Z :=
  if (0 <? count)%nat then roundDiv sum count else sum.

(** [generateDeliveryPaceSummary(date)] on the Daily Details sheet; an
    empty [date] means today. [getRange(2, 1, lastRow - 1, 22)] throws when
    it would have no row. *)
Definition generateDeliveryPaceSummary (now : Date) (dailyDetailsSheet : Sheet)
    (date : string) : result Summary :=
  let date := if truthy (CStr date) then date else getTodayString now in
  let lastRow := getLastPopulatedRowInColumns dailyDetailsSheet in
  if (lastRow <? 2)%nat then
    Throw "The number of rows in the range must be at least 1."
  else
    let data := dataRows dailyDetailsSheet lastRow in
    let init := mkSummaryAcc (mkSummary date 0 0 (slotsAll 0%Z) [])
                             (slotsAll 0%nat) in
    let acc := fold_left (summaryStep date) data init in
    let summary := acc_summary acc in
    Ok (mkSummary (sm_date summary) (sm_totalVans summary)
                  (sm_vansWithData summary)
                  (slotsZip finishAverage (sm_averagePace summary) (acc_counts acc))
                  (sm_vanDetails summary)).

(** The summary as the specification words it (4.6, contract B), over the
    pace records of one date. *)
Module SummarySpec.

Definition reported (label : Slots (option Z) → option Z)
    (records : list (Slots (option Z))) : list Z :=
  omap label records.

Definition average (values : list Z) : Z :=
  match values with
  | [] => 0%Z
  | _ => roundDiv (foldr Z.add 0%Z values) (length values)
  end.

Definition hasCheckpoint (r : Slots (option Z)) : Prop :=
  ∃ z, Some z ∈ slotsToList r.

#[global] Instance hasCheckpoint_dec r : Decision (hasCheckpoint r).
Proof.
  unfold hasCheckpoint.
  destruct (existsb isSomeb (slotsToList r)) eqn:E.
  - left. apply existsb_exists in E as ([z|] & Hin & Hz); [|done].
    exists z. by apply list_elem_of_In.
  - right. intros (z & Hin). apply list_elem_of_In in Hin.
    assert (existsb isSomeb (slotsToList r) = true) as E'.
    { apply existsb_exists. by exists (Some z). }
    congruence.
Defined.

Definition averages (records : list (Slots (option Z))) : Slots Z :=
  slotsOf (λ c, average (reported (slotAt c) records)).

Definition counts (records : list (Slots (option Z))) : Slots nat :=
  slotsOf (λ c, length (reported (slotAt c) records)).

Definition vansWithData (records : list (Slots (option Z))) : nat :=
  length (filter hasCheckpoint records).

Definition totalVans (records : list (Slots (option Z))) : nat :=
  length records.

End SummarySpec.

(** The pace records of a date, as the summary reads them from the log. *)
Definition recordsFor (dailyDetailsSheet : Sheet) (date : string)
  : list (Slots (option Z)) :=
  dd_Pace <$>
    List.filter (λ row, rowDateIs (dd_Date row) date)
      (dataRows dailyDetailsSheet (getLastPopulatedRowInColumns dailyDetailsSheet)).

(** Pace resolution as the specification words it (4.6, contract A): the
    sources are tried in priority order, the first one that yields at least
    one non-null checkpoint wins outright, and when none does the record is
    empty. *)
Module PaceSpec.

Definition PaceSource := cell → string → option PaceData.

Fixpoint resolvePace (sources : list PaceSource) (vanId : cell) (date : string)
  : PaceData :=
  match sources with
  | [] => emptyPace
  | source :: lower =>
      match source vanId date with
      | Some record =>
          if hasData record then record else resolvePace lower vanId date
      | None => resolvePace lower vanId date
      end
  end.

(** The form submissions as a source: what the sheet holds for the van and
    date, all five checkpoints null included. *)
Definition formSource (dataSheet : option (list FormRow)) : PaceSource :=
  λ vanId date, (λ data, collectFormPace data vanId date) <$> dataSheet.

Definition fallbackSource (fallback : cell → string → PaceData) : PaceSource :=
  λ vanId date, Some (fallback vanId date).

End PaceSpec.

(* ===================================================================== *)
(** ** Arrays as shared mutable objects *)
(* ===================================================================== *)

(** The partitioning step of [allocateVehiclesToRoutes] once more, this
    time with arrays living in a store: [filter] and [groupBy] allocate new
    arrays, [push] mutates an array in place, and the object returned by
    [groupBy] maps each key to the location of its bucket. Vehicle objects
    are never written to, so they are kept as values. *)
Module Heap.

Abbreviation loc := nat.
Abbreviation store := (gmap nat (list Vehicle)).

(** The elements of the array at a location. *)
Definition read (l : loc) (h : store) : list Vehicle := default [] (h !! l).

(** A new array, at a location not in use. *)
Definition alloc (xs : list Vehicle) (h : store) : loc * store :=
  let l := fresh (dom h) in (l, <[l := xs]> h).

(** [arr.push(v)], in place. *)
Definition push (l : loc) (v : Vehicle) (h : store) : store :=
  alter (λ xs, xs ++ [v]) l h.

(** [arr.filter(f)]: a new array. *)
Definition filterArray (P : Vehicle → Prop) `{∀ v, Decision (P v)}
    (arr : loc) (h : store) : loc * store :=
  alloc (filter P (read arr h)) h.

(** One iteration of [groupBy] on the grouping object [out]. *)
Definition groupByStep (st : gmap string loc * store) (obj : Vehicle)
  : gmap string loc * store :=
  let '(out, h) := st in
  let key := veh_Type obj in
  match out !! key with
  | None =>
      let '(bucket, h1) := alloc [] h in
      (<[key := bucket]> out, push bucket obj h1)
  | Some bucket => (out, push bucket obj h)
  end.

Definition groupBy (arr : loc) (h : store) : gmap string loc * store :=
  fold_left groupByStep (read arr h) (∅, h).

(** [operationalFleet = fleetObj.filter(...)] followed by
    [fleetGroups = groupBy(operationalFleet, "Type")]. *)
Definition partitionFleet (fleetObj : loc) (h : store)
  : gmap string loc * store :=
  let '(operational, h1) := filterArray isOperational fleetObj h in
  groupBy operational h1.

(** The grouping object with each bucket replaced by its elements. *)
Definition contents (out : gmap string loc) (h : store)
  : gmap string (list Vehicle) :=
  (λ l, read l h) <$> out.

(** [arr.shift()]: the first element is removed in place and returned;
    [None] is the [undefined] of an empty array. *)
Definition shift (arr : loc) (h : store) : option Vehicle * store :=
  match read arr h with
  | [] => (None, h)
  | v :: rest => (Some v, <[arr := rest]> h)
  end.

(** The state of the matcher's loop with [fleetGroups] as an object of
    array references, together with the store. *)
Record AllocState := mkAllocState {
  h_fleetGroups : gmap string loc;
  h_store : store;
  h_allocationResults : list Allocation;
  h_assignedVanIds : list string;
  h_logLines : list string
}.

Definition skip (st : AllocState) (line : string) : AllocState :=
  mkAllocState (h_fleetGroups st) (h_store st) (h_allocationResults st)
               (h_assignedVanIds st) (h_logLines st ++ [line]).

(** The body of the [forEach] of [allocateVehiclesToRoutes], on the store. *)
Definition allocateRoute (st : AllocState) (route : Route) : AllocState :=
  let serviceType := rt_ServiceType route in
  match getVanType serviceType with
  | None => skip st (logNoType route)
  | Some requiredVanType =>
      if negb (truthy (CStr requiredVanType)) then skip st (logNoType route)
      else
        match h_fleetGroups st !! requiredVanType with
        | None => skip st (logNoVehicle requiredVanType route)
        | Some bucket =>
            match shift bucket (h_store st) with
            | (None, _) => skip st (logNoVehicle requiredVanType route)
            | (Some assignedVehicle, h1) =>
                mkAllocState (h_fleetGroups st) h1
                  (h_allocationResults st ++ [makeResult route assignedVehicle])
                  (h_assignedVanIds st ++ [veh_VanID assignedVehicle])
                  (h_logLines st ++ [logAssigned assignedVehicle route])
            end
        end
  end.

(** [allocateVehiclesToRoutes] with the roster array at [fleetObj]. *)
Definition allocateVehiclesToRoutes (dayOfOpsObj : list Route)
    (fleetObj : loc) (h : store) : AllocState :=
  let '(operational, h1) := filterArray isOperational fleetObj h in
  let '(groups, h2) := groupBy operational h1 in
  fold_left allocateRoute dayOfOpsObj
    (mkAllocState groups h2 [] []
       [ "Filtering fleet for operational vehicles (Opnal? Y/N == 'Y')...";
         "Operational fleet count: " +:+ natToString (length (read operational h1)) ]).

End Heap.

(** What the loop of [Heap.groupBy] maintains with respect to the store [h0]
    it started from: buckets are new arrays, distinct keys have distinct
    buckets, the arrays of [h0] are untouched, and the buckets hold what
    the value-level [groupBy] computes. *)
Definition groupInv (h0 : Heap.store) (done_ : list Vehicle)
    (st : gmap string Heap.loc * Heap.store) : Prop :=
  (∀ k l, (st.1) !! k = Some l → (l ∉ dom h0) ∧ (l ∈ dom (st.2))) ∧
  (∀ k1 k2 l, (st.1) !! k1 = Some l → (st.1) !! k2 = Some l → k1 = k2) ∧
  (∀ l, l ∈ dom h0 → (st.2) !! l = h0 !! l) ∧
  Heap.contents (st.1) (st.2) = groupBy done_ veh_Type.

(** The matcher on the store simulates the matcher on values: same
    allocations, assigned ids and log, buckets that hold the queues of the
    value-level state, and no array of the initial store [h0] touched. *)
Definition matchInv (h0 : Heap.store) (hst : Heap.AllocState)
    (st : AllocState) : Prop :=
  (∀ k l, Heap.h_fleetGroups hst !! k = Some l →
          (l ∉ dom h0) ∧ (l ∈ dom (Heap.h_store hst))) ∧
  (∀ k1 k2 l, Heap.h_fleetGroups hst !! k1 = Some l →
              Heap.h_fleetGroups hst !! k2 = Some l → k1 = k2) ∧
  (∀ l, l ∈ dom h0 → Heap.h_store hst !! l = h0 !! l) ∧
  Heap.contents (Heap.h_fleetGroups hst) (Heap.h_store hst) = fleetGroups st ∧
  Heap.h_allocationResults hst = allocationResults st ∧
  Heap.h_assignedVanIds hst = assignedVanIds st ∧
  Heap.h_logLines hst = logLines st.

(* ===================================================================== *)
(** ** Auxiliary predicates and sample data used by the properties *)
(* ===================================================================== *)

Definition agrees (groups : gmap string (list Vehicle))
    (queues : string → list Vehicle) : Prop :=
  ∀ c, default [] (groups !! c) = queues c.

(** Every operational vehicle is, at any time, either assigned or still
    queued; [vs] are the vehicles behind the assigned van ids. *)
Definition conserved (pool : list Vehicle) (st : AllocState) : Prop :=
  ∃ vs : list Vehicle,
    assignedVanIds st = veh_VanID <$> vs ∧
    al_VanID <$> allocationResults st = veh_VanID <$> vs ∧
    vs ++ queued (fleetGroups st) ≡ₚ pool.

Definition sample_routes : list Route :=
  [ mkRoute "CX1" "Standard Parcel - Large Van" "BWAY" "1" "STG.A1";
    mkRoute "CX2" "Standard Parcel - Large Van" "BWAY" "1" "STG.A2" ].

Definition roster_repeating_van : list Vehicle :=
  [ mkVehicle "BW1" "Large" (CStr "Y"); mkVehicle "BW1" "Large" (CStr "Y") ].

Definition sample_roster : list Vehicle :=
  [ mkVehicle "BW1" "Large" (CStr "Y"); mkVehicle "BW2" "Large" (CStr "Y");
    mkVehicle "BW3" "Step Van" (CStr "N") ].


Definition one_van_roster : list Vehicle := [ mkVehicle "BW1" "Large" (CStr "Y") ].

Definition vehicleStatus_header : list cell :=
  CStr <$> [ "Van ID"; "Year"; "Make"; "Model"; "Style"; "Type";
             "License Tag Number"; "License Tag Expiration"; "Color";
             "VIN"; "Location"; "Opnal?" +:+ String "010"%char "Y/N";
             "Issues"; "Grounded"; "Notes" ].

Definition vehicleStatus_rows : list (list cell) :=
  [ CStr <$> [ "BW1"; "2021"; "Ford"; "Transit"; "Cargo"; "Large"; "TAG-1";
               "12/31/2025"; "White"; "VIN-1"; "Lot A"; "Y"; ""; ""; "" ] ].

Definition notDate (v : cell) : Prop :=
  match v with CDate _ => False | _ => True end.

Definition unpopulated (r : DetailRow) : Prop := populatedAE r = false.

Definition rowHas (dateStr : string) (k : cell) (row : DetailRow) : bool :=
  String.eqb (cellDateString (dd_Date row)) dateStr && strictEq (dd_UniqueID row) k.

(** The rows written by a successful append: the block [mid] of the sheet
    receives the new rows in columns A to E, and the identifiers in column
    V when there is one per row. *)
Definition appendedBlock (today : string) (data : list ResultsRow)
    (mid : list DetailRow) : list DetailRow :=
  let rows := zip_with setAE (newRowOf today <$> data) mid in
  if (length (collectIdentifiers data) =? length data)%nat
  then zip_with setV (collectIdentifiers data) rows
  else rows.

Definition detailsHeader : DetailRow :=
  mkDetailRow (CStr "Date") (CStr "Route #") (CStr "Name") (CStr "Asset ID")
              (CStr "Van ID") (slotsAll None) (CStr "Unique Identifier").

Definition feb11 : Date := mkDate 2025 2 11.

Definition resultsRowOf (routeCode vanId associateName : string) (id : cell)
  : ResultsRow :=
  mkResultsRow routeCode "Standard Parcel - Large Van" "BWAY" "1" "STG.A1"
               vanId vanId "Large" (CStr "Y") associateName id.

Definition loggedRow (routeCode associateName vanId : string) : DetailRow :=
  mkDetailRow (CStr "02/11/2025") (CStr routeCode) (CStr associateName) blank
              (CStr vanId) (slotsAll None)
              (CStr (deriveKey "02/11/2025" routeCode associateName vanId)).

Definition log_with_one_record : Sheet := [detailsHeader; loggedRow "CX9" "Marquis Thomas" "BW2"].


Definition batch_missing_identifier : list ResultsRow :=
  [ resultsRowOf "CX9" "BW2" "Marquis Thomas"
                 (CStr "02/11/2025|CX9|Marquis Thomas|BW2");
    resultsRowOf "CX10" "BW3" "Dana Reyes" (CStr "") ].

Definition batch_of_two : list ResultsRow :=
  [ resultsRowOf "CX9" "BW2" "Marquis Thomas"
                 (CStr "02/11/2025|CX9|Marquis Thomas|BW2");
    resultsRowOf "CX10" "BW3" "Dana Reyes" (CStr "02/11/2025|CX10|Dana Reyes|BW3") ].

Definition routes_repeating_code : list Route :=
  [ mkRoute "CX9" "Standard Parcel - Large Van" "BWAY" "1" "STG.A1";
    mkRoute "CX9" "Standard Parcel - Large Van" "BWAY" "1" "STG.A1" ].

Definition sample_dailyRoutes : list DailyRoute :=
  [ mkDailyRoute "CX9" "Marquis Thomas"; mkDailyRoute "CX10" "Dana Reyes" ].

Definition sample_allocations : list Allocation :=
  allocationResults
    (allocateVehiclesToRoutes
       [ mkRoute "CX9" "Standard Parcel - Large Van" "BWAY" "1" "STG.A1";
         mkRoute "CX10" "Standard Parcel - Large Van" "BWAY" "1" "STG.A2" ]
       [ mkVehicle "BW1" "Large" (CStr "Y"); mkVehicle "BW2" "Large" (CStr "Y") ]).

(** The records the loop counts: the pace cells of the rows of the date,
    each cell passed through the test [value && !isNaN(value)]. *)
Definition countedRecords (rows : list DetailRow) (date : string)
  : list (Slots (option Z)) :=
  slotsMap countedValue <$>
    (dd_Pace <$> List.filter (λ row, rowDateIs (dd_Date row) date) rows).

Definition paceRow (vanId : string) (at140 : option Z) : DetailRow :=
  mkDetailRow (CStr "02/11/2025") (CStr "CX9") (CStr "Marquis Thomas") blank
              (CStr vanId) (mkSlots at140 None None None None) blank.

Definition log_with_zero_count : list DetailRow :=
  [detailsHeader; paceRow "BW1" (Some 0%Z); paceRow "BW2" (Some 20%Z)].

Definition mixed_flag_roster : list Vehicle :=
  [ mkVehicle "BW1" "Large" (CStr "Y");
    mkVehicle "BW2" "Step Van" (CStr "Y");
    mkVehicle "BW3" "Large" (CStr "N");
    mkVehicle "BW4" "Large" (CStr "");
    mkVehicle "BW5" "Large" (CBool true);
    mkVehicle "BW6" "Large" (CStr "Y") ].

Definition store_with_roster : Heap.store := {[ 0%nat := mixed_flag_roster ]}.

(* ===================================================================== *)
(** ** Utils.js: sheet data as objects, required columns, file ids *)
(* ===================================================================== *)

(** The text of a cell, as [toString] and the conversion to a property key
    give it. The text of a Date is the platform's ([dateText]). *)
Definition cellText (dateText : Date → string) (v : cell) : string :=
  match v with
  | CStr s => s
  | CNum z => numToString z
  | CBool b => if b then "true" else "false"
  | CDate d => dateText d
  end.

(** A row object: the value under a key is a cell, or [undefined] ([None])
    when the row is shorter than the header. *)
Abbreviation RowObject := (gmap string (option cell)).

(** The inner loop of [convertToObjectArray], from column [col] on:
    [rowObj[headers[col]] = data2D[row][col]]. *)
Fixpoint fillRowObject (dateText : Date → string) (col : nat)
    (headers row : list cell) (rowObj : RowObject) : RowObject :=
  match headers with
  | [] => rowObj
  | key :: rest =>
      fillRowObject dateText (S col) rest row
        (<[cellText dateText key := row !! col]> rowObj)
  end.

(** [convertToObjectArray(data2D)]: nothing below two rows, else one object
    per data row, keyed by the first row. *)
Definition convertToObjectArray (dateText : Date → string)
    (data2D : list (list cell)) : list RowObject :=
  match data2D with
  | headers :: (_ :: _) as rows =>
      (λ row, fillRowObject dateText 0 headers row ∅) <$> rows
  | _ => []
  end.

(** [verifyRequiredColumns(actualHeaders, requiredHeaders, contextLabel)]:
    the required headers that [indexOf] does not find are collected in
    order and reported in one error. *)
Definition missingColumns (actualHeaders : list cell)
    (requiredHeaders : list string) : list string :=
  List.filter (λ req, negb (isSomeb (indexOf actualHeaders (CStr req))))
              requiredHeaders.

Definition verifyRequiredColumns (actualHeaders : list cell)
    (requiredHeaders : list string) (contextLabel : string) : result unit :=
  match missingColumns actualHeaders requiredHeaders with
  | [] => Ok tt
  | missing =>
      Throw ("Missing required columns in " +:+ contextLabel +:+ ": " +:+
             String.concat ", " missing)
  end.

(** [String.prototype.trim] on ASCII white space. *)
Fixpoint trimStart (s : string) : string :=
  match s with
  | EmptyString => EmptyString
  | String c rest => if isSpace c then trimStart rest else s
  end.

Fixpoint trimEnd (s : string) : string :=
  match s with
  | EmptyString => EmptyString
  | String c rest =>
      match trimEnd rest with
      | EmptyString => if isSpace c then EmptyString else String c EmptyString
      | kept => String c kept
      end
  end.

Definition trim (s : string) : string := trimEnd (trimStart s).

(** The character class [[a-zA-Z0-9-_]]. *)
Definition isIdChar (c : ascii) : bool :=
  let n := nat_of_ascii c in
  ((97 <=? n) && (n <=? 122) || (65 <=? n) && (n <=? 90) ||
   (48 <=? n) && (n <=? 57) || (n =? 45) || (n =? 95))%nat.

Fixpoint allIdChars (s : string) : bool :=
  match s with
  | EmptyString => true
  | String c rest => isIdChar c && allIdChars rest
  end.

(** [/^[a-zA-Z0-9-_]{30,}$/]: the whole input is thirty or more id
    characters. *)
Definition isFileId (s : string) : bool :=
  allIdChars s && (30 <=? String.length s)%nat.

(** The longest run of id characters at the start of a string: what the
    greedy group [([a-zA-Z0-9-_]+)] captures when it is not empty. *)
Fixpoint idRun (s : string) : string :=
  match s with
  | EmptyString => EmptyString
  | String c rest => if isIdChar c then String c (idRun rest) else EmptyString
  end.

(** The rest of a string that starts with "/d/". *)
Definition afterSlashD (s : string) : option string :=
  match s with
  | String a (String b (String c tail)) =>
      if Ascii.eqb a "/" && Ascii.eqb b "d" && Ascii.eqb c "/" then Some tail
      else None
  | _ => None
  end.

(** [input.match(/\/d\/([a-zA-Z0-9-_]+)/)]: the leftmost position where
    "/d/" is followed by an id character; the result is group 1. *)
Fixpoint matchUrlId (s : string) : option string :=
  match s with
  | EmptyString => None
  | String c rest =>
      match afterSlashD s with
      | Some tail =>
          match idRun tail with
          | EmptyString => matchUrlId rest
          | id => Some id
          end
      | None => matchUrlId rest
      end
  end.

(** [extractFileId(input)]. *)
Definition extractFileId (input : string) : result string :=
  let input := trim input in
  if isFileId input then Ok input
  else
    match matchUrlId input with
    | Some id => Ok id
    | None =>
        Throw ("Could not parse file ID from the provided input:" +:+
               String "010"%char input)
    end.

(* ===================================================================== *)
(** ** EmailService.js: [escapeHtml] *)
(* ===================================================================== *)

(** The double quote character. *)
Definition dquote : ascii := "034"%char.

(** The replacement of one character: the entity of [map] for the five
    characters of the regular expression's class (ampersand, less-than,
    greater-than, double quote, apostrophe), the character itself
    otherwise. *)
Definition escapeChar (c : ascii) : string :=
  if Ascii.eqb c "&" then "&amp;"
  else if Ascii.eqb c "<" then "&lt;"
  else if Ascii.eqb c ">" then "&gt;"
  else if Ascii.eqb c dquote then "&quot;"
  else if Ascii.eqb c "'" then "&#039;"
  else String c EmptyString.

(** [text.replace(re, m => map[m])], where the global [re] matches each
    character of the class. *)
Fixpoint escapeHtml (text : string) : string :=
  match text with
  | EmptyString => EmptyString
  | String c rest => escapeChar c +:+ escapeHtml rest
  end.

(** The characters that open or close markup or an attribute value. *)
Definition markupChars : list ascii := ["<"; ">"; dquote; "'"]%char.

(** A string without a given character. *)
Fixpoint noChar (x : ascii) (s : string) : bool :=
  match s with
  | EmptyString => true
  | String c rest => negb (Ascii.eqb c x) && noChar x rest
  end.

(* ===================================================================== *)
(** ** The web form (DeliveryPaceForm.html): dates *)
(* ===================================================================== *)

(** [s.split(sep)] for a separator of one character. *)
Fixpoint splitOn (sep : ascii) (s : string) : list string :=
  match s with
  | EmptyString => [EmptyString]
  | String c rest =>
      if Ascii.eqb c sep then EmptyString :: splitOn sep rest
      else match splitOn sep rest with
           | piece :: pieces => String c piece :: pieces
           | [] => [String c EmptyString]
           end
  end.

(** An element of a destructured array inside a template literal: a
    missing element prints as "undefined". *)
Definition templatePart (parts : list string) (i : nat) : string :=
  nth i parts "undefined".

(** [formatDateInput(dateInputValue)]: "yyyy-mm-dd" to "mm/dd/yyyy". *)
Definition formatDateInput (dateInputValue : string) : string :=
  if negb (truthy (CStr dateInputValue)) then ""
  else
    let parts := splitOn "-" dateInputValue in
    templatePart parts 1 +:+ "/" +:+ templatePart parts 2 +:+ "/" +:+
    templatePart parts 0.

(** The value [window.onload] and [resetForm] give the date input:
    [`${year}-${month}-${day}`] with month and day padded to two digits. *)
Definition dateInputValue (today : Date) : string :=
  natToString (dyear today) +:+ "-" +:+ padNum 2 (dmonth today) +:+ "-" +:+
  padNum 2 (dday today).

(** [getTodayFormatted()]. *)
Definition getTodayFormatted (today : Date) : string :=
  padNum 2 (dmonth today) +:+ "/" +:+ padNum 2 (dday today) +:+ "/" +:+
  natToString (dyear today).

(* ===================================================================== *)
(** ** [createRouteAssignmentsFile]: the column order of the export *)
(* ===================================================================== *)

Definition columnOrder : list nat := [4; 10; 6; 7; 1; 5; 2; 8; 9; 3]%nat.

(** One row of [reorderedData]: for each entry of [columnOrder] the
    display value of that (1-based) column, or "" when the row is too
    short. *)
Definition reorderRow (displayRow : list string) : list string :=
  (λ c, let oldColIndex := (c - 1)%nat in
        match displayRow !! oldColIndex with
        | Some v => v
        | None => ""
        end) <$> columnOrder.

Definition reorderColumns (displayData : list (list string)) : list (list string) :=
  reorderRow <$> displayData.

(* ===================================================================== *)
(** ** [updateDailyDetailsValidation]: the list of allowed names *)
(* ===================================================================== *)

(** [arr.indexOf(x) === -1] then [arr.push(x)]. *)
Definition pushIfAbsent (arr : list cell) (x : cell) : list cell :=
  match indexOf arr x with
  | None => arr ++ [x]
  | Some _ => arr
  end.

(** The first loop: the truthy associate names of the new rows, each
    once. *)
Definition newNamesOf (newRows : list NewRow) : list cell :=
  fold_left (λ newNames r,
               let assoc := nr_Name r in
               if truthy assoc then pushIfAbsent newNames assoc else newNames)
            newRows [].

(** [unionAllowed]: the values already allowed, then the new names that
    are not among them. *)
Definition unionAllowed (allowedValues : list cell) (newRows : list NewRow)
  : list cell :=
  fold_left pushIfAbsent (newNamesOf newRows) allowedValues.

(** [updateDailyDetailsValidation]: the value list of the rule set on the
    name column of the new rows; [None] when no rule is set. [rule] is the
    list of the rule on C2, if there is one. *)
Definition updateDailyDetailsValidation (rule : option (list cell))
    (newRows : list NewRow) : option (list cell) :=
  let allowedValues := match rule with Some vs => vs | None => [] end in
  let union := unionAllowed allowedValues newRows in
  if (0 <? length union)%nat then Some union else None.

(* ===================================================================== *)
(** ** FormService.js: the choices offered by the web form *)
(* ===================================================================== *)





(** The loop body of [getTodayRouteChoices]: the [Set] of route codes seen
    and the array of their texts. *)
Definition routeChoiceStep (dateText : Date → string) (today : string)
    (st : list cell * list string) (row : DetailRow) : list cell * list string :=
  if rowDateIs (dd_Date row) today then
    let routeCode := dd_Route row in
    if truthy routeCode && negb (hasCell st.1 routeCode)
    then (setAdd st.1 routeCode, st.2 ++ [cellText dateText routeCode])
    else st
  else st.

(** [arr.sort()] on strings: ascending in the order of their code
    units. *)
Definition sortStrings (arr : list string) : list string :=
  merge_sort String.le arr.

(** [getTodayRouteChoices()], given the values of "Daily Details". *)
Definition getTodayRouteChoices (dateText : Date → string) (now : Date)
    (dailyDetailsSheet : option Sheet) : list string :=
  match dailyDetailsSheet with
  | None => []
  | Some data =>
      let today := formatDate now in
      sortStrings (fold_left (routeChoiceStep dateText today) (drop 1 data) ([], [])).2
  end.

(** An entry of the assignments object: [{route: ..., driver: ...}]. *)
Record Assignment := mkAssignment { as_route : cell; as_driver : cell }.

(** [v || '']. *)
Definition orEmpty (v : cell) : cell := if truthy v then v else CStr "".

(** The loop body of [getTodayAssignments]. *)
Definition assignmentStep (dateText : Date → string) (today : string)
    (assignments : gmap string Assignment) (row : DetailRow)
  : gmap string Assignment :=
  if rowDateIs (dd_Date row) today then
    let vanId := dd_VanID row in
    if truthy vanId
    then <[cellText dateText vanId :=
             mkAssignment (orEmpty (dd_Route row)) (orEmpty (dd_Name row))]> assignments
    else assignments
  else assignments.

(** [getTodayAssignments()]. *)
Definition getTodayAssignments (dateText : Date → string) (now : Date)
    (dailyDetailsSheet : option Sheet) : gmap string Assignment :=
  match dailyDetailsSheet with
  | None => ∅
  | Some data =>
      fold_left (assignmentStep dateText (formatDate now)) (drop 1 data) ∅
  end.

(* ===================================================================== *)
(** ** Writing delivery counts into Daily Details *)
(* ===================================================================== *)

(** Writing the value of one checkpoint, and the five pace cells of a
    row. *)
Definition setSlotAt {A} (c : Checkpoint) (v : A) (p : Slots A) : Slots A :=
  match c with
  | C140 => mkSlots v (s340 p) (s540 p) (s740 p) (s940 p)
  | C340 => mkSlots (s140 p) v (s540 p) (s740 p) (s940 p)
  | C540 => mkSlots (s140 p) (s340 p) v (s740 p) (s940 p)
  | C740 => mkSlots (s140 p) (s340 p) (s540 p) v (s940 p)
  | C940 => mkSlots (s140 p) (s340 p) (s540 p) (s740 p) v
  end.

Definition setPace (pace : Slots (option Z)) (row : DetailRow) : DetailRow :=
  mkDetailRow (dd_Date row) (dd_Route row) (dd_Name row) (dd_AssetID row)
              (dd_VanID row) pace (dd_UniqueID row).

(** A date value made comparable: [if (d instanceof Date) d = formatDate(d)]. *)
Definition formattedDate (v : cell) : cell :=
  match v with
  | CDate d => CStr (formatDate d)
  | _ => v
  end.

(** The form data [updateDailyDetailsFromForm] reads. The delivery count
    is a number. *)
Record FormData := mkFormData {
  fd_Date : cell;            (* 'Date' *)
  fd_VanID : cell;           (* 'Van ID' *)
  fd_ReportingTime : cell;   (* 'Reporting Time' *)
  fd_DeliveryCount : Z       (* 'Total Deliveries Completed' *)
}.

(** The [switch] on the reporting time: the column to update (L to P), or
    none in the default case. *)
Definition reportingColumn (reportingTime : cell) : option Checkpoint :=
  match reportingTime with
  | CStr t =>
      if String.eqb t "1:40 PM" then Some C140
      else if String.eqb t "3:40 PM" then Some C340
      else if String.eqb t "5:40 PM" then Some C540
      else if String.eqb t "7:40 PM" then Some C740
      else if String.eqb t "9:40 PM (End of Day)" then Some C940
      else None
  | _ => None
  end.

(** [rowDate === formDate && rowVanId === vanId]. *)
Definition matchesForm (formData : FormData) (row : DetailRow) : bool :=
  strictEq (formattedDate (dd_Date row)) (formattedDate (fd_Date formData)) &&
  strictEq (dd_VanID row) (fd_VanID formData).

(** What [updateDailyDetailsFromForm] did. *)
Inductive FormUpdate :=
  | FormUpdated (row : nat) (column : Checkpoint)
  | UnknownReportingTime        (* "Unknown reporting time: ..." *)
  | NoMatchingRow.              (* "No matching row found for Van ..." *)

(** A row of the "Delivery Pace Data" sheet with its "Processed" column
    (index 8). Timestamp, driver name, route code and notes are written
    and never read. *)
Record ResponseRow := mkResponseRow {
  rr_form : FormRow;
  rr_Processed : cell
}.

(** The test of [markFormResponseProcessed] on one row. *)
Definition unprocessedMatch (vanId reportingTime : cell) (r : ResponseRow) : bool :=
  strictEq (fr_VanID (rr_form r)) vanId &&
  strictEq (fr_ReportingTime (rr_form r)) reportingTime &&
  negb (strictEq (rr_Processed r) (CStr "Yes")).

Definition markProcessed (r : ResponseRow) : ResponseRow :=
  mkResponseRow (rr_form r) (CStr "Yes").

(** The loop [for (i = data.length - 1; i >= 1; i--)], entered at [i]. *)
Fixpoint markFrom (i : nat) (vanId reportingTime : cell)
    (data : list ResponseRow) : list ResponseRow :=
  match i with
  | O => data
  | S i' =>
      match data !! i with
      | Some r =>
          if unprocessedMatch vanId reportingTime r
          then <[i := markProcessed r]> data
          else markFrom i' vanId reportingTime data
      | None => markFrom i' vanId reportingTime data
      end
  end.

(** [markFormResponseProcessed(formData)] on the values of "Delivery Pace
    Data" ([None] when the sheet does not exist). *)
Definition markFormResponseProcessed (dataSheet : option (list ResponseRow))
    (vanId reportingTime : cell) : option (list ResponseRow) :=
  match dataSheet with
  | None => None
  | Some data => Some (markFrom (length data - 1) vanId reportingTime data)
  end.

(** [updateDailyDetailsFromForm(formData)] on the values of "Daily
    Details" and of "Delivery Pace Data": the first row after the header
    with the form's date and van is the one concerned; after a write the
    response is marked as processed. *)
Definition updateDailyDetailsFromForm (dailyDetailsSheet : Sheet)
    (dataSheet : option (list ResponseRow)) (formData : FormData)
  : FormUpdate * Sheet * option (list ResponseRow) :=
  match list_find (λ row, matchesForm formData row = true)
                  (drop 1 dailyDetailsSheet) with
  | Some (i, row) =>
      match reportingColumn (fd_ReportingTime formData) with
      | Some column =>
          (FormUpdated (i + 2) column,
           <[S i := setPace (setSlotAt column (Some (fd_DeliveryCount formData))
                                       (dd_Pace row)) row]> dailyDetailsSheet,
           markFormResponseProcessed dataSheet (fd_VanID formData)
                                     (fd_ReportingTime formData))
      | None => (UnknownReportingTime, dailyDetailsSheet, dataSheet)
      end
  | None => (NoMatchingRow, dailyDetailsSheet, dataSheet)
  end.

(** The header row [setupDeliveryPaceDataSheet] writes. *)
Definition responseHeader : ResponseRow :=
  mkResponseRow (mkFormRow (CStr "Date") (CStr "Van ID") (CStr "Reporting Time")
                           (CStr "Total Deliveries"))
                (CStr "Processed").

(** What the web form submits. *)
Record Report := mkReport {
  rp_date : cell;
  rp_vanId : cell;
  rp_reportingTime : cell;
  rp_deliveryCount : Z
}.

(** The row [submitDeliveryPaceReport] appends. *)
Definition reportRow (formData : Report) : ResponseRow :=
  mkResponseRow (mkFormRow (rp_date formData) (rp_vanId formData)
                           (rp_reportingTime formData)
                           (CNum (rp_deliveryCount formData)))
                (CStr "No").

(** The sheet the report is appended to: the existing one, or a new one
    with its header row. *)
Definition reportBase (dataSheet : option (list ResponseRow)) : list ResponseRow :=
  match dataSheet with
  | Some data => data
  | None => [responseHeader]
  end.

(** [submitDeliveryPaceReport(formData)]: the result and the two sheets
    afterwards. The response row is appended before Daily Details is looked
    at, so it is stored also when the call throws. *)
Definition submitDeliveryPaceReport (dailyDetailsSheet : option Sheet)
    (dataSheet : option (list ResponseRow)) (formData : Report)
  : result FormUpdate * option Sheet * list ResponseRow :=
  let dataSheet1 := reportBase dataSheet ++ [reportRow formData] in
  match dailyDetailsSheet with
  | None => (Throw "Daily Details sheet not found", None, dataSheet1)
  | Some details =>
      let '(outcome, details1, dataSheet2) :=
        updateDailyDetailsFromForm details (Some dataSheet1)
          (mkFormData (rp_date formData) (rp_vanId formData)
                      (rp_reportingTime formData) (rp_deliveryCount formData)) in
      (Ok outcome, Some details1,
       match dataSheet2 with Some data => data | None => dataSheet1 end)
  end.

(* ===================================================================== *)
(** ** DeliveryPaceService.js: refreshing the pace columns *)
(* ===================================================================== *)

(** [rowDate === date && rowVanId === vanId] for a date given as text. *)
Definition rowIsFor (vanId : cell) (date : string) (row : DetailRow) : bool :=
  rowDateIs (dd_Date row) date && strictEq (dd_VanID row) vanId.

(** [updateDeliveryPaceForVan(vanId, date)]. [getPace] stands for
    [getDeliveryPaceData], with counts that are numbers or [null]. The
    range of the data rows cannot be taken when there is none. *)
Definition updateDeliveryPaceForVan (getPace : cell → string → Slots (option Z))
    (dailyDetailsSheet : Sheet) (vanId : cell) (date : string)
  : result (bool * Sheet) :=
  let lastRow := getLastPopulatedRowInColumns dailyDetailsSheet in
  if (lastRow <? 2)%nat then
    Throw "The number of rows in the range must be at least 1."
  else
    match list_find (λ row, rowIsFor vanId date row = true)
                    (dataRows dailyDetailsSheet lastRow) with
    | Some (i, row) =>
        Ok (true, <[S i := setPace (getPace vanId date) row]> dailyDetailsSheet)
    | None => Ok (false, dailyDetailsSheet)
    end.

(** [batchUpdateDeliveryPace(vanIds, date)]: the number of vans updated. *)
Definition batchUpdateDeliveryPace (getPace : cell → string → Slots (option Z))
    (dailyDetailsSheet : Sheet) (vanIds : list cell) (date : string)
  : result (nat * Sheet) :=
  fold_left
    (λ acc vanId,
       match acc with
       | Ok (updatedCount, sheet) =>
           match updateDeliveryPaceForVan getPace sheet vanId date with
           | Ok (true, sheet') => Ok (S updatedCount, sheet')
           | Ok (false, sheet') => Ok (updatedCount, sheet')
           | Throw msg => Throw msg
           end
       | Throw msg => Throw msg
       end)
    vanIds (Ok (0%nat, dailyDetailsSheet)).

(** An entry of [DELIVERY_TIME_SLOTS]: the time in hundredths of an hour
    (13.67 is 1367) and the checkpoint that both its column (12 to 16) and
    its label denote. *)
Record TimeSlot := mkTimeSlot { ts_time : Z; ts_slot : Checkpoint }.

Definition DELIVERY_TIME_SLOTS : list TimeSlot :=
  [ mkTimeSlot 1367 C140; mkTimeSlot 1567 C340; mkTimeSlot 1767 C540;
    mkTimeSlot 1967 C740; mkTimeSlot 2167 C940 ].

(** [currentTime >= slot.time] with [currentTime = hour + minutes / 60],
    both sides multiplied by 6000. The two numbers are never closer than
    1/300, so the floating-point comparison gives the same answer. *)
Definition slotReached (currentHour currentMinutes : nat) (slot : TimeSlot) : bool :=
  (60 * ts_time slot <=? 100 * (60 * Z.of_nat currentHour + Z.of_nat currentMinutes))%Z.

(** What [updateDeliveryPaceForToday] does to one data row. *)
Definition refreshRow (getPace : cell → string → Slots (option Z))
    (today : string) (currentHour currentMinutes : nat) (row : DetailRow)
  : DetailRow :=
  if rowDateIs (dd_Date row) today && truthy (dd_VanID row) then
    let paceData := getPace (dd_VanID row) today in
    setPace
      (fold_left
         (λ pace slot,
            if slotReached currentHour currentMinutes slot
            then setSlotAt (ts_slot slot) (slotAt (ts_slot slot) paceData) pace
            else pace)
         DELIVERY_TIME_SLOTS (dd_Pace row))
      row
  else row.

(** [updateDeliveryPaceForToday()]: with no data row it returns at once. *)
Definition updateDeliveryPaceForToday (getPace : cell → string → Slots (option Z))
    (now : Date) (currentHour currentMinutes : nat) (dailyDetailsSheet : Sheet)
  : Sheet :=
  let today := getTodayString now in
  let lastRow := getLastPopulatedRowInColumns dailyDetailsSheet in
  if (lastRow <? 2)%nat then dailyDetailsSheet
  else
    take 1 dailyDetailsSheet ++
    (refreshRow getPace today currentHour currentMinutes
       <$> dataRows dailyDetailsSheet lastRow) ++
    drop lastRow dailyDetailsSheet.

(** Minutes after midnight from which a checkpoint column is refreshed. *)
Definition refreshedFrom (c : Checkpoint) : nat :=
  match c with
  | C140 => 821 | C340 => 941 | C540 => 1061 | C740 => 1181 | C940 => 1301
  end%nat.

(** The checkpoint a key of the pace object denotes. *)
Definition checkpointOfLabel (label : string) : option Checkpoint :=
  if String.eqb label "1:40 PM" then Some C140
  else if String.eqb label "3:40 PM" then Some C340
  else if String.eqb label "5:40 PM" then Some C540
  else if String.eqb label "7:40 PM" then Some C740
  else if String.eqb label "9:40 PM" then Some C940
  else None.

(** The reporting times the two forms submit: the option values of the
    web form's select, and the choices of the Google form. *)
Definition webFormTimes : list string :=
  ["1:40 PM"; "3:40 PM"; "5:40 PM"; "7:40 PM"; "9:40 PM"].

Definition googleFormTimes : list string :=
  ["1:40 PM"; "3:40 PM"; "5:40 PM"; "7:40 PM"; "9:40 PM (End of Day)"].

(** The columns of a row that identify it and decide whether it counts as
    populated: A to E and V. *)
Definition keyColumns (row : DetailRow) : list cell :=
  [dd_Date row; dd_Route row; dd_Name row; dd_AssetID row; dd_VanID row;
   dd_UniqueID row].

Definition keysOf (sheet : Sheet) : list (list cell) := keyColumns <$> sheet.

(* ===================================================================== *)
(** ** Config.js: [CONFIG] and [getConfig] *)
(* ===================================================================== *)

(** The values of the [CONFIG] literal: strings, decimal numbers
    ([JNum m d] is m / 10^d), arrays and objects. *)
#[warnings="-register-all"] Inductive jsval :=
  | JStr (s : string)
  | JNum (mantissa : Z) (decimals : nat)
  | JArr (items : list jsval)
  | JObj (fields : list (string * jsval)).

Definition timeSlotEntry (time100 : Z) (column : Z) (label : string) : jsval :=
  JObj [("time", JNum time100 2); ("column", JNum column 0); ("label", JStr label)].

Definition CONFIG : jsval :=
  JObj
    [ ("DAILY_SUMMARY_SPREADSHEET_ID", JStr "1fgwW9tcozBqiB6zrpg7jzactFMkzpRXCcmPs0eUsaqI");
      ("ROUTE_ASSIGNMENTS_FOLDER_ID", JStr "1_WxSEO5uw47pkuSzfMlrQTTU67Jafb2z");
      ("SHEETS",
       JObj [ ("VEHICLE_STATUS", JStr "Vehicle Status");
              ("DAILY_DETAILS", JStr "Daily Details");
              ("DAY_OF_OPS_SOLUTION", JStr "Solution");
              ("DAILY_ROUTES", JStr "Routes") ]);
      ("REQUIRED_COLUMNS",
       JObj [ ("DAY_OF_OPS",
               JArr [JStr "Route Code"; JStr "Service Type"; JStr "DSP";
                     JStr "Wave"; JStr "Staging Location"]);
              ("VEHICLE_STATUS",
               JArr [JStr "Van ID"; JStr "Type";
                     JStr ("Opnal?" +:+ String "010"%char "Y/N")]);
              ("DAILY_ROUTES", JArr [JStr "Route code"; JStr "Driver name"]) ]);
      ("DELIVERY_TIME_SLOTS",
       JArr [ timeSlotEntry 1367 12 "1:40 PM"; timeSlotEntry 1567 13 "3:40 PM";
              timeSlotEntry 1767 14 "5:40 PM"; timeSlotEntry 1967 15 "7:40 PM";
              timeSlotEntry 2167 16 "9:40 PM" ]);
      ("VAN_TYPE_MAPPING",
       JObj [ ("Standard Parcel - Extra Large Van - US", JStr "Extra Large");
              ("Standard Parcel - Large Van", JStr "Large");
              ("Standard Parcel Step Van - US", JStr "Step Van") ]);
      ("TARGET_DSP", JStr "BWAY");
      ("UI",
       JObj [ ("UPLOAD_DIALOG_WIDTH", JNum 550 0);
              ("UPLOAD_DIALOG_HEIGHT", JNum 650 0);
              ("UPDATE_VAN_DIALOG_WIDTH", JNum 400 0);
              ("UPDATE_VAN_DIALOG_HEIGHT", JNum 300 0) ]) ].

(** An array index written as a property key: the canonical text of a
    number below the length. *)
Definition arrayIndex (len : nat) (key : string) : option nat :=
  fst <$> list_find (λ i, natToString i = key) (seq 0 len).

(** [value[key]]: own properties of an object (of a literal without
    repeated keys), elements and length of an array, characters and length
    of a string; [None] is [undefined]. *)
Definition getMember (value : jsval) (key : string) : option jsval :=
  match value with
  | JObj fields => snd <$> (snd <$> list_find (λ kv, kv.1 = key) fields)
  | JArr items =>
      if String.eqb key "length" then Some (JNum (Z.of_nat (length items)) 0)
      else i ← arrayIndex (length items) key; items !! i
  | JStr s =>
      if String.eqb key "length" then Some (JNum (Z.of_nat (String.length s)) 0)
      else i ← arrayIndex (String.length s) key;
           c ← String.get i s; Some (JStr (String c EmptyString))
  | JNum _ _ => None
  end.

(** The loop of [getConfig] over the segments of the key. *)
Fixpoint configWalk (key : string) (keys : list string) (value : jsval)
  : result jsval :=
  match keys with
  | [] => Ok value
  | k :: rest =>
      match getMember value k with
      | Some value' => configWalk key rest value'
      | None => Throw ("Configuration key not found: " +:+ key)
      end
  end.

(** [getConfig(key)]. *)
Definition getConfig (key : string) : result jsval :=
  configWalk key (splitOn "." key) CONFIG.

(** The keys the services pass to [getConfig]. *)
Definition requestedConfigKeys : list string :=
  [ "DAILY_SUMMARY_SPREADSHEET_ID"; "DELIVERY_TIME_SLOTS"; "EMAIL_RECIPIENT";
    "REQUIRED_COLUMNS.DAILY_ROUTES"; "REQUIRED_COLUMNS.DAY_OF_OPS";
    "REQUIRED_COLUMNS.VEHICLE_STATUS"; "ROUTE_ASSIGNMENTS_FOLDER_ID";
    "SHEETS.DAILY_DETAILS"; "SHEETS.DAILY_ROUTES"; "SHEETS.DAY_OF_OPS_SOLUTION";
    "SHEETS.VEHICLE_STATUS"; "TARGET_DSP"; "UI.UPDATE_VAN_DIALOG_HEIGHT";
    "UI.UPDATE_VAN_DIALOG_WIDTH"; "UI.UPLOAD_DIALOG_HEIGHT";
    "UI.UPLOAD_DIALOG_WIDTH"; "VAN_TYPE_MAPPING" ].

(** An array of strings of the configuration as a list. *)
Definition stringsOf (v : jsval) : list string :=
  match v with
  | JArr items => omap (λ x, match x with JStr s => Some s | _ => None end) items
  | _ => []
  end.

(* ===================================================================== *)
(** ** EmailService.js: [sendDeliveryPaceEmail] *)
(* ===================================================================== *)

(** [sendDeliveryPaceEmail(formData)]: whether it succeeded and the mails
    handed to [GmailApp.sendEmail]. [vanIdOf] reads [formData.vanId];
    [compose] stands for the subject, the body and the sending, which may
    throw; [None] is a [formData] that is no object. Every error is
    caught and gives [false]. *)
Definition sendDeliveryPaceEmail {Form Mail : Type}
    (vanIdOf : Form → option cell) (compose : Form → jsval → result Mail)
    (formData : option Form) : bool * list Mail :=
  match formData with
  | None => (false, [])
  | Some fd =>
      if match vanIdOf fd with Some v => truthy v | None => false end then
        match getConfig "EMAIL_RECIPIENT" with
        | Ok recipient =>
            match compose fd recipient with
            | Ok mail => (true, [mail])
            | Throw _ => (false, [])
            end
        | Throw _ => (false, [])
        end
      else (false, [])
  end.

(* ===================================================================== *)
(** ** [mainAllocation]: the routes of the target DSP *)
(* ===================================================================== *)

Definition TARGET_DSP : string := "BWAY".

(** [dayOfOpsObj.filter(r => r["DSP"] === getConfig('TARGET_DSP'))]. *)
Definition targetRoutes (dayOfOpsObj : list Route) : list Route :=
  filter (λ r, rt_DSP r = TARGET_DSP) dayOfOpsObj.

(** The allocation step of [mainAllocation] on the routes read from the
    Day of Ops sheet. *)
Definition allocateTargetRoutes (dayOfOpsObj : list Route)
    (fleetObj : list Vehicle) : AllocState :=
  allocateVehiclesToRoutes (targetRoutes dayOfOpsObj) fleetObj.

Definition REQUIRED_COLUMNS_VEHICLE_STATUS : list string :=
  ["Van ID"; "Type"; "Opnal?" +:+ String "010"%char "Y/N"].


(* ===================================================================== *)
(** * Properties *)
(* ===================================================================== *)

(** ** Truthiness and strict equality *)

Lemma truthy_CStr s : truthy (CStr s) = true ↔ s ≠ "".
Proof.
  simpl. destruct (String.eqb_spec s ""); simpl; split; congruence.
Qed.

Lemma strictEq_true a b : strictEq a b = true → a = b.
Proof.
  destruct a, b; simpl; try discriminate.
  - intros H. apply String.eqb_eq in H. congruence.
  - intros H. apply Z.eqb_eq in H. congruence.
  - intros H. apply Bool.eqb_prop in H. congruence.
Qed.


(** ** groupBy *)

Section GroupBy.
Context {A : Type} (field : A → string).

Lemma groupBy_snoc (arr : list A) (obj : A) :
  groupBy (arr ++ [obj]) field = groupByStep field (groupBy arr field) obj.
Proof. unfold groupBy. by rewrite fold_left_app. Qed.

Lemma groupByStep_lookup out obj k :
  groupByStep field out obj !! k =
    if decide (field obj = k)
    then Some (default [] (out !! k) ++ [obj])
    else out !! k.
Proof.
  unfold groupByStep. rewrite lookup_alter.
  destruct (decide (field obj = k)) as [->|Hne].
  - destruct (out !! k) as [bucket|] eqn:Hk; simpl.
    + by rewrite Hk.
    + by rewrite lookup_insert_eq.
  - destruct (out !! field obj); [done|]. by rewrite lookup_insert_ne.
Qed.

(** Stable grouping: the bucket of a key is the sub-list of the objects
    carrying that key, in their original order; keys nobody carries have
    no bucket. *)
Lemma groupBy_lookup (arr : list A) (k : string) :
  groupBy arr field !! k =
    match filter (λ x, field x = k) arr with
    | [] => None
    | bucket => Some bucket
    end.
Proof.
  induction arr as [|obj arr IH] using rev_ind.
  - unfold groupBy. simpl. by rewrite lookup_empty.
  - rewrite groupBy_snoc, groupByStep_lookup, filter_app, IH.
    rewrite filter_cons, filter_nil.
    destruct (decide (field obj = k)) as [Hk|Hk].
    + destruct (filter _ arr) as [|y ys]; done.
    + by rewrite app_nil_r.
Qed.

Lemma groupBy_default (arr : list A) (k : string) :
  default [] (groupBy arr field !! k) = filter (λ x, field x = k) arr.
Proof. rewrite groupBy_lookup. by destruct (filter _ arr). Qed.
End GroupBy.

(** ** The type mapper *)

Lemma VAN_TYPE_MAPPING_truthy s t :
  VAN_TYPE_MAPPING !! s = Some t → truthy (CStr t) = true.
Proof.
  unfold VAN_TYPE_MAPPING. intros H.
  repeat (apply lookup_insert_Some in H as [[_ <-]|[_ H]]; [done|]).
  by apply lookup_singleton_Some in H as [_ <-].
Qed.

Lemma getVanType_resolveCategory serviceType :
  getVanType serviceType = MatcherSpec.resolveCategory serviceType.
Proof.
  unfold getVanType, getVanTypeIn, MatcherSpec.resolveCategory.
  destruct (VAN_TYPE_MAPPING !! serviceType) as [t|] eqn:Hm.
  - by rewrite (VAN_TYPE_MAPPING_truthy _ _ Hm).
  - destruct (truthy (CStr serviceType)) eqn:Ht; [done|].
    simpl in Ht. destruct (String.eqb_spec serviceType ""); [subst|done].
    reflexivity.
Qed.

Lemma getVanType_truthy serviceType t :
  getVanType serviceType = Some t → truthy (CStr t) = true.
Proof.
  unfold getVanType, getVanTypeIn.
  destruct (VAN_TYPE_MAPPING !! serviceType) as [t'|] eqn:Hm.
  - rewrite (VAN_TYPE_MAPPING_truthy _ _ Hm).
    by intros [= <-]; eapply VAN_TYPE_MAPPING_truthy.
  - destruct (_ && _); [by intros [= <-]|done].
Qed.

(** ** One iteration of the matcher *)

Lemma allocateRoute_unresolved st route :
  MatcherSpec.resolveCategory (rt_ServiceType route) = None →
  allocateRoute st route =
    mkAllocState (fleetGroups st) (allocationResults st) (assignedVanIds st)
                 (logLines st ++ [logNoType route]).
Proof.
  intros H. unfold allocateRoute.
  by rewrite getVanType_resolveCategory, H.
Qed.

Lemma allocateRoute_empty st route c :
  MatcherSpec.resolveCategory (rt_ServiceType route) = Some c →
  default [] (fleetGroups st !! c) = [] →
  allocateRoute st route =
    mkAllocState (fleetGroups st) (allocationResults st) (assignedVanIds st)
                 (logLines st ++ [logNoVehicle c route]).
Proof.
  intros H Hq. unfold allocateRoute.
  rewrite getVanType_resolveCategory, H.
  rewrite <- getVanType_resolveCategory in H.
  rewrite (getVanType_truthy _ _ H). simpl.
  destruct (fleetGroups st !! c) as [[|v q]|]; simpl in *; done.
Qed.

Lemma allocateRoute_pop st route c v q :
  MatcherSpec.resolveCategory (rt_ServiceType route) = Some c →
  fleetGroups st !! c = Some (v :: q) →
  allocateRoute st route =
    mkAllocState (<[c := q]> (fleetGroups st))
                 (allocationResults st ++ [makeResult route v])
                 (assignedVanIds st ++ [veh_VanID v])
                 (logLines st ++ [logAssigned v route]).
Proof.
  intros H Hq. unfold allocateRoute.
  rewrite getVanType_resolveCategory, H.
  rewrite <- getVanType_resolveCategory in H.
  rewrite (getVanType_truthy _ _ H). simpl.
  by rewrite Hq.
Qed.

(** ** Refinement of the specification's matcher *)

Lemma agrees_pop groups queues c v q :
  agrees groups queues → groups !! c = Some (v :: q) →
  agrees (<[c := q]> groups) (MatcherSpec.setQueue queues c q).
Proof.
  intros Hag Hc c'. unfold MatcherSpec.setQueue.
  destruct (decide (c' = c)) as [->|Hne].
  - by rewrite lookup_insert_eq.
  - rewrite lookup_insert_ne by done. apply Hag.
Qed.

Lemma agrees_partition fleetObj :
  agrees (groupBy (operationalFleet fleetObj) veh_Type)
         (MatcherSpec.partition fleetObj).
Proof. intros c. by rewrite groupBy_default. Qed.

Lemma fold_allocate_results routes st queues :
  agrees (fleetGroups st) queues →
  allocationResults (fold_left allocateRoute routes st) =
    allocationResults st ++ (MatcherSpec.matchRoutes routes queues).1.
Proof.
  revert st queues.
  induction routes as [|route routes IH]; intros st queues Hag; simpl.
  - by rewrite app_nil_r.
  - destruct (MatcherSpec.resolveCategory (rt_ServiceType route)) as [c|] eqn:Hc.
    + pose proof (Hag c) as Hqc.
      destruct (queues c) as [|v q] eqn:Hq.
      * rewrite (allocateRoute_empty _ _ _ Hc Hqc).
        rewrite (IH _ queues) by done. simpl.
        by destruct (MatcherSpec.matchRoutes routes queues).
      * destruct (fleetGroups st !! c) as [bucket|] eqn:Hg; simpl in Hqc; [|done].
        subst bucket.
        rewrite (allocateRoute_pop _ _ _ _ _ Hc Hg).
        rewrite (IH _ (MatcherSpec.setQueue queues c q)); simpl.
        -- destruct (MatcherSpec.matchRoutes routes _). simpl.
           by rewrite <- app_assoc.
        -- by apply (agrees_pop _ _ _ v).
    + rewrite (allocateRoute_unresolved _ _ Hc).
      rewrite (IH _ queues) by done. simpl.
      by destruct (MatcherSpec.matchRoutes routes queues).
Qed.

(** ** FIFO in closed form *)






(** ** Conservation of vehicles *)

Lemma queued_insert_Some groups c old new :
  groups !! c = Some old →
  queued (<[c := new]> groups) ++ old ≡ₚ new ++ queued groups.
Proof.
  intros Hc. unfold queued.
  rewrite <- (map_to_list_delete groups c old Hc).
  rewrite <- (insert_delete_eq groups).
  rewrite map_to_list_insert by apply lookup_delete_eq.
  simpl. rewrite <- !app_assoc.
  apply Permutation_app_head.
  rewrite (Permutation_app_comm old). done.
Qed.

Lemma queued_insert_None groups c new :
  groups !! c = None →
  queued (<[c := new]> groups) ≡ₚ new ++ queued groups.
Proof.
  intros Hc. unfold queued. by rewrite map_to_list_insert by done.
Qed.

Lemma queued_groupByStep out (obj : Vehicle) :
  queued (groupByStep veh_Type out obj) ≡ₚ obj :: queued out.
Proof.
  unfold groupByStep.
  destruct (out !! veh_Type obj) as [bucket|] eqn:Hk.
  - rewrite (alter_alt_Some _ _ _ _ Hk).
    apply (Permutation_app_inv_r bucket).
    rewrite (queued_insert_Some _ _ _ _ Hk).
    rewrite <- app_assoc. simpl.
    rewrite (Permutation_app_comm bucket). simpl.
    rewrite (Permutation_app_comm _ bucket). done.
  - rewrite (alter_alt_Some _ (<[veh_Type obj:=[]]> out) _ [])
      by apply lookup_insert_eq.
    rewrite insert_insert_eq. simpl.
    by rewrite queued_insert_None.
Qed.

Lemma queued_groupBy (arr : list Vehicle) :
  queued (groupBy arr veh_Type) ≡ₚ arr.
Proof.
  induction arr as [|obj arr IH] using rev_ind.
  - unfold groupBy, queued. simpl. by rewrite map_to_list_empty.
  - rewrite groupBy_snoc, queued_groupByStep, IH.
    by rewrite Permutation_app_comm.
Qed.

Lemma conserved_init fleetObj :
  conserved (operationalFleet fleetObj) (allocInit fleetObj).
Proof.
  exists []. simpl. split_and!; [done..|]. apply queued_groupBy.
Qed.

Lemma conserved_step pool st route :
  conserved pool st → conserved pool (allocateRoute st route).
Proof.
  intros (vs & Hids & Hres & Hperm).
  destruct (MatcherSpec.resolveCategory (rt_ServiceType route)) as [c|] eqn:Hc.
  - destruct (fleetGroups st !! c) as [[|v q]|] eqn:Hg.
    + rewrite (allocateRoute_empty _ _ c) by (by rewrite ?Hg).
      by exists vs.
    + rewrite (allocateRoute_pop _ _ _ _ _ Hc Hg).
      exists (vs ++ [v]). simpl. split_and!.
      * by rewrite fmap_app, Hids.
      * by rewrite !fmap_app, Hres.
      * rewrite <- Hperm, <- app_assoc. apply Permutation_app_head.
        pose proof (queued_insert_Some _ _ _ q Hg) as Hp.
        apply (Permutation_app_inv_r q). simpl.
        rewrite Permutation_middle, Hp. apply Permutation_app_comm.
    + rewrite (allocateRoute_empty _ _ c) by (by rewrite ?Hg).
      by exists vs.
  - rewrite (allocateRoute_unresolved _ _ Hc). by exists vs.
Qed.

Lemma conserved_fold pool routes st :
  conserved pool st → conserved pool (fold_left allocateRoute routes st).
Proof.
  revert st. induction routes as [|r routes IH]; intros st H; [done|].
  simpl. apply IH. by apply conserved_step.
Qed.

Lemma allocate_conserved routes fleetObj :
  conserved (operationalFleet fleetObj) (allocateVehiclesToRoutes routes fleetObj).
Proof. apply conserved_fold, conserved_init. Qed.

Lemma assigned_vans_NoDup routes fleetObj :
  NoDup (veh_VanID <$> operationalFleet fleetObj) →
  NoDup (assignedVanIds (allocateVehiclesToRoutes routes fleetObj)) ∧
  NoDup (al_VanID <$> allocationResults (allocateVehiclesToRoutes routes fleetObj)).
Proof.
  intros Hnd.
  destruct (allocate_conserved routes fleetObj) as (vs & -> & -> & Hperm).
  rewrite <- Hperm, fmap_app in Hnd.
  apply NoDup_app in Hnd as [Hvs _]. done.
Qed.

Lemma matchRoutes_codes_sublist routes queues :
  al_RouteCode <$> (MatcherSpec.matchRoutes routes queues).1
    `sublist_of` rt_RouteCode <$> routes.
Proof.
  revert queues. induction routes as [|r routes IH]; intros queues; simpl.
  - constructor.
  - destruct (MatcherSpec.resolveCategory (rt_ServiceType r)) as [c|].
    + destruct (queues c) as [|v q].
      * specialize (IH queues).
        destruct (MatcherSpec.matchRoutes routes queues). by constructor.
      * specialize (IH (MatcherSpec.setQueue queues c q)).
        destruct (MatcherSpec.matchRoutes routes _). simpl. by constructor.
    + specialize (IH queues).
      destruct (MatcherSpec.matchRoutes routes queues). by constructor.
Qed.

Lemma allocate_results_spec routes fleetObj :
  allocationResults (allocateVehiclesToRoutes routes fleetObj) =
    (MatcherSpec.matchRoutes routes (MatcherSpec.partition fleetObj)).1.
Proof.
  unfold allocateVehiclesToRoutes.
  rewrite (fold_allocate_results _ _ (MatcherSpec.partition fleetObj)).
  - done.
  - apply agrees_partition.
Qed.

Lemma allocated_routes_NoDup routes fleetObj :
  NoDup (rt_RouteCode <$> routes) →
  NoDup (al_RouteCode <$> allocationResults (allocateVehiclesToRoutes routes fleetObj)).
Proof.
  intros Hnd. rewrite allocate_results_spec.
  eapply sublist_NoDup; [exact Hnd|apply matchRoutes_codes_sublist].
Qed.



(** ** Logging of unmatched routes *)





(** ** extractUnassignedRows *)

Lemma extractUnassignedRows_Ok headerRow rows assigned vanIdCol opCol :
  indexOf headerRow (CStr "Van ID") = Some vanIdCol →
  indexOf headerRow (CStr ("Opnal?" +:+ String "010"%char "Y/N")) = Some opCol →
  extractUnassignedRows (headerRow :: rows) assigned =
    Ok (take 15 headerRow ::
        (take 15 <$> List.filter (unassignedRow 15 vanIdCol opCol assigned) rows)).
Proof. intros H1 H2. unfold extractUnassignedRows. by rewrite H1, H2. Qed.



(* ------------------------------------------------------------------ *)
(** ** C4: no double-booking *)

(** C4, as stated, fails: a roster that lists van "BW1" on two operational
    rows makes the matcher allocate "BW1" to two routes of one run. *)
Lemma double_booking_on_repeated_roster_row :
  ¬ (NoDup (al_VanID <$> allocationResults
              (allocateVehiclesToRoutes sample_routes roster_repeating_van)) ∧
     NoDup (al_RouteCode <$> allocationResults
              (allocateVehiclesToRoutes sample_routes roster_repeating_van))).
Proof.
  intros [Hvans _]. vm_compute in Hvans.
  apply NoDup_cons in Hvans as [Hnotin _]. apply Hnotin. constructor.
Qed.

(** C4 (amended): when the operational rows of the roster carry pairwise
    distinct van ids and the input routes carry pairwise distinct route
    codes, the allocations of a run contain no van id twice and no route
    code twice (and neither does the list of assigned van ids). *)
Theorem no_double_booking (routes : list Route) (fleetObj : list Vehicle) :
  NoDup (veh_VanID <$> operationalFleet fleetObj) →
  NoDup (rt_RouteCode <$> routes) →
  NoDup (al_VanID <$> allocationResults (allocateVehiclesToRoutes routes fleetObj)) ∧
  NoDup (al_RouteCode <$> allocationResults (allocateVehiclesToRoutes routes fleetObj)) ∧
  NoDup (assignedVanIds (allocateVehiclesToRoutes routes fleetObj)).
Proof.
  intros Hvans Hroutes.
  destruct (assigned_vans_NoDup routes fleetObj Hvans) as [Hids Hal].
  split_and!; [done| |done].
  by apply allocated_routes_NoDup.
Qed.

(** The amended C4 at a roster of three distinct vans and two distinct
    routes. *)
Lemma no_double_booking_witness :
  NoDup (al_VanID <$> allocationResults
           (allocateVehiclesToRoutes sample_routes sample_roster)) ∧
  NoDup (al_RouteCode <$> allocationResults
           (allocateVehiclesToRoutes sample_routes sample_roster)) ∧
  NoDup (assignedVanIds (allocateVehiclesToRoutes sample_routes sample_roster)).
Proof.
  apply (no_double_booking sample_routes sample_roster).
  - apply (bool_decide_unpack _). vm_compute. exact I.
  - apply (bool_decide_unpack _). vm_compute. exact I.
Defined.

(* ------------------------------------------------------------------ *)
(** ** C5: the matcher algorithm *)


(* ------------------------------------------------------------------ *)
(** ** C6: failure semantics of the matcher *)





(** ** The [Set] of identifiers *)

Lemma strictEq_refl v : notDate v → strictEq v v = true.
Proof.
  destruct v; simpl; try done; intros _.
  - apply String.eqb_refl.
  - apply Z.eqb_refl.
  - by destruct b.
Qed.

Lemma strictEq_trans a b c :
  strictEq a b = true → strictEq b c = true → strictEq a c = true.
Proof. intros H1 H2. apply strictEq_true in H1. by subst. Qed.

Lemma strictEq_truthy a b : strictEq a b = true → truthy a = truthy b.
Proof. intros H. apply strictEq_true in H. by subst. Qed.

Lemma hasCell_app xs ys k : hasCell (xs ++ ys) k = hasCell xs k || hasCell ys k.
Proof. unfold hasCell. apply existsb_app. Qed.

Lemma hasCell_setAdd s x k :
  hasCell (setAdd s x) k = hasCell s k || strictEq x k.
Proof.
  unfold setAdd. destruct (hasCell s x) eqn:Hx.
  - destruct (strictEq x k) eqn:Hk; [|by rewrite orb_false_r].
    rewrite orb_true_r. unfold hasCell in *.
    apply existsb_exists in Hx as (y & Hin & Hy).
    apply existsb_exists. exists y. split; [done|].
    by eapply strictEq_trans.
  - rewrite hasCell_app. simpl. by rewrite orb_false_r.
Qed.

Lemma hasCell_In s k : hasCell s k = true → k ∈ s.
Proof.
  unfold hasCell. intros (y & Hin & Hy)%existsb_exists.
  apply strictEq_true in Hy. subst. by apply list_elem_of_In.
Qed.

Lemma In_hasCell s k : notDate k → k ∈ s → hasCell s k = true.
Proof.
  intros Hk Hin. apply existsb_exists. exists k.
  split; [by apply list_elem_of_In|by apply strictEq_refl].
Qed.

(** The identifiers collected from the results rows: a candidate is the
    truthy identifier of some row. *)
Lemma collectIdentifiers_fold data ids k :
  hasCell (fold_left
             (λ ids r, if truthy (res_UniqueIdentifier r)
                       then setAdd ids (res_UniqueIdentifier r) else ids)
             data ids) k =
  hasCell ids k ||
  existsb (λ r, truthy (res_UniqueIdentifier r) && strictEq (res_UniqueIdentifier r) k) data.
Proof.
  revert ids. induction data as [|r data IH]; intros ids; simpl.
  - by rewrite orb_false_r.
  - rewrite IH. destruct (truthy (res_UniqueIdentifier r)); simpl.
    + by rewrite hasCell_setAdd, orb_assoc.
    + done.
Qed.

Lemma collectIdentifiers_truthy_fold data ids :
  Forall (λ k, truthy k = true) ids →
  Forall (λ k, truthy k = true)
    (fold_left
       (λ ids r, if truthy (res_UniqueIdentifier r)
                 then setAdd ids (res_UniqueIdentifier r) else ids)
       data ids).
Proof.
  revert ids. induction data as [|r data IH]; intros ids Hids; simpl; [done|].
  apply IH. destruct (truthy (res_UniqueIdentifier r)) eqn:Ht; [|done].
  unfold setAdd. destruct (hasCell ids _); [done|].
  apply Forall_app_2; [done|]. by constructor.
Qed.

Lemma collectIdentifiers_truthy data :
  Forall (λ k, truthy k = true) (collectIdentifiers data).
Proof. by apply collectIdentifiers_truthy_fold. Qed.

(** With one truthy, non-Date identifier per row and no identifier shared
    by two rows, the set is the column of identifiers, in row order. *)
Lemma collectIdentifiers_distinct_fold data ids :
  Forall (λ r, truthy (res_UniqueIdentifier r) = true ∧
               notDate (res_UniqueIdentifier r)) data →
  NoDup (ids ++ (res_UniqueIdentifier <$> data)) →
  fold_left
    (λ ids r, if truthy (res_UniqueIdentifier r)
              then setAdd ids (res_UniqueIdentifier r) else ids)
    data ids = ids ++ (res_UniqueIdentifier <$> data).
Proof.
  revert ids. induction data as [|r data IH]; intros ids Hok Hnd; simpl.
  - by rewrite app_nil_r.
  - apply Forall_cons in Hok as [[Ht Hd] Hok]. rewrite Ht.
    assert (hasCell ids (res_UniqueIdentifier r) = false) as Hfresh.
    { apply not_true_is_false. intros Hin%hasCell_In.
      simpl in Hnd. apply NoDup_app in Hnd as (_ & Hdisj & _).
      apply (Hdisj _ Hin). constructor. }
    unfold setAdd. rewrite Hfresh.
    rewrite IH; [by rewrite <- app_assoc|done|].
    by rewrite <- app_assoc.
Qed.

Lemma collectIdentifiers_distinct data :
  Forall (λ r, truthy (res_UniqueIdentifier r) = true ∧
               notDate (res_UniqueIdentifier r)) data →
  NoDup (res_UniqueIdentifier <$> data) →
  collectIdentifiers data = res_UniqueIdentifier <$> data.
Proof.
  intros Hok Hnd. unfold collectIdentifiers.
  by rewrite collectIdentifiers_distinct_fold.
Qed.

(** ** The last populated row *)

Lemma lastPopulatedFrom_app i xs ys acc :
  lastPopulatedFrom i (xs ++ ys) acc =
    lastPopulatedFrom (i + length xs) ys (lastPopulatedFrom i xs acc).
Proof.
  revert i acc. induction xs as [|x xs IH]; intros i acc; simpl.
  - by rewrite Nat.add_0_r.
  - rewrite IH. f_equal. lia.
Qed.

Lemma lastPopulatedFrom_unpopulated i ys acc :
  Forall unpopulated ys → lastPopulatedFrom i ys acc = acc.
Proof.
  revert i acc. induction ys as [|y ys IH]; intros i acc Hun; simpl; [done|].
  apply Forall_cons in Hun as [Hy Hys]. unfold unpopulated in Hy.
  rewrite Hy. by apply IH.
Qed.

Lemma lastPopulatedFrom_snoc i xs r acc :
  populatedAE r = true →
  lastPopulatedFrom i (xs ++ [r]) acc = (i + length xs + 1)%nat.
Proof. intros Hr. rewrite lastPopulatedFrom_app. simpl. by rewrite Hr. Qed.

Lemma lastPopulatedFrom_bounds i xs acc :
  (acc ≤ i)%nat →
  (acc ≤ lastPopulatedFrom i xs acc ≤ i + length xs)%nat.
Proof.
  revert i acc. induction xs as [|x xs IH]; intros i acc Hacc; simpl; [lia|].
  destruct (populatedAE x).
  - specialize (IH (S i) (i + 1)%nat). lia.
  - specialize (IH (S i) acc). lia.
Qed.

Lemma getLast_le sheet :
  (getLastPopulatedRowInColumns sheet ≤ length sheet)%nat.
Proof.
  unfold getLastPopulatedRowInColumns.
  pose proof (lastPopulatedFrom_bounds 0 sheet 0). lia.
Qed.

Lemma getLast_snoc sheet r :
  getLastPopulatedRowInColumns (sheet ++ [r]) =
    if populatedAE r then S (length sheet)
    else getLastPopulatedRowInColumns sheet.
Proof.
  unfold getLastPopulatedRowInColumns. rewrite lastPopulatedFrom_app. simpl.
  destruct (populatedAE r); [lia|done].
Qed.

Lemma getLast_tail sheet :
  Forall unpopulated (drop (getLastPopulatedRowInColumns sheet) sheet).
Proof.
  induction sheet as [|r sheet IH] using rev_ind; [constructor|].
  rewrite getLast_snoc. destruct (populatedAE r) eqn:Hr.
  - rewrite drop_ge by (rewrite length_app; simpl; lia). constructor.
  - rewrite drop_app_le by apply getLast_le.
    apply Forall_app_2; [done|]. apply Forall_singleton. exact Hr.
Qed.

Lemma getLast_app_populated pre mid post :
  mid ≠ [] → Forall (λ r, populatedAE r = true) mid → Forall unpopulated post →
  getLastPopulatedRowInColumns (pre ++ mid ++ post) = (length pre + length mid)%nat.
Proof.
  intros Hne Hmid Hpost. unfold getLastPopulatedRowInColumns.
  rewrite !lastPopulatedFrom_app.
  rewrite lastPopulatedFrom_unpopulated by done.
  destruct mid as [|m mid _] using rev_ind; [done|].
  rewrite Forall_app, Forall_singleton in Hmid. destruct Hmid as [_ Hm].
  rewrite (lastPopulatedFrom_snoc _ _ _ _ Hm). rewrite length_app. simpl. lia.
Qed.

Lemma getLast_app_unpopulated pre post :
  Forall unpopulated post →
  getLastPopulatedRowInColumns (pre ++ post) = getLastPopulatedRowInColumns pre.
Proof.
  intros Hpost. unfold getLastPopulatedRowInColumns.
  rewrite lastPopulatedFrom_app. by rewrite lastPopulatedFrom_unpopulated.
Qed.

(** ** Writing a block of rows *)

Lemma blankRow_unpopulated : unpopulated blankRow.
Proof. reflexivity. Qed.

Lemma padTo_ge n (sheet : Sheet) : (n ≤ length sheet)%nat → padTo n sheet = sheet.
Proof.
  intros H. unfold padTo. replace (n - length sheet)%nat with 0%nat by lia.
  simpl. apply app_nil_r.
Qed.

Lemma padTo_length n (sheet : Sheet) : (n ≤ length (padTo n sheet))%nat.
Proof. unfold padTo. rewrite length_app, length_replicate. lia. Qed.

Lemma nth_padTo n (sheet : Sheet) j :
  nth j (padTo n sheet) blankRow = nth j sheet blankRow.
Proof.
  unfold padTo. destruct (decide (j < length sheet)%nat) as [Hlt|Hge].
  - by rewrite app_nth1.
  - rewrite app_nth2 by lia. rewrite (nth_overflow sheet) by lia.
    rewrite !nth_lookup.
    destruct (replicate _ blankRow !! _) as [r|] eqn:Hr; [|done].
    by apply lookup_replicate in Hr as [-> _].
Qed.

Lemma writeRows_blocks {A} (f : A → DetailRow → DetailRow)
    (pre mid post : list DetailRow) (vals : list A) :
  length mid = length vals →
  writeRows f (length pre) vals (pre ++ mid ++ post) =
    pre ++ zip_with f vals mid ++ post.
Proof.
  intros Hlen. unfold writeRows.
  rewrite padTo_ge by (rewrite !length_app; lia).
  rewrite <- Hlen, <- drop_drop.
  by rewrite take_app_length, !drop_app_length, take_app_length.
Qed.

Lemma writeRows_padded {A} (f : A → DetailRow → DetailRow) at_ (vals : list A) sheet :
  writeRows f at_ vals (padTo (at_ + length vals) sheet) =
    writeRows f at_ vals sheet.
Proof.
  unfold writeRows. by rewrite (padTo_ge _ (padTo _ _)) by apply padTo_length.
Qed.

(** The sheet, grown to hold [n] rows after its last populated row, splits
    into the rows up to the last populated one, the [n] rows of the block
    and the rest; block and rest are empty in columns A to E. *)
Lemma sheet_blocks (sheet : Sheet) (n : nat) :
  ∃ mid post,
    padTo (getLastPopulatedRowInColumns sheet + n) sheet =
      take (getLastPopulatedRowInColumns sheet) sheet ++ mid ++ post ∧
    length mid = n ∧ Forall unpopulated mid ∧ Forall unpopulated post.
Proof.
  set (L := getLastPopulatedRowInColumns sheet).
  pose proof (getLast_le sheet) as HL. fold L in HL.
  set (T := drop L (padTo (L + n) sheet)).
  assert (Forall unpopulated T) as HT.
  { unfold T, padTo. rewrite drop_app_le by done.
    apply Forall_app_2; [apply getLast_tail|].
    apply Forall_replicate, blankRow_unpopulated. }
  assert (n ≤ length T)%nat as HlenT.
  { unfold T. rewrite length_drop. pose proof (padTo_length (L + n) sheet). lia. }
  exists (take n T), (drop n T). split_and!.
  - rewrite take_drop. unfold T.
    rewrite <- (take_drop L (padTo (L + n) sheet)) at 1.
    f_equal. unfold padTo. by rewrite take_app_le.
  - rewrite length_take. lia.
  - by apply Forall_take.
  - by apply Forall_drop.
Qed.

Lemma take_getLast_length sheet :
  length (take (getLastPopulatedRowInColumns sheet) sheet) =
    getLastPopulatedRowInColumns sheet.
Proof. rewrite length_take. pose proof (getLast_le sheet). lia. Qed.

Lemma writeRows_at_last {A} (f : A → DetailRow → DetailRow) (vals : list A)
    (sheet : Sheet) mid post :
  padTo (getLastPopulatedRowInColumns sheet + length vals) sheet =
    take (getLastPopulatedRowInColumns sheet) sheet ++ mid ++ post →
  length mid = length vals →
  writeRows f (getLastPopulatedRowInColumns sheet) vals sheet =
    take (getLastPopulatedRowInColumns sheet) sheet ++ zip_with f vals mid ++ post.
Proof.
  intros Hpad Hlen.
  rewrite <- writeRows_padded, Hpad.
  rewrite <- (take_getLast_length sheet) at 1.
  by apply writeRows_blocks.
Qed.

(** ** The identifiers already in the log *)

Lemma existing_fold dateStr rows ids k :
  hasCell (fold_left
             (λ uniqueIdentifiers row,
                if String.eqb (cellDateString (dd_Date row)) dateStr
                then setAdd uniqueIdentifiers (dd_UniqueID row)
                else uniqueIdentifiers) rows ids) k =
  hasCell ids k || existsb (rowHas dateStr k) rows.
Proof.
  revert ids. induction rows as [|row rows IH]; intros ids; simpl.
  - by rewrite orb_false_r.
  - rewrite IH. unfold rowHas at 2.
    destruct (String.eqb _ dateStr); simpl.
    + by rewrite hasCell_setAdd, orb_assoc.
    + done.
Qed.

(** An identifier is "existing" exactly when a data row (row 2 up to the
    last populated row) of the given date carries it. *)
Lemma existing_has sheet dateStr k :
  hasCell (getExistingUniqueIdentifiers sheet dateStr) k =
    existsb (rowHas dateStr k)
            (drop 1 (take (getLastPopulatedRowInColumns sheet) sheet)).
Proof.
  unfold getExistingUniqueIdentifiers, dataRows.
  destruct (1 <? getLastPopulatedRowInColumns sheet)%nat eqn:Hlt.
  - rewrite existing_fold. simpl. f_equal.
    by rewrite skipn_firstn_comm.
  - apply Nat.ltb_ge in Hlt. simpl. symmetry.
    rewrite drop_ge; [done|]. rewrite length_take. lia.
Qed.

(** ** The date format *)

Lemma string_length_append a b :
  String.length (a +:+ b) = (String.length a + String.length b)%nat.
Proof. induction a as [|c a IH]; simpl; [done|]. by rewrite IH. Qed.

Lemma get_past a b n k :
  String.length a = k → String.get (n + k) (a +:+ b) = String.get n b.
Proof. intros <-. symmetry. apply append_correct2. Qed.

Lemma padNum_width (w bound : nat) :
  forallb (λ n, String.length (padNum w n) =? w)%nat (seq 0 bound) = true →
  ∀ n, (n < bound)%nat → String.length (padNum w n) = w.
Proof.
  intros H n Hn. rewrite forallb_forall in H.
  apply Nat.eqb_eq, H, in_seq. lia.
Qed.

Lemma padNum2_length n : (n < 100)%nat → String.length (padNum 2 n) = 2%nat.
Proof. apply padNum_width. by vm_compute. Qed.

Lemma padNum4_length n :
  (n < 100 * 100)%nat → String.length (padNum 4 n) = 4%nat.
Proof. apply padNum_width. by vm_compute. Qed.

(** For calendar dates the text is ten characters long, with "/" as third
    and sixth character: MM/dd/yyyy. *)
Lemma formatDate_shape (d : Date) :
  (dmonth d < 100)%nat → (dday d < 100)%nat → (dyear d < 100 * 100)%nat →
  String.length (formatDate d) = 10%nat ∧
  String.get 2 (formatDate d) = Some "/"%char ∧
  String.get 5 (formatDate d) = Some "/"%char.
Proof.
  intros Hm Hd Hy. unfold formatDate.
  pose proof (padNum2_length _ Hm) as Lm.
  pose proof (padNum2_length _ Hd) as Ld.
  pose proof (padNum4_length _ Hy) as Ly.
  split_and!.
  - rewrite !string_length_append, Lm, Ld, Ly. done.
  - change (String.get 2 ?x) with (String.get (0 + 2) x).
    by rewrite (get_past _ _ 0 2 Lm).
  - change (String.get 5 ?x) with (String.get (3 + 2) x).
    rewrite (get_past _ _ 3 2 Lm).
    change ("/" +:+ ?x) with (String "/"%char x). cbn [String.get].
    change (String.get 2 ?x) with (String.get (0 + 2) x).
    by rewrite (get_past _ _ 0 2 Ld).
Qed.

Example formatDate_feb11 : formatDate (mkDate 2025 2 11) = "02/11/2025".
Proof. reflexivity. Qed.

(** ** Today's date is never blank *)

Lemma allSpace_app a b : allSpace (a +:+ b) = allSpace a && allSpace b.
Proof.
  induction a as [|c a IH]; simpl; [done|]. rewrite IH. by rewrite andb_assoc.
Qed.

Lemma populated_with_slash a b : populated (CStr (a +:+ "/" +:+ b)) = true.
Proof.
  unfold populated. apply andb_true_intro. split.
  - by destruct a.
  - rewrite allSpace_app.
    change ("/" +:+ b) with (String "/"%char b).
    cbn [allSpace]. change (isSpace "/"%char) with false.
    by rewrite andb_false_r.
Qed.

Lemma formatDate_populated (d : Date) : populated (CStr (formatDate d)) = true.
Proof. unfold formatDate. apply populated_with_slash. Qed.

Lemma setAE_populated today r row :
  populated (CStr today) = true →
  populatedAE (setAE (newRowOf today r) row) = true.
Proof. intros H. unfold populatedAE. simpl. by rewrite H. Qed.

Lemma setV_populatedAE id row : populatedAE (setV id row) = populatedAE row.
Proof. done. Qed.

(** ** The shape of a successful append *)

Lemma zip_with_length_eq {A B C} (f : A → B → C) (xs : list A) (ys : list B) :
  length xs = length ys → length (zip_with f xs ys) = length ys.
Proof. intros H. rewrite length_zip_with. lia. Qed.

Lemma appendedBlock_length today data mid :
  length mid = length data → length (appendedBlock today data mid) = length data.
Proof.
  intros H. unfold appendedBlock.
  destruct (_ =? _)%nat eqn:E.
  - apply Nat.eqb_eq in E.
    rewrite zip_with_length_eq; rewrite zip_with_length_eq;
      rewrite ?length_fmap; lia.
  - rewrite zip_with_length_eq; rewrite ?length_fmap; lia.
Qed.

Lemma updateDailyDetails_accepts now sheet header data :
  data ≠ [] →
  List.filter (hasCell (getExistingUniqueIdentifiers sheet (getTodayString now)))
              (collectIdentifiers data) = [] →
  ∃ mid post,
    padTo (getLastPopulatedRowInColumns sheet + length data) sheet =
      take (getLastPopulatedRowInColumns sheet) sheet ++ mid ++ post ∧
    length mid = length data ∧ Forall unpopulated mid ∧ Forall unpopulated post ∧
    updateDailyDetails now sheet (header :: data) =
      (Appended (getLastPopulatedRowInColumns sheet + 1) (length data)
                (length (collectIdentifiers data) =? length data)%nat,
       take (getLastPopulatedRowInColumns sheet) sheet ++
       appendedBlock (getTodayString now) data mid ++ post).
Proof.
  intros Hne Hnodup.
  destruct (sheet_blocks sheet (length data)) as (mid & post & Hpad & Hlen & Hmid & Hpost).
  exists mid, post. split_and!; try done.
  unfold updateDailyDetails. destruct data as [|d data]; [done|].
  rewrite Hnodup.
  replace (getLastPopulatedRowInColumns sheet + 1 - 1)%nat
    with (getLastPopulatedRowInColumns sheet) by lia.
  rewrite length_map.
  assert (writeRows setAE (getLastPopulatedRowInColumns sheet)
            (map (newRowOf (getTodayString now)) (d :: data)) sheet
          = take (getLastPopulatedRowInColumns sheet) sheet ++
            zip_with setAE (newRowOf (getTodayString now) <$> (d :: data)) mid ++ post)
    as Hw.
  { apply writeRows_at_last; rewrite length_map; done. }
  rewrite Hw. unfold appendedBlock.
  destruct (length (collectIdentifiers (d :: data)) =? length (d :: data))%nat eqn:E;
    [|done].
  apply Nat.eqb_eq in E. f_equal.
  rewrite <- (take_getLast_length sheet) at 1.
  rewrite writeRows_blocks; [done|].
  rewrite zip_with_length_eq; rewrite ?length_fmap; lia.
Qed.

Lemma updateDailyDetails_rejects now sheet header data d ds :
  List.filter (hasCell (getExistingUniqueIdentifiers sheet (getTodayString now)))
              (collectIdentifiers data) = d :: ds →
  updateDailyDetails now sheet (header :: data) = (Rejected (d :: ds), sheet).
Proof.
  intros H. unfold updateDailyDetails.
  destruct data as [|r data]; [done|]. by rewrite H.
Qed.

(** ** When the identifier column is written *)

Lemma collect_length_fold data ids :
  (length (fold_left
             (λ ids r, if truthy (res_UniqueIdentifier r)
                       then setAdd ids (res_UniqueIdentifier r) else ids)
             data ids) ≤ length ids + length data)%nat.
Proof.
  revert ids. induction data as [|r data IH]; intros ids; simpl; [lia|].
  etrans; [apply IH|].
  destruct (truthy _); [|lia]. unfold setAdd.
  destruct (hasCell _ _); [lia|]. rewrite length_app. simpl. lia.
Qed.

Lemma collect_full_fold data ids :
  length (fold_left
            (λ ids r, if truthy (res_UniqueIdentifier r)
                      then setAdd ids (res_UniqueIdentifier r) else ids)
            data ids) = (length ids + length data)%nat →
  fold_left
    (λ ids r, if truthy (res_UniqueIdentifier r)
              then setAdd ids (res_UniqueIdentifier r) else ids)
    data ids = ids ++ (res_UniqueIdentifier <$> data).
Proof.
  revert ids. induction data as [|r data IH]; intros ids; simpl.
  - by rewrite app_nil_r.
  - intros Hlen.
    pose proof (collect_length_fold data
                  (if truthy (res_UniqueIdentifier r)
                   then setAdd ids (res_UniqueIdentifier r) else ids)) as Hle.
    destruct (truthy (res_UniqueIdentifier r)); [|lia].
    unfold setAdd in *. destruct (hasCell ids _); [lia|].
    rewrite IH.
    + by rewrite <- app_assoc.
    + rewrite Hlen, length_app. simpl. lia.
Qed.

(** One identifier per row was collected only if no row lacked one and no
    two rows shared one; the set is then the identifier column itself. *)
Lemma collectIdentifiers_full data :
  length (collectIdentifiers data) = length data →
  collectIdentifiers data = res_UniqueIdentifier <$> data.
Proof. intros H. unfold collectIdentifiers in *. by rewrite collect_full_fold. Qed.

(** ** Rows of the sheet after an append *)

Lemma appendedBlock_lookup today data mid i r m :
  data !! i = Some r → mid !! i = Some m →
  ∃ row, appendedBlock today data mid !! i = Some row ∧
    dd_Date row = CStr today ∧
    dd_Route row = CStr (res_RouteCode r) ∧
    dd_Name row = CStr (res_AssociateName r) ∧
    dd_AssetID row = CStr "" ∧
    dd_VanID row = CStr (res_VanID r) ∧
    dd_Pace row = dd_Pace m ∧
    dd_UniqueID row =
      if (length (collectIdentifiers data) =? length data)%nat
      then res_UniqueIdentifier r else dd_UniqueID m.
Proof.
  intros Hr Hm. unfold appendedBlock.
  assert (zip_with setAE (newRowOf today <$> data) mid !! i
          = Some (setAE (newRowOf today r) m)) as Hrow.
  { rewrite lookup_zip_with, list_lookup_fmap, Hr, Hm. done. }
  destruct (_ =? _)%nat eqn:E.
  - apply Nat.eqb_eq in E. rewrite (collectIdentifiers_full _ E).
    eexists. split.
    + rewrite lookup_zip_with, list_lookup_fmap, Hr, Hrow. done.
    + done.
  - eexists. split; [exact Hrow|done].
Qed.

Lemma appendedBlock_populated now data mid :
  Forall (λ r, populatedAE r = true) (appendedBlock (getTodayString now) data mid).
Proof.
  assert (Forall (λ r, populatedAE r = true)
            (zip_with setAE (newRowOf (getTodayString now) <$> data) mid)) as H.
  { apply Forall_lookup_2. intros i row Hrow.
    apply lookup_zip_with_Some in Hrow as (v & m & -> & Hv & _).
    apply list_lookup_fmap_Some in Hv as (r & -> & _).
    apply setAE_populated, formatDate_populated. }
  unfold appendedBlock. destruct (_ =? _)%nat; [|done].
  apply Forall_lookup_2. intros i row Hrow.
  apply lookup_zip_with_Some in Hrow as (id & m & -> & _ & Hm).
  rewrite setV_populatedAE. by eapply (Forall_lookup_1 _ _ _ _ H).
Qed.

Lemma appended_logLength now sheet data mid post :
  data ≠ [] → length mid = length data → Forall unpopulated post →
  logLength (take (getLastPopulatedRowInColumns sheet) sheet ++
             appendedBlock (getTodayString now) data mid ++ post)
  = (getLastPopulatedRowInColumns sheet + length data)%nat.
Proof.
  intros Hne Hlen Hpost. unfold logLength.
  rewrite getLast_app_populated.
  - by rewrite take_getLast_length, appendedBlock_length.
  - intros Hnil. apply (f_equal length) in Hnil.
    rewrite appendedBlock_length in Hnil by done. by destruct data.
  - apply appendedBlock_populated.
  - done.
Qed.

Lemma rowAt_appended sheet block post i row :
  block !! i = Some row →
  rowAt (take (getLastPopulatedRowInColumns sheet) sheet ++ block ++ post)
        (getLastPopulatedRowInColumns sheet + 1 + i) = row.
Proof.
  intros Hrow. unfold rowAt. rewrite nth_lookup.
  replace (getLastPopulatedRowInColumns sheet + 1 + i - 1)%nat
    with (length (take (getLastPopulatedRowInColumns sheet) sheet) + i)%nat
    by (rewrite take_getLast_length; lia).
  rewrite lookup_app_r by lia.
  replace (_ + i - _)%nat with i by lia.
  by rewrite (lookup_app_l_Some _ _ _ _ Hrow).
Qed.

Lemma existing_after_append now sheet data mid post dateStr k :
  data ≠ [] → length mid = length data → Forall unpopulated post →
  hasCell (getExistingUniqueIdentifiers
             (take (getLastPopulatedRowInColumns sheet) sheet ++
              appendedBlock (getTodayString now) data mid ++ post) dateStr) k =
  existsb (rowHas dateStr k)
    (drop 1 (take (getLastPopulatedRowInColumns sheet) sheet ++
             appendedBlock (getTodayString now) data mid)).
Proof.
  intros Hne Hlen Hpost. rewrite existing_has.
  pose proof (appended_logLength now sheet data mid post Hne Hlen Hpost) as HL.
  unfold logLength in HL. rewrite HL. do 2 f_equal.
  rewrite app_assoc.
  rewrite take_app_length'; [done|].
  by rewrite length_app, take_getLast_length, appendedBlock_length.
Qed.

Lemma dataRows_alt sheet :
  dataRows sheet (getLastPopulatedRowInColumns sheet) =
    drop 1 (take (getLastPopulatedRowInColumns sheet) sheet).
Proof. unfold dataRows. by rewrite skipn_firstn_comm. Qed.

Lemma filter_all {A} (f : A → bool) (l : list A) :
  Forall (λ x, f x = true) l → List.filter f l = l.
Proof.
  induction 1 as [|x l Hx _ IH]; simpl; [done|]. by rewrite Hx, IH.
Qed.

Lemma appended_inv now sheet header data start n w sheet1 :
  updateDailyDetails now sheet (header :: data) = (Appended start n w, sheet1) →
  data ≠ [] ∧
  List.filter (hasCell (getExistingUniqueIdentifiers sheet (getTodayString now)))
              (collectIdentifiers data) = [].
Proof.
  intros H. split.
  - intros ->. discriminate.
  - destruct (List.filter _ _) as [|d ds] eqn:E; [done|].
    by rewrite (updateDailyDetails_rejects _ _ _ _ _ _ E) in H.
Qed.

(* ------------------------------------------------------------------ *)
(** ** C2: a duplicate aborts the whole batch *)



(* ------------------------------------------------------------------ *)
(** ** C1: running the append twice *)

(** C1, as stated, fails: with a results row whose identifier is missing,
    the first run appends both rows without writing any identifier, and the
    second run with the same rows and date finds no duplicate and appends
    them again: the log grows from 3 to 5 rows. *)
Lemma second_run_appends_again :
  let run1 := updateDailyDetails feb11 [detailsHeader]
                (resultsHeader :: batch_missing_identifier) in
  let run2 := updateDailyDetails feb11 run1.2
                (resultsHeader :: batch_missing_identifier) in
  run1.1 = Appended 2 2 false ∧
  run2.1 = Appended 4 2 false ∧
  logLength run1.2 = 3%nat ∧ logLength run2.2 = 5%nat.
Proof. vm_compute. done. Qed.

(** C1 (amended): if a run of [updateDailyDetails] on a log with a
    populated header row appended a batch together with its identifiers
    (one identifier, not a Date, per row), then running it again with the
    same results rows on the same date rejects the whole batch: every
    identifier of the batch is reported as a duplicate, nothing is written
    and the length of the log is unchanged. *)
Theorem repeated_append_rejected
    (now : Date) (sheet : Sheet) (header : ResultsRow) (data : list ResultsRow)
    (startRow numNewRows : nat) (sheet1 : Sheet) :
  (1 ≤ logLength sheet)%nat →
  Forall (λ r, notDate (res_UniqueIdentifier r)) data →
  updateDailyDetails now sheet (header :: data)
    = (Appended startRow numNewRows true, sheet1) →
  updateDailyDetails now sheet1 (header :: data)
    = (Rejected (res_UniqueIdentifier <$> data), sheet1) ∧
  logLength (updateDailyDetails now sheet1 (header :: data)).2 = logLength sheet1 ∧
  logLength sheet1 = (logLength sheet + length data)%nat.
Proof.
  intros Hhdr Hnd Hrun1.
  destruct (appended_inv _ _ _ _ _ _ _ _ Hrun1) as [Hne Hfresh].
  destruct (updateDailyDetails_accepts now sheet header data Hne Hfresh)
    as (mid & post & Hpad & Hlen & Hmid & Hpost & Heq).
  rewrite Heq in Hrun1. injection Hrun1 as _ _ Hw Hsheet.
  apply Nat.eqb_eq in Hw.
  pose proof (collectIdentifiers_full _ Hw) as Hids.
  assert (logLength sheet1 = (logLength sheet + length data)%nat) as HL.
  { subst sheet1. by apply appended_logLength. }
  assert (updateDailyDetails now sheet1 (header :: data)
          = (Rejected (res_UniqueIdentifier <$> data), sheet1)) as Hrun2.
  { assert (List.filter
              (hasCell (getExistingUniqueIdentifiers sheet1 (getTodayString now)))
              (collectIdentifiers data) = res_UniqueIdentifier <$> data) as Hall.
    { rewrite Hids. apply filter_all. apply Forall_lookup_2. intros i k Hk.
      apply list_lookup_fmap_Some in Hk as (r & -> & Hr).
      subst sheet1. rewrite existing_after_append by done.
      destruct (lookup_lt_is_Some_2 mid i) as [m Hm].
      { rewrite Hlen. by eapply lookup_lt_Some. }
      destruct (appendedBlock_lookup (getTodayString now) data mid i r m Hr Hm)
        as (row & Hrow & Hdate & _ & _ & _ & _ & _ & Hid).
      apply existsb_exists. exists row. split.
      - apply list_elem_of_In.
        destruct (take (getLastPopulatedRowInColumns sheet) sheet) as [|h pre] eqn:Hpre.
        + apply (f_equal length) in Hpre. rewrite take_getLast_length in Hpre.
          unfold logLength in Hhdr. simpl in Hpre. lia.
        + simpl. rewrite drop_0. apply elem_of_app. right.
          by eapply list_elem_of_lookup_2.
      - unfold rowHas. rewrite Hdate. simpl. rewrite String.eqb_refl. simpl.
        rewrite Hid. apply Nat.eqb_eq in Hw. rewrite Hw.
        apply strictEq_refl. by eapply (Forall_lookup_1 _ _ _ _ Hnd). }
    destruct data as [|r data]; [done|].
    by apply updateDailyDetails_rejects. }
  split_and!; [done| |done]. by rewrite Hrun2.
Qed.

(** The amended C1 at a log with its header row and a batch of two rows
    with their identifiers. *)
Lemma repeated_append_rejected_witness :
  let sheet1 := (updateDailyDetails feb11 [detailsHeader]
                   (resultsHeader :: batch_of_two)).2 in
  updateDailyDetails feb11 sheet1 (resultsHeader :: batch_of_two)
    = (Rejected (res_UniqueIdentifier <$> batch_of_two), sheet1) ∧
  logLength (updateDailyDetails feb11 sheet1 (resultsHeader :: batch_of_two)).2
    = logLength sheet1 ∧
  logLength sheet1 = (logLength [detailsHeader] + length batch_of_two)%nat.
Proof.
  apply (repeated_append_rejected feb11 [detailsHeader] resultsHeader batch_of_two 2 2).
  - vm_compute. lia.
  - repeat constructor.
  - vm_compute. reflexivity.
Defined.

(* ------------------------------------------------------------------ *)
(** ** C10: rows appended without identifier *)

Lemma fmap_zip_with_setAE {B} (g : DetailRow → B) (vals : list NewRow)
    (mid : list DetailRow) :
  length vals = length mid → (∀ v m, g (setAE v m) = g m) →
  g <$> zip_with setAE vals mid = g <$> mid.
Proof.
  intros Hlen Hg. revert mid Hlen.
  induction vals as [|v vals IH]; intros [|m mid] Hlen; simpl in *; try done.
  rewrite Hg, IH; [done|lia].
Qed.

Lemma rowAt_fmap {B} (g : DetailRow → B) (sheet : Sheet) j :
  g (rowAt sheet j) = nth (j - 1) (g <$> sheet) (g blankRow).
Proof.
  unfold rowAt. rewrite !nth_lookup, list_lookup_fmap.
  by destruct (sheet !! (j - 1)%nat).
Qed.

(** C10: when the duplicate check passes but the number of distinct truthy
    identifiers collected from the candidate rows differs from the number
    of candidate rows, [updateDailyDetails] appends columns A to E of every
    candidate row after the last populated row and leaves column V of the
    whole sheet as it was, so the identifier column of the batch is not
    written. Where the sheet held no identifier below its last populated
    row, the appended rows carry none, and every later duplicate check sees
    exactly the identifiers it saw before the append: the rows are
    invisible to it. *)
Theorem keyless_rows_enter_log
    (now : Date) (sheet : Sheet) (header : ResultsRow) (data : list ResultsRow) :
  data ≠ [] →
  List.filter (hasCell (getExistingUniqueIdentifiers sheet (getTodayString now)))
              (collectIdentifiers data) = [] →
  length (collectIdentifiers data) ≠ length data →
  ∃ sheet1,
    updateDailyDetails now sheet (header :: data)
      = (Appended (logLength sheet + 1) (length data) false, sheet1) ∧
    logLength sheet1 = (logLength sheet + length data)%nat ∧
    (∀ i r, data !! i = Some r →
       let row := rowAt sheet1 (logLength sheet + 1 + i) in
       dd_Date row = CStr (getTodayString now) ∧
       dd_Route row = CStr (res_RouteCode r) ∧
       dd_Name row = CStr (res_AssociateName r) ∧
       dd_AssetID row = CStr "" ∧
       dd_VanID row = CStr (res_VanID r)) ∧
    (∀ j, dd_UniqueID (rowAt sheet1 j) = dd_UniqueID (rowAt sheet j)) ∧
    ((∀ j, (logLength sheet < j)%nat → truthy (dd_UniqueID (rowAt sheet j)) = false) →
     ∀ dateStr k, truthy k = true →
       hasCell (getExistingUniqueIdentifiers sheet1 dateStr) k =
       hasCell (getExistingUniqueIdentifiers sheet dateStr) k).
Proof.
  intros Hne Hfresh Hmis. unfold logLength.
  destruct (updateDailyDetails_accepts now sheet header data Hne Hfresh)
    as (mid & post & Hpad & Hlen & Hmid & Hpost & Heq).
  apply Nat.eqb_neq in Hmis. rewrite Hmis in Heq.
  eexists. split; [exact Heq|].
  assert (∀ j, dd_UniqueID
                 (rowAt (take (getLastPopulatedRowInColumns sheet) sheet ++
                         appendedBlock (getTodayString now) data mid ++ post) j)
               = dd_UniqueID (rowAt sheet j)) as HV.
  { intros j.
    assert (rowAt sheet j =
            rowAt (padTo (getLastPopulatedRowInColumns sheet + length data) sheet) j)
      as -> by (unfold rowAt; by rewrite nth_padTo).
    rewrite !rowAt_fmap, Hpad. f_equal.
    rewrite !fmap_app. do 2 f_equal.
    unfold appendedBlock. rewrite Hmis.
    apply fmap_zip_with_setAE; [by rewrite length_fmap|done]. }
  split_and!.
  - by apply appended_logLength.
  - intros i r Hr.
    destruct (lookup_lt_is_Some_2 mid i) as [m Hm].
    { rewrite Hlen. by eapply lookup_lt_Some. }
    destruct (appendedBlock_lookup (getTodayString now) data mid i r m Hr Hm)
      as (row & Hrow & Hdate & Hroute & Hname & Hasset & Hvan & _).
    simpl. by rewrite (rowAt_appended _ _ _ _ _ Hrow).
  - exact HV.
  - intros Hblank dateStr k Hk.
    rewrite existing_after_append by done. rewrite existing_has.
    assert (existsb (rowHas dateStr k)
              (appendedBlock (getTodayString now) data mid) = false) as Hnone.
    { apply not_true_is_false. intros (row & Hin & Hhas)%existsb_exists.
      apply list_elem_of_In, list_elem_of_lookup in Hin as (i & Hi).
      pose proof (rowAt_appended sheet _ post i row Hi) as Hat.
      pose proof (HV (getLastPopulatedRowInColumns sheet + 1 + i)%nat) as HVi.
      rewrite Hat in HVi.
      unfold rowHas in Hhas. apply andb_true_iff in Hhas as [_ Hs].
      apply strictEq_truthy in Hs. rewrite HVi, Hblank in Hs by lia. congruence. }
    destruct (take (getLastPopulatedRowInColumns sheet) sheet) as [|h pre].
    + simpl. apply not_true_is_false. intros (row & Hin & Hhas)%existsb_exists.
      assert (existsb (rowHas dateStr k)
                (appendedBlock (getTodayString now) data mid) = true); [|congruence].
      apply existsb_exists. exists row. split; [|done].
      apply list_elem_of_In. apply list_elem_of_In in Hin.
      eapply elem_of_sublist; [exact Hin|]. apply sublist_drop.
    + simpl. rewrite !drop_0, existsb_app, Hnone. by rewrite orb_false_r.
Qed.

(** C10 at a log with its header row and a batch of two rows, one without
    identifier. *)
Lemma keyless_rows_enter_log_witness :
  ∃ sheet1,
    updateDailyDetails feb11 [detailsHeader]
                       (resultsHeader :: batch_missing_identifier)
      = (Appended (logLength [detailsHeader] + 1)
                  (length batch_missing_identifier) false, sheet1) ∧
    logLength sheet1
      = (logLength [detailsHeader] + length batch_missing_identifier)%nat ∧
    (∀ i r, batch_missing_identifier !! i = Some r →
       let row := rowAt sheet1 (logLength [detailsHeader] + 1 + i) in
       dd_Date row = CStr (getTodayString feb11) ∧
       dd_Route row = CStr (res_RouteCode r) ∧
       dd_Name row = CStr (res_AssociateName r) ∧
       dd_AssetID row = CStr "" ∧
       dd_VanID row = CStr (res_VanID r)) ∧
    (∀ j, dd_UniqueID (rowAt sheet1 j) = dd_UniqueID (rowAt [detailsHeader] j)) ∧
    ((∀ j, (logLength [detailsHeader] < j)%nat →
           truthy (dd_UniqueID (rowAt [detailsHeader] j)) = false) →
     ∀ dateStr k, truthy k = true →
       hasCell (getExistingUniqueIdentifiers sheet1 dateStr) k =
       hasCell (getExistingUniqueIdentifiers [detailsHeader] dateStr) k).
Proof.
  apply (keyless_rows_enter_log feb11 [detailsHeader] resultsHeader batch_missing_identifier).
  - discriminate.
  - vm_compute. reflexivity.
  - vm_compute. lia.
Defined.

(** Two rows sharing one identifier also make the count differ: the batch
    is appended without identifiers. *)
Example shared_identifier_skips_column :
  (updateDailyDetails feb11 [detailsHeader]
     [ resultsHeader;
       resultsRowOf "CX9" "BW2" "Marquis Thomas"
                    (CStr "02/11/2025|CX9|Marquis Thomas|BW2");
       resultsRowOf "CX9" "BW2" "Marquis Thomas"
                    (CStr "02/11/2025|CX9|Marquis Thomas|BW2") ]).1
  = Appended 2 2 false.
Proof. reflexivity. Qed.

(** The header row matters: on a sheet with no populated row a batch of one
    row is written to row 1, which the scan for existing identifiers never
    reads, so the same batch is accepted a second time. *)
Example first_row_is_never_scanned :
  let batch := [ resultsHeader;
                 resultsRowOf "CX9" "BW2" "Marquis Thomas"
                              (CStr "02/11/2025|CX9|Marquis Thomas|BW2") ] in
  let run1 := updateDailyDetails feb11 [] batch in
  let run2 := updateDailyDetails feb11 run1.2 batch in
  run1.1 = Appended 1 1 true ∧ run2.1 = Appended 2 1 true.
Proof. by vm_compute. Qed.

(* ------------------------------------------------------------------ *)
(** ** C3: the identity key round trip *)

Lemma updateResultsRow_key now drivers row :
  res_UniqueIdentifier (updateResultsRow now drivers row) =
    CStr (deriveKey (formatDate now)
                    (res_RouteCode (updateResultsRow now drivers row))
                    (res_AssociateName (updateResultsRow now drivers row))
                    (res_VanID (updateResultsRow now drivers row))).
Proof. reflexivity. Qed.

Lemma pipeline_results now allocations dailyRoutesObj :
  allocations ≠ [] →
  ∃ data,
    updateResultsWithDailyRoutes now (createResultsSheet now allocations)
                                 dailyRoutesObj = resultsHeader :: data ∧
    length data = length allocations ∧
    Forall (λ r, res_UniqueIdentifier r =
                 CStr (deriveKey (formatDate now) (res_RouteCode r)
                                 (res_AssociateName r) (res_VanID r))) data.
Proof.
  intros Hne. destruct allocations as [|a allocations]; [done|].
  eexists. split; [reflexivity|]. split.
  - simpl. by rewrite !length_map.
  - apply Forall_lookup_2. intros i r Hr.
    destruct i as [|i]; simpl in Hr.
    + injection Hr as <-. apply updateResultsRow_key.
    + change (map ?f ?l) with (f <$> l) in Hr.
      apply list_lookup_fmap_Some in Hr as (r0 & -> & _).
      apply updateResultsRow_key.
Qed.

(** C3, as stated, fails: when route "CX9" and van "BW1" are each listed
    twice, both allocations get the same identifier, the set of identifiers
    has one element for two rows, and the append writes columns A to E but
    no identifier: the appended records store an empty identifier, which is
    not the key derived from their fields. *)
Lemma appended_record_without_key :
  let allocations :=
    allocationResults
      (allocateVehiclesToRoutes routes_repeating_code roster_repeating_van) in
  let run := appendRun feb11 allocations sample_dailyRoutes [detailsHeader] in
  run.1 = Appended 2 2 false ∧
  recordKey (rowAt run.2 2) = Some "02/11/2025|CX9|Marquis Thomas|BW1" ∧
  dd_UniqueID (rowAt run.2 2) = CStr "" ∧
  dd_UniqueID (rowAt run.2 2) ≠ CStr "02/11/2025|CX9|Marquis Thomas|BW1".
Proof. vm_compute. done. Qed.

(** C3 (amended): in a pipeline run (Results sheet created from the
    allocations, identifiers rebuilt by [updateResultsWithDailyRoutes],
    batch appended by [updateDailyDetails] on the same calendar day) whose
    append wrote the identifier column, every appended record stores the
    date in MM/dd/yyyy form, and re-deriving the key from its stored date,
    route code, associate name and van id, joined in that order by "|",
    gives exactly the identifier stored on the record. *)
Theorem stored_key_round_trip
    (now : Date) (allocations : list Allocation) (dailyRoutesObj : list DailyRoute)
    (sheet : Sheet) (startRow numNewRows : nat) (sheet1 : Sheet) :
  appendRun now allocations dailyRoutesObj sheet
    = (Appended startRow numNewRows true, sheet1) →
  numNewRows = length allocations ∧
  ∀ i, (i < numNewRows)%nat →
    let row := rowAt sheet1 (startRow + i) in
    dd_Date row = CStr (formatDate now) ∧
    ∃ key, recordKey row = Some key ∧ dd_UniqueID row = CStr key.
Proof.
  unfold appendRun. intros Hrun.
  destruct (decide (allocations = [])) as [->|Hne]; [discriminate|].
  destruct (pipeline_results now allocations dailyRoutesObj Hne)
    as (data & Hres & Hlen & Hkeys).
  rewrite Hres in Hrun.
  destruct (appended_inv _ _ _ _ _ _ _ _ Hrun) as [Hdne Hfresh].
  destruct (updateDailyDetails_accepts now sheet resultsHeader data Hdne Hfresh)
    as (mid & post & Hpad & Hmlen & Hmid & Hpost & Heq).
  rewrite Heq in Hrun. injection Hrun as <- <- Hw <-.
  split; [done|]. intros i Hi.
  destruct (lookup_lt_is_Some_2 data i Hi) as [r Hr].
  destruct (lookup_lt_is_Some_2 mid i) as [m Hm]; [lia|].
  destruct (appendedBlock_lookup (getTodayString now) data mid i r m Hr Hm)
    as (row & Hrow & Hdate & Hroute & Hname & _ & Hvan & _ & Hid).
  simpl. rewrite (rowAt_appended _ _ _ _ _ Hrow).
  split; [done|].
  exists (deriveKey (formatDate now) (res_RouteCode r) (res_AssociateName r)
                    (res_VanID r)).
  split.
  - unfold recordKey. by rewrite Hroute, Hname, Hvan, Hdate.
  - rewrite Hid, Hw. by apply (Forall_lookup_1 _ _ _ _ Hkeys Hr).
Qed.

(** The amended C3 at a pipeline run of two allocations on a log with its
    header row. *)
Lemma stored_key_round_trip_witness :
  2%nat = length sample_allocations ∧
  ∀ i, (i < 2)%nat →
    let row := rowAt (appendRun feb11 sample_allocations sample_dailyRoutes
                        [detailsHeader]).2 (2 + i) in
    dd_Date row = CStr (formatDate feb11) ∧
    ∃ key, recordKey row = Some key ∧ dd_UniqueID row = CStr key.
Proof.
  apply (stored_key_round_trip feb11 sample_allocations sample_dailyRoutes
           [detailsHeader] 2 2).
  vm_compute. reflexivity.
Defined.


(** ** Pace sources *)


(* ------------------------------------------------------------------ *)
(** ** C8: pace-source priority *)


(** With the simulated source of the code as fallback. *)
Lemma getDeliveryPaceData_priority rnd dataSheet vanId date :
  getDeliveryPaceData rnd dataSheet vanId date =
    PaceSpec.resolvePace
      [PaceSpec.formSource dataSheet;
       PaceSpec.fallbackSource (getDeliveryPaceDataFromSource rnd)]
      vanId date.
Proof.
  unfold getDeliveryPaceData, getDeliveryPaceDataWith, getDeliveryPaceDataFromForms.
  simpl. unfold PaceSpec.formSource.
  destruct dataSheet as [data|]; simpl; [|done].
  by destruct (hasData (collectFormPace data vanId date)).
Qed.

(** Scenario 5 of the specification, with a fallback answering
    [{1:40 PM: 5}]. *)
Example all_null_forms_fall_back :
  let forms := Some [ mkFormRow (CStr "Date") (CStr "Van ID")
                                (CStr "Reporting Time") (CStr "Total Deliveries");
                      mkFormRow (CStr "02/11/2025") (CStr "BW7")
                                (CStr "1:40 PM") (CNum 9) ] in
  let fallback := λ _ _, mkSlots (Some (CNum 5)) None None None None in
  PaceSpec.formSource forms (CStr "BW2") "02/11/2025" = Some emptyPace ∧
  getDeliveryPaceDataWith fallback forms (CStr "BW2") "02/11/2025"
    = mkSlots (Some (CNum 5)) None None None None.
Proof. by vm_compute. Qed.

(** With the simulated source of the code, the fallback always answers
    five numbers. *)
Lemma simulated_source_hasData rnd vanId date :
  hasData (getDeliveryPaceDataFromSource rnd vanId date) = true.
Proof. reflexivity. Qed.

(** ** The daily summary *)

Lemma slotAt_slotsZip {A B C} (f : A → B → C) a b c :
  slotAt c (slotsZip f a b) = f (slotAt c a) (slotAt c b).
Proof. by destruct c. Qed.

Lemma slotAt_slotsMap {A B} (f : A → B) a c :
  slotAt c (slotsMap f a) = f (slotAt c a).
Proof. by destruct c. Qed.

Lemma slotAt_slotsOf {A} (f : Checkpoint → A) c : slotAt c (slotsOf f) = f c.
Proof. by destruct c. Qed.

Lemma slots_ext {A} (a b : Slots A) : (∀ c, slotAt c a = slotAt c b) → a = b.
Proof.
  intros H. destruct a, b.
  pose proof (H C140). pose proof (H C340). pose proof (H C540).
  pose proof (H C740). pose proof (H C940). simpl in *. congruence.
Qed.

Lemma hasCheckpoint_existsb r :
  SummarySpec.hasCheckpoint r ↔ existsb isSomeb (slotsToList r) = true.
Proof.
  unfold SummarySpec.hasCheckpoint. rewrite existsb_exists. split.
  - intros (z & Hin). exists (Some z). split; [by apply list_elem_of_In|done].
  - intros ([z|] & Hin & Hz); [|done]. exists z. by apply list_elem_of_In.
Qed.

Lemma summaryStep_skip date acc row :
  rowDateIs (dd_Date row) date = false → summaryStep date acc row = acc.
Proof. intros H. unfold summaryStep. by rewrite H. Qed.

Lemma summaryStep_count date acc row :
  rowDateIs (dd_Date row) date = true →
  let acc' := summaryStep date acc row in
  let r := slotsMap countedValue (dd_Pace row) in
  sm_date (acc_summary acc') = sm_date (acc_summary acc) ∧
  sm_totalVans (acc_summary acc') = S (sm_totalVans (acc_summary acc)) ∧
  sm_vansWithData (acc_summary acc') =
    (sm_vansWithData (acc_summary acc) + SummarySpec.vansWithData [r])%nat ∧
  (∀ c, slotAt c (sm_averagePace (acc_summary acc')) =
        (slotAt c (sm_averagePace (acc_summary acc)) +
         foldr Z.add 0 (SummarySpec.reported (slotAt c) [r]))%Z) ∧
  (∀ c, slotAt c (acc_counts acc') =
        (slotAt c (acc_counts acc) +
         length (SummarySpec.reported (slotAt c) [r]))%nat).
Proof.
  intros H. unfold summaryStep. rewrite H.
  cbn [acc_summary acc_counts sm_date sm_totalVans sm_vansWithData sm_averagePace].
  split_and!.
  - done.
  - done.
  - unfold SummarySpec.vansWithData. rewrite filter_cons, filter_nil.
    destruct (decide (SummarySpec.hasCheckpoint _)) as [Hy|Hn].
    + apply hasCheckpoint_existsb in Hy. rewrite Hy. simpl. lia.
    + destruct (existsb isSomeb _) eqn:E; [|simpl; lia].
      exfalso. by apply Hn, hasCheckpoint_existsb.
  - intros c. rewrite slotAt_slotsZip. unfold SummarySpec.reported. simpl.
    destruct (slotAt c (slotsMap countedValue (dd_Pace row))); simpl; lia.
  - intros c. rewrite slotAt_slotsZip. unfold SummarySpec.reported. simpl.
    destruct (slotAt c (slotsMap countedValue (dd_Pace row))); simpl; lia.
Qed.

Lemma vansWithData_cons r rs :
  SummarySpec.vansWithData (r :: rs) =
    (SummarySpec.vansWithData [r] + SummarySpec.vansWithData rs)%nat.
Proof.
  unfold SummarySpec.vansWithData. rewrite !filter_cons, filter_nil.
  destruct (decide _); simpl; lia.
Qed.

Lemma reported_cons (label : Slots (option Z) → option Z) r rs :
  SummarySpec.reported label (r :: rs) =
    SummarySpec.reported label [r] ++ SummarySpec.reported label rs.
Proof. unfold SummarySpec.reported. simpl. by destruct (label r). Qed.

Lemma foldr_add_app (xs ys : list Z) :
  foldr Z.add 0%Z (xs ++ ys) = (foldr Z.add 0 xs + foldr Z.add 0 ys)%Z.
Proof. induction xs as [|x xs IH]; simpl; lia. Qed.

Lemma summary_fold date rows acc :
  let acc' := fold_left (summaryStep date) rows acc in
  let recs := countedRecords rows date in
  sm_date (acc_summary acc') = sm_date (acc_summary acc) ∧
  sm_totalVans (acc_summary acc') =
    (sm_totalVans (acc_summary acc) + length recs)%nat ∧
  sm_vansWithData (acc_summary acc') =
    (sm_vansWithData (acc_summary acc) + SummarySpec.vansWithData recs)%nat ∧
  (∀ c, slotAt c (sm_averagePace (acc_summary acc')) =
        (slotAt c (sm_averagePace (acc_summary acc)) +
         foldr Z.add 0 (SummarySpec.reported (slotAt c) recs))%Z) ∧
  (∀ c, slotAt c (acc_counts acc') =
        (slotAt c (acc_counts acc) +
         length (SummarySpec.reported (slotAt c) recs))%nat).
Proof.
  revert acc. induction rows as [|row rows IH]; intros acc.
  - simpl. split_and!; try done; intros c; simpl; lia.
  - destruct (IH (summaryStep date acc row)) as (Hd & Ht & Hw & Hs & Hc).
    clear IH. cbn zeta in *. cbn [fold_left].
    destruct (rowDateIs (dd_Date row) date) eqn:Hrow.
    + destruct (summaryStep_count date acc row Hrow) as (Hd1 & Ht1 & Hw1 & Hs1 & Hc1).
      cbn zeta in *.
      assert (countedRecords (row :: rows) date =
              slotsMap countedValue (dd_Pace row) :: countedRecords rows date) as ->.
      { unfold countedRecords. simpl. by rewrite Hrow. }
      split_and!.
      * congruence.
      * rewrite Ht, Ht1. simpl. lia.
      * rewrite Hw, Hw1, (vansWithData_cons _ (countedRecords rows date)). lia.
      * intros c. rewrite Hs, Hs1, (reported_cons _ _ (countedRecords rows date)).
        rewrite foldr_add_app. lia.
      * intros c. rewrite Hc, Hc1, (reported_cons _ _ (countedRecords rows date)).
        rewrite length_app. lia.
    + rewrite (summaryStep_skip _ _ _ Hrow) in *.
      assert (countedRecords (row :: rows) date = countedRecords rows date) as ->.
      { unfold countedRecords. simpl. by rewrite Hrow. }
      done.
Qed.

(** What [generateDeliveryPaceSummary] computes: the specification's
    summary of the counted records of the date. *)
Lemma summary_of_counted_records now sheet date summary :
  generateDeliveryPaceSummary now sheet date = Ok summary →
  let date' := if truthy (CStr date) then date else getTodayString now in
  let rows := dataRows sheet (getLastPopulatedRowInColumns sheet) in
  sm_date summary = date' ∧
  sm_totalVans summary = length (recordsFor sheet date') ∧
  sm_vansWithData summary = SummarySpec.vansWithData (countedRecords rows date') ∧
  sm_averagePace summary = SummarySpec.averages (countedRecords rows date').
Proof.
  unfold generateDeliveryPaceSummary.
  destruct (_ <? 2)%nat; [discriminate|]. intros [= <-]. simpl.
  set (date' := if negb (date =? "") then date else getTodayString now).
  set (rows := dataRows sheet (getLastPopulatedRowInColumns sheet)).
  destruct (summary_fold date' rows
              (mkSummaryAcc (mkSummary date' 0 0 (slotsAll 0%Z) []) (slotsAll 0%nat)))
    as (Hd & Ht & Hw & Hs & Hc).
  simpl in *. split_and!.
  - done.
  - rewrite Ht. unfold countedRecords, recordsFor. by rewrite !length_fmap.
  - done.
  - apply slots_ext. intros c.
    rewrite slotAt_slotsZip, Hs, Hc. unfold SummarySpec.averages.
    rewrite slotAt_slotsOf. unfold finishAverage, SummarySpec.average.
    assert (slotAt c (slotsAll 0%Z) = 0%Z) as -> by (by destruct c).
    assert (slotAt c (slotsAll 0%nat) = 0%nat) as -> by (by destruct c).
    simpl. destruct (SummarySpec.reported (slotAt c) (countedRecords rows date'));
      simpl; done.
Qed.

(** A record without a zero count passes the test unchanged. *)
Lemma countedValue_nonzero (r : Slots (option Z)) :
  Some 0%Z ∉ slotsToList r → slotsMap countedValue r = r.
Proof.
  intros H. apply slots_ext. intros c. rewrite slotAt_slotsMap.
  destruct (slotAt c r) as [z|] eqn:E; [|done]. simpl.
  destruct (Z.eqb_spec z 0) as [->|]; [|done].
  exfalso. apply H. rewrite <- E. destruct c; simpl; set_solver.
Qed.

Lemma countedRecords_nonzero (rs : list (Slots (option Z))) :
  Forall (λ r, Some 0%Z ∉ slotsToList r) rs → slotsMap countedValue <$> rs = rs.
Proof.
  induction 1 as [|r rs Hr _ IH]; [done|].
  rewrite fmap_cons. f_equal; [by apply countedValue_nonzero|done].
Qed.

(** Apart from zero counts the code computes the specification's summary:
    per-checkpoint averages over the records holding a value, the count of
    records with at least one value, and the count of all records. *)
Lemma summary_matches_spec_without_zero now sheet date summary :
  generateDeliveryPaceSummary now sheet date = Ok summary →
  let date' := if truthy (CStr date) then date else getTodayString now in
  Forall (λ r, Some 0%Z ∉ slotsToList r) (recordsFor sheet date') →
  sm_totalVans summary = SummarySpec.totalVans (recordsFor sheet date') ∧
  sm_vansWithData summary = SummarySpec.vansWithData (recordsFor sheet date') ∧
  sm_averagePace summary = SummarySpec.averages (recordsFor sheet date').
Proof.
  intros Hs date' Hnz.
  destruct (summary_of_counted_records _ _ _ _ Hs) as (_ & Ht & Hw & Ha).
  fold date' in Ht, Hw, Ha.
  assert (countedRecords (dataRows sheet (getLastPopulatedRowInColumns sheet)) date'
          = recordsFor sheet date') as Heq.
  { change (slotsMap countedValue <$> recordsFor sheet date' = recordsFor sheet date').
    by apply countedRecords_nonzero. }
  rewrite Heq in Hw, Ha. done.
Qed.

(* ------------------------------------------------------------------ *)
(** ** C9: the daily summary *)

(** The example of the claim: 10, no value, 20 average to 15 over a count
    of 2; all three vans are counted, two of them with data. *)
Example summary_ignores_absent_checkpoint :
  ∃ summary,
    generateDeliveryPaceSummary feb11
      [detailsHeader; paceRow "BW1" (Some 10%Z); paceRow "BW2" None;
       paceRow "BW3" (Some 20%Z)] "02/11/2025" = Ok summary ∧
    s140 (sm_averagePace summary) = 15%Z ∧
    sm_vansWithData summary = 2%nat ∧ sm_totalVans summary = 3%nat.
Proof. eexists. by vm_compute. Qed.

(** C9 fails on the code for a count of zero: van "BW1" reported 0
    deliveries at 1:40 PM and van "BW2" reported 20. Both records hold a
    non-null numeric value, so the claim asks for an average of 10 over a
    count of 2 and for two vans with data; the code's test
    [value && !isNaN(value)] drops the 0, giving an average of 20 and one
    van with data. *)
Theorem zero_count_left_out_of_summary :
  ∃ summary,
    generateDeliveryPaceSummary feb11 log_with_zero_count "02/11/2025" = Ok summary ∧
    sm_totalVans summary = 2%nat ∧
    sm_vansWithData summary = 1%nat ∧
    s140 (sm_averagePace summary) = 20%Z ∧
    SummarySpec.totalVans (recordsFor log_with_zero_count "02/11/2025") = 2%nat ∧
    SummarySpec.vansWithData (recordsFor log_with_zero_count "02/11/2025") = 2%nat ∧
    s140 (SummarySpec.averages (recordsFor log_with_zero_count "02/11/2025")) = 10%Z.
Proof. eexists. by vm_compute. Qed.


(** ** Partitioning in the store *)


Lemma read_insert_eq l xs (h : Heap.store) : Heap.read l (<[l := xs]> h) = xs.
Proof. unfold Heap.read. by rewrite lookup_insert_eq. Qed.

Lemma read_insert_ne l l' xs (h : Heap.store) :
  l ≠ l' → Heap.read l' (<[l := xs]> h) = Heap.read l' h.
Proof. intros H. unfold Heap.read. by rewrite lookup_insert_ne. Qed.

Lemma read_push_eq l v (h : Heap.store) :
  l ∈ dom h → Heap.read l (Heap.push l v h) = Heap.read l h ++ [v].
Proof.
  intros [xs Hxs]%elem_of_dom. unfold Heap.read, Heap.push.
  by rewrite lookup_alter_eq, Hxs.
Qed.

Lemma read_push_ne l l' v (h : Heap.store) :
  l ≠ l' → Heap.read l' (Heap.push l v h) = Heap.read l' h.
Proof. intros H. unfold Heap.read, Heap.push. by rewrite lookup_alter_ne. Qed.

Lemma contents_lookup (out : gmap string Heap.loc) (h : Heap.store) k :
  Heap.contents out h !! k = (λ l, Heap.read l h) <$> (out !! k).
Proof. unfold Heap.contents. by rewrite lookup_fmap. Qed.

Lemma groupInv_init (h0 : Heap.store) : groupInv h0 [] (∅, h0).
Proof.
  unfold groupInv. simpl. split_and!.
  - intros k l H. by rewrite lookup_empty in H.
  - intros k1 k2 l H. by rewrite lookup_empty in H.
  - done.
  - unfold Heap.contents, groupBy. simpl. by rewrite fmap_empty.
Qed.

Lemma groupInv_step (h0 : Heap.store) done_ st obj :
  groupInv h0 done_ st →
  groupInv h0 (done_ ++ [obj]) (Heap.groupByStep st obj).
Proof.
  destruct st as [out h]. intros (Hbkt & Hinj & Hold & Hcont). simpl in *.
  assert (∀ k, (λ l, Heap.read l h) <$> (out !! k) = groupBy done_ veh_Type !! k)
    as Hk.
  { intros k. by rewrite <- contents_lookup, Hcont. }
  unfold Heap.groupByStep.
  destruct (out !! veh_Type obj) as [bucket|] eqn:Hkey.
  - pose proof (Hbkt _ _ Hkey) as [Hfresh Hdom].
    unfold groupInv. simpl. split_and!.
    + intros k l Hl. pose proof (Hbkt _ _ Hl) as [? ?]. split; [done|].
      unfold Heap.push. by rewrite dom_alter_L.
    + done.
    + intros l Hl. unfold Heap.push. rewrite lookup_alter_ne; [by apply Hold|].
      intros ->. done.
    + apply map_eq. intros k.
      rewrite contents_lookup, groupBy_snoc, groupByStep_lookup.
      destruct (decide (veh_Type obj = k)) as [<-|Hne].
      * rewrite Hkey. simpl. rewrite read_push_eq by done.
        specialize (Hk (veh_Type obj)). rewrite Hkey in Hk. simpl in Hk.
        by rewrite <- Hk.
      * rewrite <- Hk. destruct (out !! k) as [l|] eqn:Hl; [|done]. simpl.
        rewrite read_push_ne; [done|].
        intros ->. apply Hne. by eapply Hinj.
  - unfold Heap.alloc. cbn zeta.
    pose proof (is_fresh (dom h)) as Hfresh.
    set (bucket := fresh (dom h)) in *.
    assert (∀ l, l ∈ dom h0 → l ∈ dom h) as Hsub.
    { intros l Hl. apply elem_of_dom. rewrite (Hold l Hl). by apply elem_of_dom. }
    unfold groupInv. simpl. split_and!.
    + intros k l Hl. unfold Heap.push. rewrite dom_alter_L, dom_insert_L.
      apply lookup_insert_Some in Hl as [[<- <-]|[Hne Hl]].
      * split; [|apply elem_of_union_l; by apply elem_of_singleton].
        intros Hin. by apply Hfresh, Hsub.
      * pose proof (Hbkt _ _ Hl) as [? ?]. split; [done|by apply elem_of_union_r].
    + intros k1 k2 l H1 H2.
      apply lookup_insert_Some in H1 as [[<- <-]|[Hne1 H1]];
        apply lookup_insert_Some in H2 as [[<- ?]|[Hne2 H2]]; try done.
      * exfalso. apply Hfresh. by apply (Hbkt _ _ H2).
      * subst. exfalso. apply Hfresh. by apply (Hbkt _ _ H1).
      * by eapply Hinj.
    + intros l Hl. unfold Heap.push.
      assert (bucket ≠ l) by (intros ->; by apply Hfresh, Hsub).
      rewrite lookup_alter_ne, lookup_insert_ne by done. by apply Hold.
    + apply map_eq. intros k.
      rewrite contents_lookup, groupBy_snoc, groupByStep_lookup.
      destruct (decide (veh_Type obj = k)) as [<-|Hne].
      * rewrite lookup_insert_eq. simpl.
        rewrite read_push_eq
          by (rewrite dom_insert_L; apply elem_of_union_l; by apply elem_of_singleton).
        rewrite read_insert_eq.
        specialize (Hk (veh_Type obj)). rewrite Hkey in Hk. simpl in Hk.
        by rewrite <- Hk.
      * rewrite lookup_insert_ne by done. rewrite <- Hk.
        destruct (out !! k) as [l|] eqn:Hl; [|done]. simpl.
        assert (bucket ≠ l).
        { intros ->. apply Hfresh. by apply (Hbkt _ _ Hl). }
        by rewrite read_push_ne, read_insert_ne.
Qed.

Lemma groupInv_fold (h0 : Heap.store) done_ todo st :
  groupInv h0 done_ st →
  groupInv h0 (done_ ++ todo) (fold_left Heap.groupByStep todo st).
Proof.
  revert done_ st. induction todo as [|obj todo IH]; intros done_ st H; simpl.
  - by rewrite app_nil_r.
  - replace (done_ ++ obj :: todo) with ((done_ ++ [obj]) ++ todo)
      by (by rewrite <- app_assoc).
    apply IH. by apply groupInv_step.
Qed.

Lemma heap_groupBy_spec (h : Heap.store) arr :
  groupInv h (Heap.read arr h) (Heap.groupBy arr h).
Proof. unfold Heap.groupBy. apply (groupInv_fold h [] _ (∅, h)), groupInv_init. Qed.

(* ------------------------------------------------------------------ *)
(** ** C7: fleet partitioning *)



Example partition_of_sample_roster :
  Heap.read 0 (Heap.partitionFleet 0 store_with_roster).2 = mixed_flag_roster ∧
  default [] (Heap.contents (Heap.partitionFleet 0 store_with_roster).1
                (Heap.partitionFleet 0 store_with_roster).2 !! "Large")
    = [ mkVehicle "BW1" "Large" (CStr "Y"); mkVehicle "BW6" "Large" (CStr "Y") ].
Proof. by vm_compute. Qed.

(** ** The matcher on the store *)

Lemma matchInv_skip h0 hst st line :
  matchInv h0 hst st →
  matchInv h0 (Heap.skip hst line)
    (mkAllocState (fleetGroups st) (allocationResults st) (assignedVanIds st)
                  (logLines st ++ [line])).
Proof.
  intros (H1 & H2 & H3 & H4 & H5 & H6 & H7).
  unfold matchInv, Heap.skip. simpl. split_and!; try done. by rewrite H7.
Qed.

Lemma matchInv_step h0 hst st route :
  matchInv h0 hst st →
  matchInv h0 (Heap.allocateRoute hst route) (allocateRoute st route).
Proof.
  intros Hinv. pose proof Hinv as (Hbkt & Hinj & Hold & Hcont & Hres & Hids & Hlog).
  unfold Heap.allocateRoute, allocateRoute.
  destruct (getVanType (rt_ServiceType route)) as [t|]; [|by apply matchInv_skip].
  destruct (negb (truthy (CStr t))); [by apply matchInv_skip|].
  assert ((λ l, Heap.read l (Heap.h_store hst)) <$> (Heap.h_fleetGroups hst !! t)
          = fleetGroups st !! t) as Ht.
  { by rewrite <- contents_lookup, Hcont. }
  destruct (Heap.h_fleetGroups hst !! t) as [bucket|] eqn:Hb; simpl in Ht.
  - rewrite <- Ht. unfold Heap.shift.
    destruct (Heap.read bucket (Heap.h_store hst)) as [|v rest] eqn:Hread.
    + by apply matchInv_skip.
    + pose proof (Hbkt _ _ Hb) as [Hfresh Hdom].
      unfold matchInv. simpl. split_and!.
      * intros k l Hl. pose proof (Hbkt _ _ Hl) as [? ?]. split; [done|].
        rewrite dom_insert_L. by apply elem_of_union_r.
      * done.
      * intros l Hl. rewrite lookup_insert_ne; [by apply Hold|].
        intros ->. done.
      * apply map_eq. intros k. rewrite contents_lookup.
        destruct (decide (t = k)) as [<-|Hne].
        -- rewrite Hb, lookup_insert_eq. simpl. by rewrite read_insert_eq.
        -- rewrite lookup_insert_ne by done.
           rewrite <- Hcont, contents_lookup.
           destruct (Heap.h_fleetGroups hst !! k) as [l|] eqn:Hl; [|done]. simpl.
           rewrite read_insert_ne; [done|].
           intros ->. apply Hne. by eapply Hinj.
      * by rewrite Hres.
      * by rewrite Hids.
      * by rewrite Hlog.
  - rewrite <- Ht. by apply matchInv_skip.
Qed.

Lemma matchInv_fold h0 routes hst st :
  matchInv h0 hst st →
  matchInv h0 (fold_left Heap.allocateRoute routes hst)
              (fold_left allocateRoute routes st).
Proof.
  revert hst st. induction routes as [|r routes IH]; intros hst st H; [done|].
  simpl. by apply IH, matchInv_step.
Qed.

(** The matcher with arrays in a store computes what the matcher on values
    computes, and leaves every array of the initial store, the roster
    included, as it found it: only the buckets made by [groupBy] are
    mutated by [shift]. *)
Lemma matcher_on_store (routes : list Route) (h : Heap.store)
    (fleetObj : Heap.loc) (roster : list Vehicle) :
  h !! fleetObj = Some roster →
  matchInv h (Heap.allocateVehiclesToRoutes routes fleetObj h)
             (allocateVehiclesToRoutes routes roster).
Proof.
  intros Hroster.
  unfold Heap.allocateVehiclesToRoutes, Heap.filterArray, Heap.alloc,
    allocateVehiclesToRoutes, allocInit.
  cbn zeta.
  assert (Heap.read fleetObj h = roster) as ->.
  { unfold Heap.read. by rewrite Hroster. }
  pose proof (is_fresh (dom h)) as Hfresh.
  set (operational := fresh (dom h)) in *.
  set (h1 := <[operational := filter isOperational roster]> h).
  pose proof (heap_groupBy_spec h1 operational) as (Hbkt & Hinj & Hold & Hcont).
  destruct (Heap.groupBy operational h1) as [groups h2]. simpl in *.
  assert (Heap.read operational h1 = operationalFleet roster) as Hop.
  { unfold h1. by rewrite read_insert_eq. }
  rewrite Hop in *.
  apply matchInv_fold. unfold matchInv. simpl. split_and!; try done.
  - intros k l Hl. pose proof (Hbkt _ _ Hl) as [Hn Hd]. split; [|done].
    intros Hin. apply Hn. unfold h1. rewrite dom_insert_L. by apply elem_of_union_r.
  - intros l Hl.
    rewrite Hold by (unfold h1; rewrite dom_insert_L; by apply elem_of_union_r).
    unfold h1. apply lookup_insert_ne. intros ->. done.
Qed.

(* ===================================================================== *)
(** * Further properties of the services *)
(* ===================================================================== *)

(** ** Sheet data as objects *)

Lemma fillRowObject_other dateText col headers row rowObj k :
  k ∉ cellText dateText <$> headers →
  fillRowObject dateText col headers row rowObj !! k = rowObj !! k.
Proof.
  revert col rowObj. induction headers as [|key rest IH]; intros col rowObj Hk; [done|].
  simpl. rewrite IH.
  - apply lookup_insert_ne. intros Heq. apply Hk. rewrite <- Heq. simpl. left.
  - intros Hin. apply Hk. simpl. by right.
Qed.

Lemma fillRowObject_last dateText col headers row rowObj j key :
  headers !! j = Some key →
  (∀ j' key', headers !! j' = Some key' → (j < j')%nat →
              cellText dateText key' ≠ cellText dateText key) →
  fillRowObject dateText col headers row rowObj !! cellText dateText key
    = Some (row !! (col + j)%nat).
Proof.
  revert col rowObj j.
  induction headers as [|key0 rest IH]; intros col rowObj j Hj Hlast; [done|].
  destruct j as [|j]; simpl in *.
  - injection Hj as ->. rewrite fillRowObject_other.
    + rewrite lookup_insert_eq. by rewrite Nat.add_0_r.
    + intros Hin. apply list_elem_of_fmap in Hin as (key' & Heq & Hin).
      apply list_elem_of_lookup in Hin as (j' & Hj').
      apply (Hlast (S j') key'); [done|lia|done].
  - rewrite (IH (S col) _ j Hj).
    + do 2 f_equal. lia.
    + intros j' key' Hj' Hlt. apply (Hlast (S j') key'); [done|lia].
Qed.




Lemma convertToObjectArray_short (dateText : Date → string) (data2D : list (list cell)) :
  (length data2D < 2)%nat → convertToObjectArray dateText data2D = [].
Proof. destruct data2D as [|? [|? ?]]; simpl; [done|done|lia]. Qed.

(** ** Required columns *)

Lemma indexOf_Some_elem (arr : list cell) (s : string) :
  isSomeb (indexOf arr (CStr s)) = true ↔ CStr s ∈ arr.
Proof.
  unfold indexOf. destruct (list_find _ arr) as [[i c]|] eqn:E; simpl.
  - apply list_find_Some in E as (Hi & Hc & _).
    apply strictEq_true in Hc as ->. split; [|done].
    intros _. by eapply list_elem_of_lookup_2.
  - split; [done|]. intros Hin.
    apply list_find_None in E. rewrite Forall_forall in E.
    specialize (E _ Hin). simpl in E. by rewrite String.eqb_refl in E.
Qed.

Lemma missingColumns_spec (actualHeaders : list cell) (requiredHeaders : list string) :
  missingColumns actualHeaders requiredHeaders =
    filter (λ req, CStr req ∉ actualHeaders) requiredHeaders.
Proof.
  unfold missingColumns. induction requiredHeaders as [|req rest IH]; [done|].
  simpl. rewrite filter_cons, IH.
  destruct (isSomeb (indexOf actualHeaders (CStr req))) eqn:E; simpl.
  - apply indexOf_Some_elem in E. by rewrite decide_False by (intros H; by apply H).
  - rewrite decide_True; [done|]. intros Hin. apply indexOf_Some_elem in Hin. congruence.
Qed.

Lemma verifyRequiredColumns_accepts (actualHeaders : list cell)
    (requiredHeaders : list string) (contextLabel : string) :
  verifyRequiredColumns actualHeaders requiredHeaders contextLabel = Ok tt ↔
  Forall (λ req, CStr req ∈ actualHeaders) requiredHeaders.
Proof.
  unfold verifyRequiredColumns. rewrite missingColumns_spec.
  destruct (filter _ requiredHeaders) as [|m ms] eqn:E.
  - split; [intros _|done].
    apply Forall_forall. intros req Hreq.
    destruct (decide (CStr req ∈ actualHeaders)) as [|Hn]; [done|].
    assert (req ∈ filter (λ req, CStr req ∉ actualHeaders) requiredHeaders) as Hin
      by (by apply list_elem_of_filter).
    rewrite E in Hin. by apply elem_of_nil in Hin.
  - split; [done|]. intros Hall.
    assert (m ∈ filter (λ req, CStr req ∉ actualHeaders) requiredHeaders) as Hin
      by (rewrite E; left).
    apply list_elem_of_filter in Hin as [Hm Hin].
    rewrite Forall_forall in Hall. by specialize (Hall _ Hin).
Qed.

(** X2: [verifyRequiredColumns] returns exactly when every required header
    is a text cell of the actual header row; otherwise its error names the
    missing headers, in the order they are required. *)
Theorem verifyRequiredColumns_spec (actualHeaders : list cell)
    (requiredHeaders : list string) (contextLabel : string) :
  (verifyRequiredColumns actualHeaders requiredHeaders contextLabel = Ok tt ↔
     Forall (λ req, CStr req ∈ actualHeaders) requiredHeaders) ∧
  (∀ msg, verifyRequiredColumns actualHeaders requiredHeaders contextLabel = Throw msg ↔
     filter (λ req, CStr req ∉ actualHeaders) requiredHeaders ≠ [] ∧
     msg = "Missing required columns in " +:+ contextLabel +:+ ": " +:+
           String.concat ", " (filter (λ req, CStr req ∉ actualHeaders) requiredHeaders)).
Proof.
  split; [apply verifyRequiredColumns_accepts|].
  unfold verifyRequiredColumns. rewrite missingColumns_spec.
  destruct (filter _ requiredHeaders) as [|m ms] eqn:E.
  - intros msg. split; [done|]. by intros [? _].
  - intros msg. split.
    + intros [= <-]. done.
    + intros [_ ->]. done.
Qed.

(** X3: once [verifyRequiredColumns] has accepted the header row of a
    rectangular sheet, every object of [convertToObjectArray] holds a cell
    (never [undefined]) under every required column. *)
Theorem verified_columns_are_fields (dateText : Date → string)
    (headers : list cell) (rows : list (list cell))
    (requiredHeaders : list string) (contextLabel : string) :
  verifyRequiredColumns headers requiredHeaders contextLabel = Ok tt →
  Forall (λ row, length row = length headers) rows →
  ∀ rowObj req,
    rowObj ∈ convertToObjectArray dateText (headers :: rows) →
    req ∈ requiredHeaders →
    ∃ v, rowObj !! req = Some (Some v).
Proof.
  intros Hok Hrect rowObj req Hobj Hreq.
  apply verifyRequiredColumns_accepts in Hok. rewrite Forall_forall in Hok.
  specialize (Hok _ Hreq).
  destruct rows as [|row0 rows']; [by apply elem_of_nil in Hobj|].
  unfold convertToObjectArray in Hobj.
  apply list_elem_of_fmap in Hobj as (row & -> & Hrow).
  rewrite Forall_forall in Hrect. specialize (Hrect _ Hrow).
  (* the last column whose header has the text [req] *)
  assert (∃ col key, headers !! col = Some key ∧ cellText dateText key = req ∧
            ∀ col' key', headers !! col' = Some key' → (col < col')%nat →
                         cellText dateText key' ≠ req) as (col & key & Hcol & Hkey & Hlast).
  { clear Hrect Hrow. induction headers as [|h hs IH]; [by apply elem_of_nil in Hok|].
    destruct (decide (req ∈ cellText dateText <$> hs)) as [Hin|Hnin].
    - assert (∃ col key, hs !! col = Some key ∧ cellText dateText key = req ∧
                ∀ col' key', hs !! col' = Some key' → (col < col')%nat →
                             cellText dateText key' ≠ req) as (col & key & ? & ? & Hl).
      { clear IH Hok. induction hs as [|h' hs' IH']; [by apply elem_of_nil in Hin|].
        destruct (decide (req ∈ cellText dateText <$> hs')) as [Hin'|Hnin'].
        - destruct (IH' Hin') as (col & key & ? & ? & Hl).
          exists (S col), key. split; [done|]. split; [done|].
          intros [|col'] key' Hc Hlt; [lia|]. apply (Hl col' key'); [done|lia].
        - exists 0%nat, h'. simpl in Hin. apply elem_of_cons in Hin as [Heq|?]; [|done].
          split; [done|]. split; [done|].
          intros [|col'] key' Hc Hlt; [lia|]. simpl in Hc.
          intros <-. apply Hnin'. apply list_elem_of_fmap. exists key'.
          split; [done|]. by eapply list_elem_of_lookup_2. }
      exists (S col), key. split; [done|]. split; [done|].
      intros [|col'] key' Hc Hlt; [lia|]. apply (Hl col' key'); [done|lia].
    - exists 0%nat, h. apply elem_of_cons in Hok as [<-|Hin].
      + split; [done|]. split; [done|].
        intros [|col'] key' Hc Hlt; [lia|]. simpl in Hc.
        intros Heq. apply Hnin. apply list_elem_of_fmap. exists key'.
        split; [done|]. by eapply list_elem_of_lookup_2.
      + exfalso. apply Hnin. apply list_elem_of_fmap. by exists (CStr req). }
  subst req.
  rewrite (fillRowObject_last _ _ _ _ _ col key Hcol).
  - simpl. apply lookup_lt_Some in Hcol. rewrite <- Hrect in Hcol.
    apply lookup_lt_is_Some in Hcol as [v ->]. by exists v.
  - intros col' key' Hc Hlt. by apply (Hlast col' key').
Qed.

Lemma verified_columns_are_fields_witness :
  ∃ v, fillRowObject (λ _, "") 0 [CStr "Route code"; CStr "Driver name"]
                     [CStr "CX1"; CStr "Dana Reyes"] ∅ !! "Driver name"
       = Some (Some v).
Proof.
  apply (verified_columns_are_fields (λ _, "")
           [CStr "Route code"; CStr "Driver name"]
           [[CStr "CX1"; CStr "Dana Reyes"]]
           ["Route code"; "Driver name"] "DailyRoutes (Routes)").
  - reflexivity.
  - repeat constructor.
  - left.
  - right. left.
Defined.

(** ** File ids *)

Lemma append_cons x (a b : string) : String x a +:+ b = String x (a +:+ b).
Proof. reflexivity. Qed.

Lemma string_app_assoc (a b c : string) : (a +:+ b) +:+ c = a +:+ (b +:+ c).
Proof.
  induction a as [|x a IH]; [done|].
  rewrite !append_cons. f_equal. exact IH.
Qed.

Lemma isIdChar_not_space c : isIdChar c = true → isSpace c = false.
Proof.
  destruct c as [[] [] [] [] [] [] [] []]; vm_compute; congruence.
Qed.

Lemma trimStart_spaces lead s : allSpace lead = true → trimStart (lead +:+ s) = trimStart s.
Proof.
  induction lead as [|c lead IH]; simpl; [done|].
  intros H. apply andb_prop in H as [Hc Hl]. rewrite Hc. by apply IH.
Qed.

Lemma trimEnd_spaces trail : allSpace trail = true → trimEnd trail = "".
Proof.
  induction trail as [|c trail IH]; simpl; [done|].
  intros H. apply andb_prop in H as [Hc Hl]. by rewrite (IH Hl), Hc.
Qed.

Lemma trimEnd_id_spaces id trail :
  allIdChars id = true → allSpace trail = true → trimEnd (id +:+ trail) = id.
Proof.
  intros Hid Htrail. induction id as [|c id IH]; simpl.
  - by apply trimEnd_spaces.
  - simpl in Hid. apply andb_prop in Hid as [Hc Hid].
    rewrite (IH Hid). destruct id; [|done].
    by rewrite (isIdChar_not_space _ Hc).
Qed.

Lemma allIdChars_app a b : allIdChars (a +:+ b) = allIdChars a && allIdChars b.
Proof. induction a as [|c a IH]; simpl; [done|]. by rewrite IH, andb_assoc. Qed.

Lemma idRun_allIdChars s : allIdChars (idRun s) = true.
Proof. induction s as [|c s IH]; simpl; [done|]. destruct (isIdChar c) eqn:E; simpl; [|done]. by rewrite E. Qed.

Lemma idRun_app id rest :
  allIdChars id = true → idRun rest = "" → idRun (id +:+ rest) = id.
Proof.
  intros Hid Hrest. induction id as [|c id IH]; simpl; [done|].
  simpl in Hid. apply andb_prop in Hid as [Hc Hid]. by rewrite Hc, (IH Hid).
Qed.

Lemma idRun_empty_app tail x : tail ≠ "" → idRun tail = "" → idRun (tail +:+ x) = "".
Proof.
  destruct tail as [|c tail]; [done|]. simpl. intros _.
  by destruct (isIdChar c).
Qed.

Lemma afterSlashD_Some s tail : afterSlashD s = Some tail → s = "/d/" +:+ tail.
Proof.
  destruct s as [|a [|b [|c t]]]; simpl; try done.
  destruct (Ascii.eqb a "/") eqn:Ea; [|done].
  destruct (Ascii.eqb b "d") eqn:Eb; [|done].
  destruct (Ascii.eqb c "/") eqn:Ec; [|done]. simpl.
  apply Ascii.eqb_eq in Ea, Eb, Ec. by intros [= ->]; subst.
Qed.

Lemma afterSlashD_app_None s x :
  (3 ≤ String.length s)%nat → afterSlashD s = None → afterSlashD (s +:+ x) = None.
Proof.
  destruct s as [|a [|b [|c t]]]; simpl; try lia.
  intros _ H. by destruct (_ && _).
Qed.

Lemma afterSlashD_app_Some s tail x :
  afterSlashD s = Some tail → afterSlashD (s +:+ x) = Some (tail +:+ x).
Proof.
  destruct s as [|a [|b [|c t]]]; simpl; try done.
  destruct (_ && _); [|done]. by intros [= ->].
Qed.

Lemma matchUrlId_shape s id :
  matchUrlId s = Some id → id ≠ "" ∧ allIdChars id = true.
Proof.
  induction s as [|c s IH]; [done|].
  cbn [matchUrlId]. destruct (afterSlashD (String c s)) as [tail|]; [|done].
  destruct (idRun tail) as [|x run] eqn:E; [done|].
  intros [= <-]. split; [done|]. rewrite <- E. apply idRun_allIdChars.
Qed.

Lemma matchUrlId_found prefix id rest :
  matchUrlId (prefix +:+ "/d/") = None →
  id ≠ "" → allIdChars id = true → idRun rest = "" →
  matchUrlId (prefix +:+ "/d/" +:+ id +:+ rest) = Some id.
Proof.
  intros Hpre Hid Hall Hrest. induction prefix as [|c p IH].
  - change ("" +:+ "/d/" +:+ id +:+ rest) with (String "/" (String "d" (String "/" (id +:+ rest)))).
    cbn [matchUrlId afterSlashD]. simpl Ascii.eqb. cbn [andb].
    rewrite (idRun_app _ _ Hall Hrest). by destruct id.
  - change (String c p +:+ "/d/") with (String c (p +:+ "/d/")) in Hpre.
    change (String c p +:+ "/d/" +:+ id +:+ rest)
      with (String c (p +:+ "/d/" +:+ id +:+ rest)).
    cbn [matchUrlId] in Hpre |- *.
    assert (String c (p +:+ "/d/" +:+ id +:+ rest)
            = String c (p +:+ "/d/") +:+ (id +:+ rest)) as Heq.
    { rewrite (append_cons c (p +:+ "/d/")). f_equal. by rewrite string_app_assoc. }
    destruct (afterSlashD (String c (p +:+ "/d/"))) as [tail|] eqn:Ea.
    + apply afterSlashD_Some in Ea as Es.
      destruct (idRun tail) as [|x run] eqn:Er; [|done].
      assert (tail ≠ "") as Htail.
      { intros ->. apply (f_equal String.length) in Es. simpl in Es.
        rewrite string_length_append in Es. simpl in Es. lia. }
      rewrite Heq, (afterSlashD_app_Some _ _ _ Ea).
      rewrite (idRun_empty_app _ _ Htail Er).
      by apply IH.
    + assert (3 ≤ String.length (String c (p +:+ "/d/")))%nat as Hlen.
      { simpl. rewrite string_length_append. simpl. lia. }
      rewrite Heq, (afterSlashD_app_None _ _ Hlen Ea). by apply IH.
Qed.

(** X4: a bare file id (thirty or more id characters) is returned as it
    is, whatever white space surrounds it. *)
Theorem extractFileId_bare_id (lead id trail : string) :
  allSpace lead = true → allSpace trail = true →
  allIdChars id = true → (30 ≤ String.length id)%nat →
  extractFileId (lead +:+ id +:+ trail) = Ok id.
Proof.
  intros Hlead Htrail Hid Hlen. unfold extractFileId, trim.
  rewrite (trimStart_spaces _ _ Hlead).
  assert (trimStart (id +:+ trail) = id +:+ trail) as ->.
  { destruct id as [|c id]; [simpl in Hlen; lia|]. simpl.
    simpl in Hid. apply andb_prop in Hid as [Hc _].
    by rewrite (isIdChar_not_space _ Hc). }
  rewrite (trimEnd_id_spaces _ _ Hid Htrail).
  unfold isFileId. rewrite Hid.
  apply Nat.leb_le in Hlen. by rewrite Hlen.
Qed.

Lemma extractFileId_bare_id_witness :
  extractFileId ("  " +:+ "1fgwW9tcozBqiB6zrpg7jzactFMkzpRXCcmPs0eUsaqI" +:+ " ")
    = Ok "1fgwW9tcozBqiB6zrpg7jzactFMkzpRXCcmPs0eUsaqI".
Proof.
  apply (extractFileId_bare_id "  " "1fgwW9tcozBqiB6zrpg7jzactFMkzpRXCcmPs0eUsaqI" " ").
  - reflexivity.
  - reflexivity.
  - reflexivity.
  - simpl. lia.
Defined.

(** X5: from a URL the id after the first "/d/" that an id character
    follows is extracted: the whole run of id characters, however short,
    up to the next other character. *)
Theorem extractFileId_url (prefix id rest : string) :
  trim (prefix +:+ "/d/" +:+ id +:+ rest) = prefix +:+ "/d/" +:+ id +:+ rest →
  matchUrlId (prefix +:+ "/d/") = None →
  id ≠ "" → allIdChars id = true → idRun rest = "" →
  extractFileId (prefix +:+ "/d/" +:+ id +:+ rest) = Ok id.
Proof.
  intros Htrim Hpre Hid Hall Hrest. unfold extractFileId. rewrite Htrim.
  assert (isFileId (prefix +:+ "/d/" +:+ id +:+ rest) = false) as ->.
  { unfold isFileId. rewrite !allIdChars_app. simpl.
    by rewrite andb_false_r. }
  by rewrite (matchUrlId_found _ _ _ Hpre Hid Hall Hrest).
Qed.

Lemma extractFileId_url_witness :
  extractFileId ("https://docs.google.com/spreadsheets" +:+ "/d/" +:+
                 "1_WxSEO5uw47" +:+ "/edit#gid=0") = Ok "1_WxSEO5uw47".
Proof.
  apply (extractFileId_url "https://docs.google.com/spreadsheets" "1_WxSEO5uw47"
                           "/edit#gid=0").
  - reflexivity.
  - reflexivity.
  - done.
  - reflexivity.
  - reflexivity.
Defined.

(** X6: whatever [extractFileId] returns is a non-empty string of id
    characters: no white space, no slash, nothing of the rest of a URL. *)
Theorem extractFileId_result (input id : string) :
  extractFileId input = Ok id → id ≠ "" ∧ allIdChars id = true.
Proof.
  unfold extractFileId. destruct (isFileId (trim input)) eqn:E.
  - intros [= <-]. unfold isFileId in E. apply andb_prop in E as [Hall Hlen].
    split; [|done]. intros Heq. rewrite Heq in Hlen. done.
  - destruct (matchUrlId (trim input)) as [m|] eqn:Em; [|done].
    intros [= <-]. by apply matchUrlId_shape in Em.
Qed.

Lemma extractFileId_result_witness :
  "1_WxSEO5uw47" ≠ "" ∧ allIdChars "1_WxSEO5uw47" = true.
Proof.
  apply (extractFileId_result
           "https://docs.google.com/spreadsheets/d/1_WxSEO5uw47/edit#gid=0").
  reflexivity.
Defined.

(** Without "/d/" a short id is refused. *)
Lemma extractFileId_short_id_throws :
  extractFileId "1_WxSEO5uw47" =
    Throw ("Could not parse file ID from the provided input:" +:+
           String "010"%char "1_WxSEO5uw47").
Proof. reflexivity. Qed.

(** ** Escaping of driver notes *)

Lemma chars_app (a b : string) :
  list_ascii_of_string (a +:+ b) = list_ascii_of_string a ++ list_ascii_of_string b.
Proof.
  induction a as [|c a IH]; [done|].
  rewrite append_cons. simpl. by rewrite IH.
Qed.

Lemma escapeChar_cases c :
  (c = "&"%char ∧ escapeChar c = "&amp;") ∨
  (c = "<"%char ∧ escapeChar c = "&lt;") ∨
  (c = ">"%char ∧ escapeChar c = "&gt;") ∨
  (c = dquote ∧ escapeChar c = "&quot;") ∨
  (c = "'"%char ∧ escapeChar c = "&#039;") ∨
  ((c ∉ "&"%char :: markupChars) ∧ escapeChar c = String c "").
Proof.
  unfold escapeChar.
  destruct (Ascii.eqb c "&") eqn:E1; [apply Ascii.eqb_eq in E1; by left|right].
  destruct (Ascii.eqb c "<") eqn:E2; [apply Ascii.eqb_eq in E2; by left|right].
  destruct (Ascii.eqb c ">") eqn:E3; [apply Ascii.eqb_eq in E3; by left|right].
  destruct (Ascii.eqb c dquote) eqn:E4; [apply Ascii.eqb_eq in E4; by left|right].
  destruct (Ascii.eqb c "'") eqn:E5; [apply Ascii.eqb_eq in E5; by left|right].
  split; [|done].
  apply Ascii.eqb_neq in E1, E2, E3, E4, E5.
  unfold markupChars. rewrite !elem_of_cons, elem_of_nil. tauto.
Qed.

Lemma escapeChar_safe c :
  Forall (λ x, x ∉ markupChars) (list_ascii_of_string (escapeChar c)).
Proof.
  destruct (escapeChar_cases c) as [[_ ->]|[[_ ->]|[[_ ->]|[[_ ->]|[[_ ->]|[Hc ->]]]]]];
    simpl; repeat constructor;
    try (unfold markupChars; rewrite !elem_of_cons, elem_of_nil;
         intros [?|[?|[?|[?|[]]]]]; discriminate).
  intros Hin. apply Hc. by right.
Qed.

(** X7: the escaped text holds no less-than, greater-than, double quote
    or apostrophe, whatever the text was. *)
Theorem escapeHtml_no_markup (text : string) :
  Forall (λ c, c ∉ markupChars) (list_ascii_of_string (escapeHtml text)).
Proof.
  induction text as [|c text IH]; [constructor|].
  cbn [escapeHtml]. rewrite chars_app. apply Forall_app. split; [|done].
  apply escapeChar_safe.
Qed.

Lemma escapeChar_head c x d y :
  escapeChar c +:+ x = escapeChar d +:+ y → c = d ∧ x = y.
Proof.
  destruct (escapeChar_cases c) as [[-> ->]|[[-> ->]|[[-> ->]|[[-> ->]|[[-> ->]|[Hc ->]]]]]];
  destruct (escapeChar_cases d) as [[-> ->]|[[-> ->]|[[-> ->]|[[-> ->]|[[-> ->]|[Hd ->]]]]]];
    rewrite ?append_cons; change (EmptyString +:+ x) with x;
    change (EmptyString +:+ y) with y; intros Heq;
    try (injection Heq as ->; done); try discriminate Heq.
  all: injection Heq as Hh Ht.
  all: try (exfalso; apply Hd; rewrite <- Hh; left).
  all: try (exfalso; apply Hc; rewrite Hh; left).
Qed.

(** X8: [escapeHtml] loses nothing: two texts with the same escaped form
    are the same text. *)
Theorem escapeHtml_injective (a b : string) :
  escapeHtml a = escapeHtml b → a = b.
Proof.
  revert b. induction a as [|c a IH]; intros [|d b]; cbn [escapeHtml].
  - done.
  - intros H. exfalso.
    destruct (escapeChar_cases d) as [[_ E]|[[_ E]|[[_ E]|[[_ E]|[[_ E]|[_ E]]]]]];
      rewrite E in H; discriminate H.
  - intros H. exfalso.
    destruct (escapeChar_cases c) as [[_ E]|[[_ E]|[[_ E]|[[_ E]|[[_ E]|[_ E]]]]]];
      rewrite E in H; discriminate H.
  - intros H. apply escapeChar_head in H as [-> H]. f_equal. by apply IH.
Qed.

Lemma escapeHtml_injective_witness : "<b>R&D</b>" = "<b>R&D</b>".
Proof. apply (escapeHtml_injective "<b>R&D</b>" "<b>R&D</b>"). reflexivity. Defined.

(** Escaping is not idempotent: the ampersand of an entity is escaped
    again. *)
Example escapeHtml_twice : escapeHtml (escapeHtml "<") = "&amp;lt;".
Proof. reflexivity. Qed.

(** ** The date the web form submits *)

Lemma noChar_app x a b : noChar x (a +:+ b) = noChar x a && noChar x b.
Proof.
  induction a as [|c a IH]; [done|].
  rewrite append_cons. simpl. by rewrite IH, andb_assoc.
Qed.

Lemma splitOn_nonempty sep s : splitOn sep s ≠ [].
Proof.
  destruct s as [|c s]; simpl; [done|].
  destruct (Ascii.eqb c sep); [done|]. by destruct (splitOn sep s).
Qed.

Lemma splitOn_piece sep a b :
  noChar sep a = true →
  splitOn sep (a +:+ String sep b) = a :: splitOn sep b.
Proof.
  intros Ha. induction a as [|c a IH].
  - change ("" +:+ String sep b) with (String sep b). simpl.
    by rewrite Ascii.eqb_refl.
  - rewrite append_cons. simpl in Ha |- *.
    apply andb_prop in Ha as [Hc Ha]. apply negb_true_iff in Hc.
    by rewrite Hc, (IH Ha).
Qed.

Lemma splitOn_dash a b :
  noChar "-" a = true → splitOn "-" (a +:+ "-" +:+ b) = a :: splitOn "-" b.
Proof. apply (splitOn_piece "-" a b). Qed.

Lemma splitOn_last sep a : noChar sep a = true → splitOn sep a = [a].
Proof.
  intros Ha. induction a as [|c a IH]; [done|]. simpl in Ha |- *.
  apply andb_prop in Ha as [Hc Ha]. apply negb_true_iff in Hc.
  by rewrite Hc, (IH Ha).
Qed.

Lemma string_of_uint_digits d : noChar "-" (NilEmpty.string_of_uint d) = true.
Proof. induction d; simpl; done. Qed.

Lemma natToString_digits n : noChar "-" (natToString n) = true.
Proof.
  unfold natToString, NilZero.string_of_uint.
  destruct (Nat.to_uint n); try done; apply (string_of_uint_digits (_ _)).
Qed.

Lemma zeros_digits k : noChar "-" (zeros k) = true.
Proof. induction k as [|k IH]; [done|]. cbn [zeros]. by rewrite noChar_app, IH. Qed.

Lemma padNum_digits w n : noChar "-" (padNum w n) = true.
Proof. unfold padNum. by rewrite noChar_app, zeros_digits, natToString_digits. Qed.

Lemma year_four_digits y :
  (1000 ≤ y < 100 * 100)%nat → padNum 4 y = natToString y.
Proof.
  intros Hy.
  assert (forallb (λ n, String.eqb (padNum 4 (1000 + n)) (natToString (1000 + n)))
                  (seq 0 (90 * 100)) = true) as H by (by vm_compute).
  rewrite forallb_forall in H.
  specialize (H (y - 1000)%nat). replace (1000 + (y - 1000))%nat with y in H by lia.
  apply String.eqb_eq, H, in_seq. lia.
Qed.

(** X9: the date the web form submits is the date text the server
    writes and compares with: for a four-digit year the form's
    conversion of its date input gives exactly [formatDate] of that day,
    and so does [getTodayFormatted]. *)
Theorem form_date_is_server_date (d : Date) :
  (1000 ≤ dyear d < 100 * 100)%nat →
  formatDateInput (dateInputValue d) = formatDate d ∧
  getTodayFormatted d = formatDate d.
Proof.
  intros Hy. unfold formatDateInput, dateInputValue, getTodayFormatted, formatDate.
  rewrite (year_four_digits _ Hy). split; [|done].
  assert (truthy (CStr (natToString (dyear d) +:+ "-" +:+ padNum 2 (dmonth d) +:+
                        "-" +:+ padNum 2 (dday d))) = true) as ->.
  { apply truthy_CStr. intros H. apply (f_equal String.length) in H.
    rewrite !string_length_append in H. simpl in H. lia. }
  cbn [negb].
  rewrite (splitOn_dash _ _ (natToString_digits _)).
  rewrite (splitOn_dash _ _ (padNum_digits _ _)).
  rewrite (splitOn_last _ _ (padNum_digits _ _)).
  reflexivity.
Qed.

Lemma form_date_is_server_date_witness :
  formatDateInput (dateInputValue (mkDate 2025 2 11)) = formatDate (mkDate 2025 2 11) ∧
  getTodayFormatted (mkDate 2025 2 11) = formatDate (mkDate 2025 2 11).
Proof. apply (form_date_is_server_date (mkDate 2025 2 11)). simpl. lia. Defined.

(** ** The exported column order *)

(** X10: every exported row has ten columns; for a row of at least ten
    columns they are its first ten columns in another order, so nothing
    of them is lost or repeated and the eleventh column (the identifier of
    a Results row) is left out. *)
Theorem reorderRow_permutes (displayRow : list string) :
  length (reorderRow displayRow) = 10%nat ∧
  ((10 ≤ length displayRow)%nat → reorderRow displayRow ≡ₚ take 10 displayRow).
Proof.
  split; [done|]. intros Hlen.
  destruct displayRow as [|c1 [|c2 [|c3 [|c4 [|c5 [|c6 [|c7 [|c8 [|c9 [|c10 rest]]]]]]]]]];
    simpl in Hlen; try lia.
  unfold reorderRow, columnOrder. simpl.
  (* [c4; c10; c6; c7; c1; c5; c2; c8; c9; c3] *)
  symmetry.
  apply (Permutation_cons_app [c4; c10; c6; c7] [c5; c2; c8; c9; c3]). simpl.
  apply (Permutation_cons_app [c4; c10; c6; c7; c5] [c8; c9; c3]). simpl.
  apply (Permutation_cons_app [c4; c10; c6; c7; c5; c8; c9] []). simpl.
  apply (Permutation_cons_app [] [c10; c6; c7; c5; c8; c9]). simpl.
  apply (Permutation_cons_app [c10; c6; c7] [c8; c9]). simpl.
  apply (Permutation_cons_app [c10] [c7; c8; c9]). simpl.
  apply (Permutation_cons_app [c10] [c8; c9]). simpl.
  apply (Permutation_cons_app [c10] [c9]). simpl.
  apply (Permutation_cons_app [c10] []). simpl.
  done.
Qed.

(** ** The list of allowed names *)

Lemma pushIfAbsent_prefix arr x : arr `prefix_of` pushIfAbsent arr x.
Proof.
  unfold pushIfAbsent. destruct (indexOf arr x); [done|]. by apply prefix_app_r.
Qed.

Lemma pushIfAbsent_elem arr x : x ∈ pushIfAbsent arr x.
Proof.
  unfold pushIfAbsent, indexOf.
  destruct (list_find _ arr) as [[i c]|] eqn:E; simpl.
  - apply list_find_Some in E as (Hi & Hc & _).
    apply strictEq_true in Hc as ->. by eapply list_elem_of_lookup_2.
  - apply elem_of_app. right. left.
Qed.

Lemma pushIfAbsent_origin arr x v : v ∈ pushIfAbsent arr x → v ∈ arr ∨ v = x.
Proof.
  unfold pushIfAbsent. destruct (indexOf arr x); [by left|].
  rewrite elem_of_app, list_elem_of_singleton. tauto.
Qed.

Lemma pushIfAbsent_NoDup arr x : notDate x → NoDup arr → NoDup (pushIfAbsent arr x).
Proof.
  intros Hx Hnd. unfold pushIfAbsent, indexOf.
  destruct (list_find _ arr) as [[i c]|] eqn:E; simpl; [done|].
  apply NoDup_app. split; [done|]. split; [|apply NoDup_singleton].
  intros v Hv Hvx. apply list_elem_of_singleton in Hvx as ->.
  apply list_find_None in E. rewrite Forall_forall in E.
  specialize (E _ Hv). simpl in E. by rewrite strictEq_refl in E.
Qed.

Lemma fold_pushIfAbsent_prefix xs arr : arr `prefix_of` fold_left pushIfAbsent xs arr.
Proof.
  revert arr. induction xs as [|x xs IH]; intros arr; simpl; [done|].
  etrans; [apply (pushIfAbsent_prefix arr x)|apply IH].
Qed.

Lemma fold_pushIfAbsent_elem xs arr v :
  v ∈ arr ∨ v ∈ xs → v ∈ fold_left pushIfAbsent xs arr.
Proof.
  revert arr. induction xs as [|x xs IH]; intros arr; simpl.
  - intros [?|H]; [done|]. by apply elem_of_nil in H.
  - intros [H|H]; apply IH.
    + left. destruct (pushIfAbsent_prefix arr x) as [k ->].
      apply elem_of_app. by left.
    + apply elem_of_cons in H as [->|H]; [left; apply pushIfAbsent_elem|by right].
Qed.

Lemma fold_pushIfAbsent_origin xs arr v :
  v ∈ fold_left pushIfAbsent xs arr → v ∈ arr ∨ v ∈ xs.
Proof.
  revert arr. induction xs as [|x xs IH]; intros arr; simpl; [by left|].
  intros H. apply IH in H as [H|H]; [|right; by right].
  apply pushIfAbsent_origin in H as [H| ->]; [by left|right; left].
Qed.

Lemma fold_pushIfAbsent_NoDup xs arr :
  Forall notDate xs → NoDup arr → NoDup (fold_left pushIfAbsent xs arr).
Proof.
  revert arr. induction xs as [|x xs IH]; intros arr Hxs Hnd; simpl; [done|].
  apply Forall_cons in Hxs as [Hx Hxs]. apply IH; [done|].
  by apply pushIfAbsent_NoDup.
Qed.

Lemma newNamesOf_fold newRows acc v :
  v ∈ fold_left (λ newNames r,
                   let assoc := nr_Name r in
                   if truthy assoc then pushIfAbsent newNames assoc else newNames)
                newRows acc ↔
  v ∈ acc ∨ ∃ r, r ∈ newRows ∧ v = nr_Name r ∧ truthy v = true.
Proof.
  revert acc. induction newRows as [|r rs IH]; intros acc; simpl.
  - split; [by left|]. intros [?|(r & Hr & _)]; [done|]. by apply elem_of_nil in Hr.
  - rewrite IH. split.
    + intros [H|(r' & Hr' & Hv)].
      * destruct (truthy (nr_Name r)) eqn:Et; [|by left].
        apply pushIfAbsent_origin in H as [H| ->]; [by left|].
        right. exists r. split; [left|done].
      * right. exists r'. split; [by right|done].
    + intros [H|(r' & Hr' & Hv & Ht)].
      * left. destruct (truthy (nr_Name r)); [|done].
        destruct (pushIfAbsent_prefix acc (nr_Name r)) as [k ->].
        apply elem_of_app. by left.
      * apply elem_of_cons in Hr' as [->|Hr'].
        -- left. subst v. rewrite Ht. apply pushIfAbsent_elem.
        -- right. by exists r'.
Qed.

(** X11: the validation list only grows: the values allowed so far stay
    at the front in their order, every non-empty associate name of the new
    rows is allowed afterwards, nothing else is added, and a list without
    repetition stays without repetition when the names are text. *)
Theorem validation_list_grows (allowedValues : list cell) (newRows : list NewRow) :
  allowedValues `prefix_of` unionAllowed allowedValues newRows ∧
  (∀ v, v ∈ unionAllowed allowedValues newRows ↔
        v ∈ allowedValues ∨
        ∃ r, r ∈ newRows ∧ v = nr_Name r ∧ truthy v = true) ∧
  (Forall (λ r, notDate (nr_Name r)) newRows → NoDup allowedValues →
   NoDup (unionAllowed allowedValues newRows)).
Proof.
  unfold unionAllowed, newNamesOf. split; [apply fold_pushIfAbsent_prefix|]. split.
  - intros v. split.
    + intros H. apply fold_pushIfAbsent_origin in H as [H|H]; [by left|].
      apply newNamesOf_fold in H as [H|H]; [by apply elem_of_nil in H|by right].
    + intros [H|H]; apply fold_pushIfAbsent_elem; [by left|right].
      apply newNamesOf_fold. by right.
  - intros Htext Hnd. apply fold_pushIfAbsent_NoDup; [|done].
    apply Forall_forall. intros v Hv.
    apply newNamesOf_fold in Hv as [Hv|(r & Hr & -> & _)]; [by apply elem_of_nil in Hv|].
    rewrite Forall_forall in Htext. by apply Htext.
Qed.

(** ** The choices of the web form *)




(** ** Today's routes *)

Lemma routeChoice_fold dateText today rows st :
  let out := fold_left (routeChoiceStep dateText today) rows st in
  (∀ k, hasCell out.1 k =
        hasCell st.1 k ||
        existsb (λ row, rowDateIs (dd_Date row) today && truthy (dd_Route row) &&
                        strictEq (dd_Route row) k) rows) ∧
  ∃ added, out.2 = st.2 ++ (cellText dateText <$> added) ∧
    (∀ c, c ∈ added → hasCell st.1 c = false ∧
          ∃ row, row ∈ rows ∧ rowDateIs (dd_Date row) today = true ∧
                 truthy (dd_Route row) = true ∧ dd_Route row = c) ∧
    (∀ row, row ∈ rows → rowDateIs (dd_Date row) today = true →
            truthy (dd_Route row) = true →
            hasCell st.1 (dd_Route row) = true ∨ dd_Route row ∈ added) ∧
    (Forall notDate added → NoDup added).
Proof.
  revert st. induction rows as [|row rows IH]; intros st out.
  - split; [intros k; simpl; by rewrite orb_false_r|].
    exists []. split; [by rewrite app_nil_r|]. split; [|split].
    + intros c Hc. by apply elem_of_nil in Hc.
    + intros row Hr. by apply elem_of_nil in Hr.
    + intros _. constructor.
  - subst out. cbn [fold_left].
    destruct (IH (routeChoiceStep dateText today st row)) as (Hset & added & Hout & Hnew & Hall & Hnd).
    unfold routeChoiceStep in *.
    destruct (rowDateIs (dd_Date row) today) eqn:Ed; cycle 1.
    { split.
      - intros k. rewrite Hset. simpl. by rewrite Ed.
      - exists added. split; [done|]. split; [|split; [|done]].
        + intros c Hc. destruct (Hnew c Hc) as (? & r & Hr & ?).
          split; [done|]. exists r. split; [by right|done].
        + intros r Hr Hd Ht. apply elem_of_cons in Hr as [->|Hr]; [congruence|].
          by apply Hall. }
    destruct (truthy (dd_Route row)) eqn:Et; cycle 1.
    { split.
      - intros k. rewrite Hset. simpl. by rewrite Ed, Et.
      - exists added. split; [done|]. split; [|split; [|done]].
        + intros c Hc. destruct (Hnew c Hc) as (? & r & Hr & ?).
          split; [done|]. exists r. split; [by right|done].
        + intros r Hr Hd Ht'. apply elem_of_cons in Hr as [->|Hr]; [congruence|].
          by apply Hall. }
    destruct (hasCell st.1 (dd_Route row)) eqn:Eh; simpl in *.
    { split.
      - intros k. rewrite Hset. rewrite Ed, Et. simpl.
        destruct (strictEq (dd_Route row) k) eqn:Ek; [|done].
        simpl. rewrite orb_true_r.
        assert (hasCell st.1 k = true) as ->; [|done].
        unfold hasCell in *. apply existsb_exists in Eh as (y & Hy & Hyk).
        apply existsb_exists. exists y. split; [done|].
        by eapply strictEq_trans.
      - exists added. split; [done|]. split; [|split; [|done]].
        + intros c Hc. destruct (Hnew c Hc) as (? & r & Hr & ?).
          split; [done|]. exists r. split; [by right|done].
        + intros r Hr Hd Ht'. apply elem_of_cons in Hr as [->|Hr]; [by left|].
          by apply Hall. }
    split.
    + intros k. rewrite Hset, hasCell_setAdd, Ed, Et. simpl.
      by rewrite orb_assoc.
    + exists (dd_Route row :: added). split; [|split; [|split]].
      * rewrite Hout. simpl. by rewrite <- app_assoc.
      * intros c Hc. apply elem_of_cons in Hc as [->|Hc].
        -- split; [done|]. exists row. split; [left|done].
        -- destruct (Hnew c Hc) as (Hn & r & Hr & ?).
           rewrite hasCell_setAdd in Hn. apply orb_false_elim in Hn as [Hn _].
           split; [done|]. exists r. split; [by right|done].
      * intros r Hr Hd Ht'. apply elem_of_cons in Hr as [->|Hr]; [right; left|].
        destruct (Hall r Hr Hd Ht') as [Hin|Hin]; [|right; by right].
        rewrite hasCell_setAdd in Hin. apply orb_prop in Hin as [Hin|Hin]; [by left|].
        apply strictEq_true in Hin as <-. right. left.
      * intros Hdates. apply Forall_cons in Hdates as [Hd0 Hdates].
        constructor; [|by apply Hnd].
        intros Hin. destruct (Hnew _ Hin) as (Hn & _).
        rewrite hasCell_setAdd in Hn. apply orb_false_elim in Hn as [_ Hn].
        by rewrite strictEq_refl in Hn.
Qed.

(** X13: the route choices are in ascending order; a text is offered
    exactly when it is the non-empty route code of a row of today, and
    when the route codes are text none is offered twice. *)
Theorem getTodayRouteChoices_spec (dateText : Date → string) (now : Date)
    (data : Sheet) :
  let routeCodes := getTodayRouteChoices dateText now (Some data) in
  Sorted String.le routeCodes ∧
  (∀ code, code ∈ routeCodes ↔
           ∃ row, row ∈ drop 1 data ∧
                  rowDateIs (dd_Date row) (formatDate now) = true ∧
                  truthy (dd_Route row) = true ∧
                  cellText dateText (dd_Route row) = code) ∧
  (Forall (λ row, ∃ s, dd_Route row = CStr s) (drop 1 data) → NoDup routeCodes).
Proof.
  intros routeCodes. subst routeCodes. unfold getTodayRouteChoices, sortStrings.
  destruct (routeChoice_fold dateText (formatDate now) (drop 1 data) ([], []))
    as (Hset & added & Hout & Hnew & Hall & Hnd).
  simpl in Hout, Hall, Hnew.
  split; [apply Sorted_merge_sort, _|]. split.
  - intros code. rewrite merge_sort_Permutation, Hout. split.
    + intros Hin. apply list_elem_of_fmap in Hin as (c & -> & Hc).
      destruct (Hnew c Hc) as (_ & row & Hr & Hd & Ht & <-). by exists row.
    + intros (row & Hr & Hd & Ht & <-). apply list_elem_of_fmap.
      exists (dd_Route row). split; [done|].
      by destruct (Hall row Hr Hd Ht) as [?|?].
  - intros Htext. rewrite merge_sort_Permutation, Hout.
    assert (Forall (λ c, ∃ s, c = CStr s) added) as Hstr.
    { apply Forall_forall. intros c Hc.
      destruct (Hnew c Hc) as (_ & row & Hr & _ & _ & <-).
      rewrite Forall_forall in Htext. by apply Htext. }
    apply NoDup_fmap_2_strong.
    + intros x y Hx Hy Heq. rewrite Forall_forall in Hstr.
      destruct (Hstr x Hx) as [s ->]. destruct (Hstr y Hy) as [t ->].
      simpl in Heq. by subst.
    + apply Hnd. apply Forall_forall. intros c Hc. rewrite Forall_forall in Hstr.
      by destruct (Hstr c Hc) as [s ->].
Qed.

(** ** Today's assignments *)

Lemma assignment_fold_other dateText today rows acc k :
  (∀ row, row ∈ rows → rowDateIs (dd_Date row) today = true →
          truthy (dd_VanID row) = true → cellText dateText (dd_VanID row) ≠ k) →
  fold_left (assignmentStep dateText today) rows acc !! k = acc !! k.
Proof.
  revert acc. induction rows as [|row rows IH]; intros acc Hk; [done|].
  simpl. rewrite IH by (intros r Hr; apply Hk; by right).
  unfold assignmentStep.
  destruct (rowDateIs (dd_Date row) today) eqn:Ed; [|done].
  destruct (truthy (dd_VanID row)) eqn:Et; [|done].
  apply lookup_insert_ne. apply Hk; [left|done..].
Qed.

(** X14: the assignment the form shows for a van is the route and the
    driver of the last row of today that bears this van. *)
Theorem getTodayAssignments_last_row (dateText : Date → string) (now : Date)
    (header : DetailRow) (before after : list DetailRow) (row : DetailRow) :
  rowDateIs (dd_Date row) (formatDate now) = true →
  truthy (dd_VanID row) = true →
  (∀ later, later ∈ after → rowDateIs (dd_Date later) (formatDate now) = true →
            truthy (dd_VanID later) = true →
            cellText dateText (dd_VanID later) ≠ cellText dateText (dd_VanID row)) →
  getTodayAssignments dateText now (Some (header :: before ++ row :: after))
    !! cellText dateText (dd_VanID row)
  = Some (mkAssignment (orEmpty (dd_Route row)) (orEmpty (dd_Name row))).
Proof.
  intros Hd Ht Hafter. unfold getTodayAssignments. simpl.
  rewrite drop_0, fold_left_app. simpl.
  rewrite assignment_fold_other by done.
  unfold assignmentStep at 1. rewrite Hd, Ht. apply lookup_insert_eq.
Qed.

Lemma getTodayAssignments_last_row_witness :
  getTodayAssignments (λ _, "") feb11
      (Some (detailsHeader :: [loggedRow "CX1" "Dana Reyes" "BW2"] ++
             loggedRow "CX9" "Marquis Thomas" "BW2" :: []))
    !! "BW2"
  = Some (mkAssignment (CStr "CX9") (CStr "Marquis Thomas")).
Proof.
  apply (getTodayAssignments_last_row (λ _, "") feb11 detailsHeader
           [loggedRow "CX1" "Dana Reyes" "BW2"] []
           (loggedRow "CX9" "Marquis Thomas" "BW2")).
  - reflexivity.
  - reflexivity.
  - intros later Hl. by apply elem_of_nil in Hl.
Defined.

(** ** Reporting times *)

Lemma setSlot_checkpoint (timeKey : string) (v : option cell) (p : PaceData) :
  setSlot timeKey v p =
    match checkpointOfLabel timeKey with
    | Some c => setSlotAt c v p
    | None => p
    end.
Proof.
  unfold setSlot, checkpointOfLabel.
  repeat (destruct (String.eqb timeKey _); [done|]). done.
Qed.

Lemma reportingColumn_cases (t : string) (c : Checkpoint) :
  reportingColumn (CStr t) = Some c →
  (t = "1:40 PM" ∧ c = C140) ∨ (t = "3:40 PM" ∧ c = C340) ∨
  (t = "5:40 PM" ∧ c = C540) ∨ (t = "7:40 PM" ∧ c = C740) ∨
  (t = "9:40 PM (End of Day)" ∧ c = C940).
Proof.
  unfold reportingColumn. intros H.
  destruct (String.eqb t "1:40 PM") eqn:E1.
  { apply String.eqb_eq in E1. injection H as <-. by left. }
  destruct (String.eqb t "3:40 PM") eqn:E2.
  { apply String.eqb_eq in E2. injection H as <-. right. by left. }
  destruct (String.eqb t "5:40 PM") eqn:E3.
  { apply String.eqb_eq in E3. injection H as <-. right. right. by left. }
  destruct (String.eqb t "7:40 PM") eqn:E4.
  { apply String.eqb_eq in E4. injection H as <-. right. right. right. by left. }
  destruct (String.eqb t "9:40 PM (End of Day)") eqn:E5; [|done].
  apply String.eqb_eq in E5. injection H as <-. right. right. right. by right.
Qed.

(** X15: the writer and the reader of form reports agree on checkpoints:
    whenever [updateDailyDetailsFromForm] picks a column for a reporting
    time, the key under which [getDeliveryPaceDataFromForms] files a report
    of that time denotes the same checkpoint. *)
Theorem reporting_time_same_checkpoint (t : string) (c : Checkpoint) :
  reportingColumn (CStr t) = Some c →
  checkpointOfLabel (removeFirst " (End of Day)" t) = Some c ∧
  ∀ (v : option cell) (p : PaceData),
    setSlot (removeFirst " (End of Day)" t) v p = setSlotAt c v p.
Proof.
  intros H.
  assert (checkpointOfLabel (removeFirst " (End of Day)" t) = Some c) as Hc.
  { apply reportingColumn_cases in H
      as [[-> ->]|[[-> ->]|[[-> ->]|[[-> ->]|[-> ->]]]]]; reflexivity. }
  split; [done|]. intros v p. by rewrite setSlot_checkpoint, Hc.
Qed.

Lemma reporting_time_same_checkpoint_witness :
  checkpointOfLabel (removeFirst " (End of Day)" "9:40 PM (End of Day)") = Some C940 ∧
  ∀ (v : option cell) (p : PaceData),
    setSlot (removeFirst " (End of Day)" "9:40 PM (End of Day)") v p = setSlotAt C940 v p.
Proof. apply (reporting_time_same_checkpoint "9:40 PM (End of Day)" C940). reflexivity. Defined.

(** ** Marking a response as processed *)

Lemma markFrom_none i vanId reportingTime data :
  (∀ j r, (1 ≤ j ≤ i)%nat → data !! j = Some r →
          unprocessedMatch vanId reportingTime r = false) →
  markFrom i vanId reportingTime data = data.
Proof.
  induction i as [|i IH]; intros Hnone; [done|]. simpl.
  destruct (data !! S i) as [r|] eqn:Er.
  - rewrite (Hnone (S i) r) by (done || lia). apply IH.
    intros j r' Hj. apply Hnone. lia.
  - apply IH. intros j r' Hj. apply Hnone. lia.
Qed.

Lemma markFrom_last i vanId reportingTime data j r :
  (1 ≤ j ≤ i)%nat → data !! j = Some r →
  unprocessedMatch vanId reportingTime r = true →
  (∀ j' r', (j < j' ≤ i)%nat → data !! j' = Some r' →
            unprocessedMatch vanId reportingTime r' = false) →
  markFrom i vanId reportingTime data = <[j := markProcessed r]> data.
Proof.
  induction i as [|i IH]; intros Hj Hr Hm Hlater; [lia|]. simpl.
  destruct (decide (j = S i)) as [->|Hne].
  - by rewrite Hr, Hm.
  - destruct (data !! S i) as [r'|] eqn:Er.
    + rewrite (Hlater (S i) r') by (done || lia).
      apply IH; [lia|done..|]. intros j' r'' Hj'. apply Hlater. lia.
    + apply IH; [lia|done..|]. intros j' r'' Hj'. apply Hlater. lia.
Qed.

Lemma markFormResponseProcessed_last (vanId reportingTime : cell)
    (header : ResponseRow) (before after : list ResponseRow) (r : ResponseRow) :
  unprocessedMatch vanId reportingTime r = true →
  Forall (λ later, unprocessedMatch vanId reportingTime later = false) after →
  markFormResponseProcessed (Some (header :: before ++ r :: after))
                            vanId reportingTime
  = Some (header :: before ++ markProcessed r :: after).
Proof.
  intros Hm Hafter. unfold markFormResponseProcessed. f_equal.
  rewrite (markFrom_last _ _ _ _ (S (length before)) r).
  - simpl. f_equal. rewrite insert_app_r_alt by lia.
    by rewrite Nat.sub_diag.
  - simpl. rewrite length_app. simpl. lia.
  - simpl. rewrite lookup_app_r by lia. by rewrite Nat.sub_diag.
  - done.
  - intros j' r' Hj' Hr'. destruct j' as [|j']; [lia|]. simpl in Hr'.
    rewrite lookup_app_r in Hr' by lia.
    destruct (j' - length before)%nat as [|k] eqn:Ek; [lia|]. simpl in Hr'.
    rewrite Forall_forall in Hafter. apply Hafter.
    by eapply list_elem_of_lookup_2.
Qed.

(** X16: of the responses that match the van and the reporting time and
    are not yet processed, the most recent one (the lowest in the sheet) is
    marked "Yes" and no other row changes; the header row is never
    marked. *)
Theorem markFormResponseProcessed_most_recent (vanId reportingTime : cell)
    (header : ResponseRow) (before after : list ResponseRow) (r : ResponseRow) :
  unprocessedMatch vanId reportingTime r = true →
  Forall (λ later, unprocessedMatch vanId reportingTime later = false) after →
  markFormResponseProcessed (Some (header :: before ++ r :: after))
                            vanId reportingTime
  = Some (header :: before ++ markProcessed r :: after) ∧
  markFormResponseProcessed (Some [header]) vanId reportingTime = Some [header].
Proof.
  intros Hm Hafter. split; [by apply markFormResponseProcessed_last|done].
Qed.

Lemma markFormResponseProcessed_most_recent_witness :
  let older := mkResponseRow (mkFormRow (CStr "02/11/2025") (CStr "BW2")
                                        (CStr "1:40 PM") (CNum 20)) (CStr "No") in
  let newer := mkResponseRow (mkFormRow (CStr "02/11/2025") (CStr "BW2")
                                        (CStr "1:40 PM") (CNum 25)) (CStr "No") in
  markFormResponseProcessed (Some (responseHeader :: [older] ++ newer :: []))
                            (CStr "BW2") (CStr "1:40 PM")
  = Some (responseHeader :: [older] ++ markProcessed newer :: []) ∧
  markFormResponseProcessed (Some [responseHeader]) (CStr "BW2") (CStr "1:40 PM")
  = Some [responseHeader].
Proof.
  apply (markFormResponseProcessed_most_recent (CStr "BW2") (CStr "1:40 PM")
           responseHeader
           [mkResponseRow (mkFormRow (CStr "02/11/2025") (CStr "BW2")
                                     (CStr "1:40 PM") (CNum 20)) (CStr "No")]
           []
           (mkResponseRow (mkFormRow (CStr "02/11/2025") (CStr "BW2")
                                     (CStr "1:40 PM") (CNum 25)) (CStr "No"))).
  - reflexivity.
  - constructor.
Defined.

Lemma markFormResponseProcessed_no_match vanId reportingTime data :
  Forall (λ r, unprocessedMatch vanId reportingTime r = false) (drop 1 data) →
  markFormResponseProcessed (Some data) vanId reportingTime = Some data.
Proof.
  intros Hnone. unfold markFormResponseProcessed. f_equal.
  apply markFrom_none. intros j r Hj Hr.
  rewrite Forall_forall in Hnone. apply Hnone.
  destruct j as [|j]; [lia|]. apply (list_elem_of_lookup_2 _ j).
  by rewrite lookup_drop.
Qed.

(** ** Submitting a report *)




(** X18: the end-of-day report of the web form is never written into
    Daily Details. The form submits the reporting time "9:40 PM"; the
    writer only knows "9:40 PM (End of Day)", so the sheet stays as it was
    and the stored response stays unprocessed. *)
Theorem web_form_end_of_day_not_written (details : Sheet)
    (dataSheet : option (list ResponseRow)) (formData : Report) :
  rp_reportingTime formData = CStr "9:40 PM" →
  ∃ outcome,
    submitDeliveryPaceReport (Some details) dataSheet formData =
      (Ok outcome, Some details, reportBase dataSheet ++ [reportRow formData]) ∧
    (outcome = UnknownReportingTime ∨ outcome = NoMatchingRow).
Proof.
  intros Ht. unfold submitDeliveryPaceReport, updateDailyDetailsFromForm.
  fold (reportBase dataSheet).
  destruct (list_find _ (drop 1 details)) as [[i row]|].
  - cbn [fd_ReportingTime]. rewrite Ht. simpl.
    exists UnknownReportingTime. split; [done|by left].
  - exists NoMatchingRow. split; [done|by right].
Qed.

Lemma web_form_end_of_day_not_written_witness :
  ∃ outcome,
    submitDeliveryPaceReport (Some log_with_one_record) None
        (mkReport (CStr "02/11/2025") (CStr "BW2") (CStr "9:40 PM") 180) =
      (Ok outcome, Some log_with_one_record,
       reportBase None ++
       [reportRow (mkReport (CStr "02/11/2025") (CStr "BW2") (CStr "9:40 PM") 180)]) ∧
    (outcome = UnknownReportingTime ∨ outcome = NoMatchingRow).
Proof.
  apply (web_form_end_of_day_not_written log_with_one_record None
           (mkReport (CStr "02/11/2025") (CStr "BW2") (CStr "9:40 PM") 180)).
  reflexivity.
Defined.

(** ** Pace writes leave the identifying columns alone *)

Lemma keyColumns_populatedAE r r' :
  keyColumns r = keyColumns r' → populatedAE r = populatedAE r'.
Proof. unfold keyColumns, populatedAE. by intros [= -> -> -> -> -> _]. Qed.

Lemma cons_eq_inv {A} (x y : A) (l k : list A) : x :: l = y :: k → x = y ∧ l = k.
Proof. intros H. by injection H. Qed.

Lemma keysOf_lastPopulatedFrom i (s s' : Sheet) acc :
  keysOf s = keysOf s' → lastPopulatedFrom i s acc = lastPopulatedFrom i s' acc.
Proof.
  revert i s' acc. induction s as [|r s IH]; intros i [|r' s'] acc; try done.
  unfold keysOf. rewrite !fmap_cons. intros [Hr Hs]%cons_eq_inv. simpl.
  rewrite (keyColumns_populatedAE _ _ Hr). by apply IH.
Qed.

Lemma keysOf_getLast (s s' : Sheet) :
  keysOf s = keysOf s' →
  getLastPopulatedRowInColumns s = getLastPopulatedRowInColumns s'.
Proof. apply keysOf_lastPopulatedFrom. Qed.

Lemma keysOf_take n (s : Sheet) : keysOf (take n s) = take n (keysOf s).
Proof. unfold keysOf. by rewrite fmap_take. Qed.

Lemma keysOf_drop n (s : Sheet) : keysOf (drop n s) = drop n (keysOf s).
Proof. unfold keysOf. by rewrite fmap_drop. Qed.

Lemma keysOf_existing_fold dateStr (rows rows' : list DetailRow) ids :
  keysOf rows = keysOf rows' →
  fold_left (λ uniqueIdentifiers row,
               if String.eqb (cellDateString (dd_Date row)) dateStr
               then setAdd uniqueIdentifiers (dd_UniqueID row)
               else uniqueIdentifiers) rows ids =
  fold_left (λ uniqueIdentifiers row,
               if String.eqb (cellDateString (dd_Date row)) dateStr
               then setAdd uniqueIdentifiers (dd_UniqueID row)
               else uniqueIdentifiers) rows' ids.
Proof.
  revert rows' ids. induction rows as [|r rows IH]; intros [|r' rows'] ids; try done.
  unfold keysOf. rewrite !fmap_cons. intros [Hr Hs]%cons_eq_inv. simpl.
  unfold keyColumns in Hr. injection Hr as Hd _ _ _ _ Hu.
  rewrite Hd, Hu. by apply IH.
Qed.

Lemma keysOf_existing (s s' : Sheet) dateStr :
  keysOf s = keysOf s' →
  getExistingUniqueIdentifiers s dateStr = getExistingUniqueIdentifiers s' dateStr.
Proof.
  intros H. unfold getExistingUniqueIdentifiers.
  rewrite (keysOf_getLast _ _ H).
  destruct (1 <? getLastPopulatedRowInColumns s')%nat; [|done].
  apply keysOf_existing_fold. unfold dataRows.
  by rewrite keysOf_take, keysOf_drop, H, <- keysOf_drop, <- keysOf_take.
Qed.

Lemma keysOf_append_outcome now (s s' : Sheet) resultsData :
  keysOf s = keysOf s' →
  (updateDailyDetails now s resultsData).1 = (updateDailyDetails now s' resultsData).1.
Proof.
  intros H. unfold updateDailyDetails.
  destruct resultsData as [|hd [|r data]]; [done..|].
  rewrite (keysOf_existing _ _ _ H), (keysOf_getLast _ _ H).
  destruct (List.filter _ _); [|done].
  by destruct (_ =? _)%nat.
Qed.

Lemma keysOf_insert_pace (s : Sheet) i row pace :
  s !! i = Some row → keysOf (<[i := setPace pace row]> s) = keysOf s.
Proof.
  intros Hi. unfold keysOf. rewrite list_fmap_insert.
  apply list_insert_id. by rewrite list_lookup_fmap, Hi.
Qed.

Lemma find_in_drop1 {A} (P : A → Prop) `{∀ x, Decision (P x)} (l : list A) i x :
  list_find P (drop 1 l) = Some (i, x) → l !! S i = Some x.
Proof.
  intros Hf. apply list_find_Some in Hf as (Hi & _). by rewrite lookup_drop in Hi.
Qed.

Lemma dataRows_lookup (s : Sheet) n i x :
  dataRows s n !! i = Some x → s !! S i = Some x.
Proof.
  unfold dataRows. intros Hi. apply lookup_take_Some in Hi as [Hi _].
  by rewrite lookup_drop in Hi.
Qed.

Lemma refreshRow_keys getPace today h m row :
  keyColumns (refreshRow getPace today h m row) = keyColumns row.
Proof. unfold refreshRow. by destruct (_ && _). Qed.

Lemma data_rows_split (s : Sheet) :
  (2 ≤ getLastPopulatedRowInColumns s)%nat →
  take 1 s ++ dataRows s (getLastPopulatedRowInColumns s) ++
  drop (getLastPopulatedRowInColumns s) s = s.
Proof.
  intros H2. pose proof (getLast_le s) as Hle.
  set (n := getLastPopulatedRowInColumns s) in *.
  unfold dataRows. rewrite app_assoc.
  assert (take 1 s ++ take (n - 1) (drop 1 s) = take n s) as ->.
  { rewrite take_take_drop. f_equal. lia. }
  apply take_drop.
Qed.

Lemma updateDeliveryPaceForToday_keys getPace now h m (s : Sheet) :
  keysOf (updateDeliveryPaceForToday getPace now h m s) = keysOf s.
Proof.
  unfold updateDeliveryPaceForToday.
  destruct (_ <? 2)%nat eqn:E; [done|]. apply Nat.ltb_ge in E.
  pose proof (data_rows_split s E) as Hs.
  set (n := getLastPopulatedRowInColumns s) in *.
  transitivity (keysOf (take 1 s ++ dataRows s n ++ drop n s)); [|by rewrite Hs].
  unfold keysOf. rewrite !fmap_app. do 2 f_equal.
  rewrite <- list_fmap_compose. apply list_fmap_ext.
  intros i x _. apply refreshRow_keys.
Qed.

(** X19: no pace writer touches the columns that identify a record (A to
    E and V). So after a form report, an update of one van or the timed
    refresh, the log is as long as before and [updateDailyDetails] decides
    exactly as it would have decided before: same duplicates, same start
    row. *)
Theorem pace_writes_keep_append_guard
    (getPace : cell → string → Slots (option Z)) (details : Sheet)
    (now : Date) (resultsData : list ResultsRow) :
  (∀ dataSheet formData,
     let details1 := (updateDailyDetailsFromForm details dataSheet formData).1.2 in
     keysOf details1 = keysOf details ∧
     logLength details1 = logLength details ∧
     (updateDailyDetails now details1 resultsData).1
       = (updateDailyDetails now details resultsData).1) ∧
  (∀ vanId date updated details1,
     updateDeliveryPaceForVan getPace details vanId date = Ok (updated, details1) →
     keysOf details1 = keysOf details ∧
     logLength details1 = logLength details ∧
     (updateDailyDetails now details1 resultsData).1
       = (updateDailyDetails now details resultsData).1) ∧
  (∀ today currentHour currentMinutes,
     let details1 :=
       updateDeliveryPaceForToday getPace today currentHour currentMinutes details in
     keysOf details1 = keysOf details ∧
     logLength details1 = logLength details ∧
     (updateDailyDetails now details1 resultsData).1
       = (updateDailyDetails now details resultsData).1).
Proof.
  assert (∀ details1, keysOf details1 = keysOf details →
            keysOf details1 = keysOf details ∧
            logLength details1 = logLength details ∧
            (updateDailyDetails now details1 resultsData).1
              = (updateDailyDetails now details resultsData).1) as Hsame.
  { intros details1 H. split; [done|]. split.
    - by apply keysOf_getLast.
    - by apply keysOf_append_outcome. }
  split; [|split].
  - intros dataSheet formData details1. apply Hsame. subst details1.
    unfold updateDailyDetailsFromForm.
    destruct (list_find _ (drop 1 details)) as [[i row]|] eqn:Ef; [|done].
    destruct (reportingColumn _); [|done]. simpl.
    apply keysOf_insert_pace. by apply find_in_drop1 in Ef.
  - intros vanId date updated details1 Hup. apply Hsame.
    unfold updateDeliveryPaceForVan in Hup.
    destruct (_ <? 2)%nat; [done|].
    destruct (list_find _ _) as [[i row]|] eqn:Ef; injection Hup as <- <-; [|done].
    apply keysOf_insert_pace. apply list_find_Some in Ef as (Hi & _).
    by apply dataRows_lookup in Hi.
  - intros today h m details1. apply Hsame. apply updateDeliveryPaceForToday_keys.
Qed.

(** ** Updating one van *)

Lemma rowIsFor_keys vanId date r r' :
  keyColumns r = keyColumns r' → rowIsFor vanId date r = rowIsFor vanId date r'.
Proof.
  unfold keyColumns, rowIsFor. intros H. injection H as Hd _ _ _ Hv _.
  by rewrite Hd, Hv.
Qed.

Lemma existsb_rowIsFor_keys vanId date (rows rows' : list DetailRow) :
  keysOf rows = keysOf rows' →
  existsb (rowIsFor vanId date) rows = existsb (rowIsFor vanId date) rows'.
Proof.
  revert rows'. induction rows as [|r rows IH]; intros [|r' rows']; try done.
  unfold keysOf. rewrite !fmap_cons. intros [Hr Hs]%cons_eq_inv. simpl.
  rewrite (rowIsFor_keys _ _ _ _ Hr). f_equal. by apply IH.
Qed.

Lemma keysOf_dataRows (s s' : Sheet) :
  keysOf s = keysOf s' →
  keysOf (dataRows s (getLastPopulatedRowInColumns s)) =
  keysOf (dataRows s' (getLastPopulatedRowInColumns s')).
Proof.
  intros H. rewrite (keysOf_getLast _ _ H). unfold dataRows.
  by rewrite !keysOf_take, !keysOf_drop, H.
Qed.

Lemma list_find_existsb {A} (f : A → bool) (l : list A) :
  existsb f l = true ↔ is_Some (list_find (λ x, f x = true) l).
Proof.
  split.
  - intros H. apply existsb_exists in H as (x & Hx & Hf).
    apply list_elem_of_In in Hx. apply list_elem_of_lookup in Hx as (i & Hi).
    destruct (list_find (λ x, f x = true) l) eqn:E; [done|].
    apply list_find_None in E. rewrite Forall_forall in E.
    exfalso. apply (E x); [by eapply list_elem_of_lookup_2|done].
  - intros [[i x] H]. apply list_find_Some in H as (Hi & Hf & _).
    apply existsb_exists. exists x. split; [|done].
    apply list_elem_of_In. by eapply list_elem_of_lookup_2.
Qed.

(** Whether Daily Details has a data row of this van on this date. *)
Lemma updateDeliveryPaceForVan_flag getPace (s : Sheet) vanId date :
  (2 ≤ logLength s)%nat →
  ∃ s1, updateDeliveryPaceForVan getPace s vanId date =
          Ok (existsb (rowIsFor vanId date)
                      (dataRows s (getLastPopulatedRowInColumns s)), s1) ∧
        keysOf s1 = keysOf s.
Proof.
  intros H2. unfold updateDeliveryPaceForVan, logLength in *.
  apply Nat.ltb_ge in H2. rewrite H2.
  destruct (list_find _ _) as [[i row]|] eqn:Ef.
  - eexists. split.
    + f_equal. f_equal. symmetry. apply list_find_existsb. by rewrite Ef.
    + apply keysOf_insert_pace. apply list_find_Some in Ef as (Hi & _).
      by apply dataRows_lookup in Hi.
  - exists s. split; [|done]. f_equal. f_equal. symmetry.
    apply not_true_is_false. intros He. apply list_find_existsb in He.
    rewrite Ef in He. by destruct He.
Qed.

(** X20: [updateDeliveryPaceForVan] reports [true] exactly when Daily
    Details has a data row of the van on the date, writes the five counts
    on the first such row only, and doing it again changes nothing more. On
    a sheet without data row it throws instead of reporting [false]. *)
Theorem updateDeliveryPaceForVan_spec
    (getPace : cell → string → Slots (option Z))
    (details : Sheet) (vanId : cell) (date : string) :
  ((logLength details < 2)%nat →
   updateDeliveryPaceForVan getPace details vanId date
     = Throw "The number of rows in the range must be at least 1.") ∧
  ((2 ≤ logLength details)%nat →
   ∃ details1,
     updateDeliveryPaceForVan getPace details vanId date =
       Ok (existsb (rowIsFor vanId date)
                   (dataRows details (logLength details)), details1) ∧
     updateDeliveryPaceForVan getPace details1 vanId date =
       Ok (existsb (rowIsFor vanId date)
                   (dataRows details (logLength details)), details1) ∧
     length details1 = length details ∧
     ∀ j, (∀ i row, list_find (λ row, rowIsFor vanId date row = true)
                      (dataRows details (logLength details)) = Some (i, row) →
                    j ≠ S i) →
          details1 !! j = details !! j).
Proof.
  split.
  - intros H. unfold updateDeliveryPaceForVan, logLength in *.
    apply Nat.ltb_lt in H. by rewrite H.
  - intros H2. unfold updateDeliveryPaceForVan, logLength in *.
    apply Nat.ltb_ge in H2 as H2'. rewrite H2'.
    destruct (list_find _ _) as [[i row]|] eqn:Ef.
    + assert (existsb (rowIsFor vanId date)
                (dataRows details (getLastPopulatedRowInColumns details)) = true) as ->.
      { apply list_find_existsb. by rewrite Ef. }
      pose proof Ef as Ef'. apply list_find_Some in Ef' as (Hi & Hrow & Hfirst).
      apply dataRows_lookup in Hi as Hsheet.
      eexists. split; [done|]. split; [|split].
      * assert (keysOf (<[S i := setPace (getPace vanId date) row]> details)
                = keysOf details) as Hk by (by apply keysOf_insert_pace).
        rewrite (keysOf_getLast _ _ Hk), H2'.
        (* the same row is found again *)
        assert (list_find (λ row0, rowIsFor vanId date row0 = true)
                  (dataRows (<[S i := setPace (getPace vanId date) row]> details)
                            (getLastPopulatedRowInColumns details))
                = Some (i, setPace (getPace vanId date) row)) as ->.
        { unfold dataRows in *. apply list_find_Some.
          apply lookup_take_Some in Hi as [Hi Hlt].
          rewrite lookup_drop in Hi. simpl in Hi.
          split; [|split].
          - apply lookup_take_Some. split; [|done].
            rewrite lookup_drop. simpl. rewrite list_lookup_insert_eq; [done|].
            by eapply lookup_lt_Some.
          - by rewrite <- Hrow.
          - intros j y Hj Hji.
            apply lookup_take_Some in Hj as [Hj _].
            rewrite lookup_drop in Hj. simpl in Hj.
            rewrite list_lookup_insert_ne in Hj by lia.
            apply (Hfirst j y); [|done].
            apply lookup_take_Some. split; [|lia]. by rewrite lookup_drop. }
        f_equal. f_equal. rewrite list_insert_insert_eq. done.
      * by rewrite length_insert.
      * intros j Hj. apply list_lookup_insert_ne. intros <-. by apply (Hj i row).
    + assert (existsb (rowIsFor vanId date)
                (dataRows details (getLastPopulatedRowInColumns details)) = false) as ->.
      { apply not_true_is_false. intros He. apply list_find_existsb in He.
        rewrite Ef in He. by destruct He. }
      exists details. rewrite H2', Ef. done.
Qed.

(** X21: an appended batch can be updated at once: for every van of a
    batch that [updateDailyDetails] appended to a log with its header row,
    [updateDeliveryPaceForVan] finds a row of today and reports [true]. *)
Theorem appended_van_is_found
    (getPace : cell → string → Slots (option Z))
    (now : Date) (sheet : Sheet) (header : ResultsRow) (data : list ResultsRow)
    (startRow numNewRows : nat) (written : bool) (sheet1 : Sheet) (r : ResultsRow) :
  (1 ≤ logLength sheet)%nat →
  updateDailyDetails now sheet (header :: data)
    = (Appended startRow numNewRows written, sheet1) →
  r ∈ data →
  ∃ sheet2,
    updateDeliveryPaceForVan getPace sheet1 (CStr (res_VanID r)) (getTodayString now)
      = Ok (true, sheet2).
Proof.
  intros Hhdr Hrun Hr.
  destruct (appended_inv _ _ _ _ _ _ _ _ Hrun) as [Hne Hfresh].
  destruct (updateDailyDetails_accepts now sheet header data Hne Hfresh)
    as (mid & post & Hpad & Hlen & Hmid & Hpost & Heq).
  rewrite Heq in Hrun. injection Hrun as _ _ _ <-.
  pose proof (appended_logLength now sheet data mid post Hne Hlen Hpost) as HL.
  set (sheet1 := take (getLastPopulatedRowInColumns sheet) sheet ++
                 appendedBlock (getTodayString now) data mid ++ post) in *.
  assert (2 ≤ logLength sheet1)%nat as H2.
  { rewrite HL. unfold logLength in Hhdr. destruct data; [done|]. simpl. lia. }
  destruct (updateDeliveryPaceForVan_flag getPace sheet1 (CStr (res_VanID r))
              (getTodayString now) H2) as (s2 & -> & _).
  exists s2. f_equal. f_equal.
  apply existsb_exists.
  apply list_elem_of_lookup in Hr as (i & Hi).
  destruct (lookup_lt_is_Some_2 mid i) as [m Hm].
  { rewrite Hlen. by eapply lookup_lt_Some. }
  destruct (appendedBlock_lookup (getTodayString now) data mid i r m Hi Hm)
    as (row & Hrow & Hdate & _ & _ & _ & Hvan & _).
  exists row. split.
  - apply list_elem_of_In. rewrite dataRows_alt.
    fold (logLength sheet1). rewrite HL. subst sheet1.
    rewrite app_assoc, take_app_length'; cycle 1.
    { by rewrite length_app, take_getLast_length, appendedBlock_length. }
    unfold logLength in Hhdr.
    destruct (take (getLastPopulatedRowInColumns sheet) sheet) as [|h t] eqn:Et.
    { pose proof (take_getLast_length sheet) as Hl. rewrite Et in Hl. simpl in Hl. lia. }
    simpl. rewrite drop_0. apply elem_of_app. right.
    by eapply list_elem_of_lookup_2.
  - unfold rowIsFor. rewrite Hdate, Hvan. simpl.
    by rewrite !String.eqb_refl.
Qed.

Lemma appended_van_is_found_witness :
  ∃ sheet2,
    updateDeliveryPaceForVan (λ _ _, slotsAll (Some 12%Z))
        (updateDailyDetails feb11 [detailsHeader] (resultsHeader :: batch_of_two)).2
        (CStr "BW3") (getTodayString feb11)
      = Ok (true, sheet2).
Proof.
  apply (appended_van_is_found (λ _ _, slotsAll (Some 12%Z)) feb11 [detailsHeader]
           resultsHeader batch_of_two 2 2 true _
           (resultsRowOf "CX10" "BW3" "Dana Reyes" (CStr "02/11/2025|CX10|Dana Reyes|BW3"))).
  - vm_compute. lia.
  - vm_compute. reflexivity.
  - right. left.
Defined.

(** ** Updating several vans *)

Lemma batch_fold getPace date (vanIds : list cell) (s : Sheet) (n : nat) :
  (2 ≤ logLength s)%nat →
  ∃ s1,
    fold_left
      (λ acc vanId,
         match acc with
         | Ok (updatedCount, sheet) =>
             match updateDeliveryPaceForVan getPace sheet vanId date with
             | Ok (true, sheet') => Ok (S updatedCount, sheet')
             | Ok (false, sheet') => Ok (updatedCount, sheet')
             | Throw msg => Throw msg
             end
         | Throw msg => Throw msg
         end)
      vanIds (Ok (n, s)) =
    Ok ((n + length (List.filter
                       (λ vanId, existsb (rowIsFor vanId date)
                                   (dataRows s (getLastPopulatedRowInColumns s)))
                       vanIds))%nat, s1) ∧
    keysOf s1 = keysOf s.
Proof.
  revert s n. induction vanIds as [|v vs IH]; intros s n H2.
  - exists s. simpl. by rewrite Nat.add_0_r.
  - cbn [fold_left List.filter].
    destruct (updateDeliveryPaceForVan_flag getPace s v date H2) as (s1 & -> & Hk).
    assert (2 ≤ logLength s1)%nat as H2'.
    { unfold logLength in *. by rewrite (keysOf_getLast _ _ Hk). }
    assert (∀ vanId,
              existsb (rowIsFor vanId date)
                (dataRows s1 (getLastPopulatedRowInColumns s1)) =
              existsb (rowIsFor vanId date)
                (dataRows s (getLastPopulatedRowInColumns s))) as Hsame.
    { intros vanId. apply existsb_rowIsFor_keys. by apply keysOf_dataRows. }
    destruct (existsb (rowIsFor v date) _) eqn:Ev.
    + destruct (IH s1 (S n) H2') as (s2 & -> & Hk2).
      exists s2. split; [|by rewrite Hk2].
      f_equal. f_equal. simpl.
      rewrite (filter_ext _ _ Hsame) by done. lia.
    + destruct (IH s1 n H2') as (s2 & -> & Hk2).
      exists s2. split; [|by rewrite Hk2].
      f_equal. f_equal. by rewrite (filter_ext _ _ Hsame).
Qed.

(** X22: on a log with data rows, [batchUpdateDeliveryPace] returns the
    number of requested van ids (repetitions counted) that have a data row
    on the date; the updates made on the way do not change which ids are
    found. With no data row it throws as soon as one id is requested. *)
Theorem batchUpdateDeliveryPace_count
    (getPace : cell → string → Slots (option Z))
    (details : Sheet) (vanIds : list cell) (date : string) :
  ((2 ≤ logLength details)%nat →
   ∃ details1,
     batchUpdateDeliveryPace getPace details vanIds date =
       Ok (length (List.filter
                     (λ vanId, existsb (rowIsFor vanId date)
                                 (dataRows details (logLength details)))
                     vanIds), details1) ∧
     keysOf details1 = keysOf details) ∧
  ((logLength details < 2)%nat → vanIds ≠ [] →
   batchUpdateDeliveryPace getPace details vanIds date
     = Throw "The number of rows in the range must be at least 1.").
Proof.
  split.
  - intros H2. unfold batchUpdateDeliveryPace.
    destruct (batch_fold getPace date vanIds details 0 H2) as (s1 & -> & Hk).
    by exists s1.
  - intros Hlt Hne. unfold batchUpdateDeliveryPace.
    destruct vanIds as [|v vs]; [done|]. cbn [fold_left].
    assert (updateDeliveryPaceForVan getPace details v date
            = Throw "The number of rows in the range must be at least 1.") as ->.
    { unfold updateDeliveryPaceForVan. unfold logLength in Hlt.
      apply Nat.ltb_lt in Hlt. by rewrite Hlt. }
    clear. induction vs as [|v' vs IH]; [done|]. by simpl.
Qed.

(** On a log with one record of van "BW2": the van is found, another is
    not, and a repeated id is counted each time. *)
Example updateDeliveryPaceForVan_on_log :
  updateDeliveryPaceForVan (λ _ _, slotsAll (Some 12%Z)) log_with_one_record
                           (CStr "BW2") "02/11/2025"
    = Ok (true, [detailsHeader;
                 setPace (slotsAll (Some 12%Z)) (loggedRow "CX9" "Marquis Thomas" "BW2")]) ∧
  updateDeliveryPaceForVan (λ _ _, slotsAll (Some 12%Z)) log_with_one_record
                           (CStr "BW9") "02/11/2025"
    = Ok (false, log_with_one_record) ∧
  updateDeliveryPaceForVan (λ _ _, slotsAll (Some 12%Z)) [detailsHeader]
                           (CStr "BW2") "02/11/2025"
    = Throw "The number of rows in the range must be at least 1.".
Proof. by vm_compute. Qed.

Example batchUpdateDeliveryPace_on_log :
  match batchUpdateDeliveryPace (λ _ _, slotsAll (Some 12%Z)) log_with_one_record
                                [CStr "BW2"; CStr "BW9"; CStr "BW2"] "02/11/2025" with
  | Ok (updatedCount, _) => updatedCount = 2%nat
  | Throw _ => False
  end.
Proof. by vm_compute. Qed.

(** ** A submitted report is read back *)







(** ** The timed refresh *)

Lemma slotReached_minutes h m :
  Forall (λ slot, slotReached h m slot =
                  (refreshedFrom (ts_slot slot) <=? 60 * h + m)%nat)
         DELIVERY_TIME_SLOTS.
Proof.
  unfold DELIVERY_TIME_SLOTS, slotReached.
  repeat constructor; simpl ts_time; simpl ts_slot; simpl refreshedFrom;
    (destruct (_ <=? 60 * h + m)%nat eqn:E;
     [apply Nat.leb_le in E; apply Z.leb_le; lia
     |apply Nat.leb_gt in E; apply Z.leb_gt; lia]).
Qed.

Lemma refreshRow_slot getPace today h m row c :
  slotAt c (dd_Pace (refreshRow getPace today h m row)) =
    if rowDateIs (dd_Date row) today && truthy (dd_VanID row) &&
       (refreshedFrom c <=? 60 * h + m)%nat
    then slotAt c (getPace (dd_VanID row) today)
    else slotAt c (dd_Pace row).
Proof.
  unfold refreshRow.
  destruct (rowDateIs (dd_Date row) today && truthy (dd_VanID row)); [|done].
  pose proof (slotReached_minutes h m) as Hs.
  unfold DELIVERY_TIME_SLOTS in *.
  repeat (apply Forall_cons in Hs as [? Hs]). simpl ts_slot in *.
  cbn [fold_left]. repeat match goal with H : slotReached _ _ _ = _ |- _ => rewrite H; clear H end.
  cbn [ts_slot andb].
  destruct c; cbn [refreshedFrom];
    repeat (destruct (_ <=? 60 * h + m)%nat); reflexivity.
Qed.

(** X24: the timed refresh writes the column of a checkpoint only from
    one minute past the checkpoint on (1:41 PM for "1:40 PM", and so on
    every two hours), only on the data rows of today that bear a van, and
    leaves every other cell of the sheet as it was. *)
Theorem updateDeliveryPaceForToday_spec
    (getPace : cell → string → Slots (option Z)) (now : Date)
    (currentHour currentMinutes : nat) (details : Sheet) :
  let details1 :=
    updateDeliveryPaceForToday getPace now currentHour currentMinutes details in
  keysOf details1 = keysOf details ∧
  ∀ (j : nat) (row : DetailRow), details !! j = Some row →
    ∃ row1, details1 !! j = Some row1 ∧
      ∀ c, slotAt c (dd_Pace row1) =
           if bool_decide (1 ≤ j < logLength details)%nat &&
              rowDateIs (dd_Date row) (getTodayString now) &&
              truthy (dd_VanID row) &&
              (refreshedFrom c <=? 60 * currentHour + currentMinutes)%nat
           then slotAt c (getPace (dd_VanID row) (getTodayString now))
           else slotAt c (dd_Pace row).
Proof.
  intros details1. split; [apply updateDeliveryPaceForToday_keys|].
  intros j row Hj. subst details1. unfold updateDeliveryPaceForToday, logLength.
  destruct (_ <? 2)%nat eqn:E.
  { apply Nat.ltb_lt in E. exists row. split; [done|]. intros c.
    rewrite bool_decide_eq_false_2 by lia. done. }
  apply Nat.ltb_ge in E. pose proof (data_rows_split details E) as Hs.
  set (n := getLastPopulatedRowInColumns details) in *.
  pose proof (getLast_le details) as Hle. fold n in Hle.
  rewrite <- Hs in Hj.
  assert (length (take 1 details) = 1%nat) as L1 by (rewrite length_take; lia).
  assert (length (dataRows details n) = (n - 1)%nat) as L2.
  { unfold dataRows. rewrite length_take, length_drop. lia. }
  destruct (decide (j < 1)%nat) as [Hj0|Hj1].
  - rewrite lookup_app_l in Hj |- * by lia. exists row. split; [done|].
    intros c. rewrite bool_decide_eq_false_2 by lia. done.
  - rewrite lookup_app_r in Hj |- * by lia. rewrite L1 in *.
    destruct (decide (j - 1 < n - 1)%nat) as [Hin|Hout].
    + rewrite lookup_app_l in Hj by lia.
      rewrite lookup_app_l by (rewrite length_fmap; lia).
      rewrite list_lookup_fmap, Hj. simpl. eexists. split; [done|].
      intros c. rewrite refreshRow_slot.
      rewrite bool_decide_eq_true_2 by lia. done.
    + rewrite lookup_app_r in Hj by lia.
      rewrite lookup_app_r by (rewrite length_fmap; lia).
      rewrite length_fmap. exists row. split; [done|].
      intros c. rewrite bool_decide_eq_false_2 by lia. done.
Qed.

(** At 1:40 PM sharp nothing is written; at 1:41 PM the first column
    is. *)
Example refresh_at_1340_and_1341 :
  updateDeliveryPaceForToday (λ _ _, slotsAll (Some 12%Z)) feb11 13 40
                             log_with_one_record = log_with_one_record ∧
  updateDeliveryPaceForToday (λ _ _, slotsAll (Some 12%Z)) feb11 13 41
                             log_with_one_record
    = [detailsHeader;
       setPace (mkSlots (Some 12%Z) None None None None)
               (loggedRow "CX9" "Marquis Thomas" "BW2")].
Proof. by vm_compute. Qed.

(** ** The configuration *)

(** The constants used by the models above are the values of [CONFIG]. *)
Example getConfig_TARGET_DSP : getConfig "TARGET_DSP" = Ok (JStr TARGET_DSP).
Proof. reflexivity. Qed.

Example getConfig_VEHICLE_STATUS_columns :
  stringsOf <$> (match getConfig "REQUIRED_COLUMNS.VEHICLE_STATUS" with
                 | Ok v => Some v
                 | Throw _ => None
                 end) = Some REQUIRED_COLUMNS_VEHICLE_STATUS.
Proof. reflexivity. Qed.

Example getConfig_VAN_TYPE_MAPPING :
  match getConfig "VAN_TYPE_MAPPING" with
  | Ok (JObj fields) =>
      list_to_map (omap (λ kv, match kv.2 with
                               | JStr s => Some (kv.1, s)
                               | _ => None
                               end) fields) = VAN_TYPE_MAPPING
  | _ => False
  end.
Proof. by vm_compute. Qed.

(** Of the keys the services ask for, one is not configured. *)
Example requested_keys_not_configured :
  List.filter (λ key, match getConfig key with Throw _ => true | Ok _ => false end)
              requestedConfigKeys = ["EMAIL_RECIPIENT"].
Proof. by vm_compute. Qed.

(** X25: with the configuration of Config.js no mail is ever sent: the
    recipient key is not configured, [getConfig] throws, the error is
    caught and [sendDeliveryPaceEmail] returns [false] for every form
    data. *)
Theorem sendDeliveryPaceEmail_never_sends {Form Mail : Type}
    (vanIdOf : Form → option cell) (compose : Form → jsval → result Mail)
    (formData : option Form) :
  getConfig "EMAIL_RECIPIENT"
    = Throw "Configuration key not found: EMAIL_RECIPIENT" ∧
  sendDeliveryPaceEmail vanIdOf compose formData = (false, []).
Proof.
  split; [reflexivity|].
  unfold sendDeliveryPaceEmail. destruct formData as [fd|]; [|done].
  destruct (match vanIdOf fd with Some v => truthy v | None => false end); [|done].
  reflexivity.
Qed.

(** ** Only routes of the target DSP are served *)

Lemma matchRoutes_origin routes queues a :
  a ∈ (MatcherSpec.matchRoutes routes queues).1 →
  ∃ route v, route ∈ routes ∧ a = makeResult route v.
Proof.
  revert queues. induction routes as [|route rest IH]; intros queues; simpl.
  - intros H. by apply elem_of_nil in H.
  - destruct (MatcherSpec.resolveCategory (rt_ServiceType route)) as [c|].
    + destruct (queues c) as [|v q].
      * destruct (MatcherSpec.matchRoutes rest queues) as [allocs unmatched] eqn:E.
        simpl. intros H. specialize (IH queues). rewrite E in IH.
        destruct (IH H) as (r & v & Hr & ->). exists r, v. split; [by right|done].
      * destruct (MatcherSpec.matchRoutes rest (MatcherSpec.setQueue queues c q))
          as [allocs unmatched] eqn:E.
        simpl. intros H. apply elem_of_cons in H as [->|H].
        -- exists route, v. split; [left|done].
        -- specialize (IH (MatcherSpec.setQueue queues c q)). rewrite E in IH.
           destruct (IH H) as (r & v' & Hr & ->). exists r, v'. split; [by right|done].
    + destruct (MatcherSpec.matchRoutes rest queues) as [allocs unmatched] eqn:E.
      simpl. intros H. specialize (IH queues). rewrite E in IH.
      destruct (IH H) as (r & v & Hr & ->). exists r, v. split; [by right|done].
Qed.

(** X26: a van is only ever given to a route of the target DSP: every
    allocation [mainAllocation] obtains comes from a route of the Day of
    Ops sheet whose DSP is exactly "BWAY", and carries that DSP. *)
Theorem only_target_dsp_allocated (dayOfOpsObj : list Route)
    (fleetObj : list Vehicle) :
  Forall (λ a, al_DSP a = TARGET_DSP ∧
               ∃ route, route ∈ dayOfOpsObj ∧ rt_DSP route = TARGET_DSP ∧
                        al_RouteCode a = rt_RouteCode route ∧
                        al_ServiceType a = rt_ServiceType route)
         (allocationResults (allocateTargetRoutes dayOfOpsObj fleetObj)).
Proof.
  apply Forall_forall. intros a Ha. unfold allocateTargetRoutes in Ha.
  rewrite allocate_results_spec in Ha.
  apply matchRoutes_origin in Ha as (route & v & Hr & ->).
  apply list_elem_of_filter in Hr as [Hdsp Hr].
  split; [done|]. by exists route.
Qed.

(** ** As many routes as possible are served *)





Example allocation_is_maximal_two_routes_one_van :
  length (allocationResults (allocateVehiclesToRoutes sample_routes one_van_roster))
    = 1%nat ∧
  length (allocationResults (allocateVehiclesToRoutes sample_routes sample_roster))
    = 2%nat.
Proof. by vm_compute. Qed.

(** ** Assigned vans and the list of available vans *)

(** X28: the header check of [mainAllocation] protects the later steps:
    once [verifyRequiredColumns] has accepted the Vehicle Status header,
    [extractUnassignedRows] finds its two columns and cannot throw. *)
Theorem verified_header_lists_unassigned (headerRow : list cell)
    (rows : list (list cell)) (contextLabel : string) (assignedVanIds : list string) :
  verifyRequiredColumns headerRow REQUIRED_COLUMNS_VEHICLE_STATUS contextLabel = Ok tt →
  ∃ vanIdCol opCol,
    indexOf headerRow (CStr "Van ID") = Some vanIdCol ∧
    indexOf headerRow (CStr ("Opnal?" +:+ String "010"%char "Y/N")) = Some opCol ∧
    extractUnassignedRows (headerRow :: rows) assignedVanIds =
      Ok (take 15 headerRow ::
          (take 15 <$> List.filter (unassignedRow 15 vanIdCol opCol assignedVanIds)
                                   rows)).
Proof.
  intros Hok. unfold verifyRequiredColumns in Hok.
  destruct (missingColumns headerRow REQUIRED_COLUMNS_VEHICLE_STATUS) eqn:E; [|done].
  unfold missingColumns, REQUIRED_COLUMNS_VEHICLE_STATUS in E. simpl in E.
  destruct (indexOf headerRow (CStr "Van ID")) as [vanIdCol|] eqn:Ev; [|done].
  simpl in E.
  destruct (indexOf headerRow (CStr "Type")); simpl in E; [|done].
  destruct (indexOf headerRow (CStr ("Opnal?" +:+ String "010"%char "Y/N")))
    as [opCol|] eqn:Eo; [|done].
  exists vanIdCol, opCol. split; [done|]. split; [done|].
  by apply extractUnassignedRows_Ok.
Qed.

Lemma verified_header_lists_unassigned_witness :
  ∃ vanIdCol opCol,
    indexOf vehicleStatus_header (CStr "Van ID") = Some vanIdCol ∧
    indexOf vehicleStatus_header (CStr ("Opnal?" +:+ String "010"%char "Y/N"))
      = Some opCol ∧
    extractUnassignedRows (vehicleStatus_header :: vehicleStatus_rows) ["BW1"] =
      Ok (take 15 vehicleStatus_header ::
          (take 15 <$> List.filter (unassignedRow 15 vanIdCol opCol ["BW1"])
                                   vehicleStatus_rows)).
Proof.
  apply (verified_header_lists_unassigned vehicleStatus_header vehicleStatus_rows
           "VehicleStatus (Vehicle Status)" ["BW1"]).
  reflexivity.
Defined.



(** ** Associate names *)





Example associate_name_of_repeated_route :
  res_AssociateName
    (updateResultsRow feb11
       (routeToDriver [mkDailyRoute "CX9" "Marquis Thomas"; mkDailyRoute "CX9" ""])
       (resultsRowOf "CX9" "BW2" "" (CStr ""))) = "N/A".
Proof. reflexivity. Qed.
